(** * Barkbase maintenance scripts: regex-driven source rewriting

    A shallow embedding of the text-rewriting scripts of the repository
    ([docs/Utilities/fix_theme_line_by_line.py],
    [docs/Utilities/update_dark_mode.py],
    [docs/Utilities/fix_all_dark_mode.py],
    [docs/Utilities/fix_colored_backgrounds.py],
    [docs/Utilities/fix_multiline_inputs.py], [fix-authorizers.py]) together
    with the part of Python's [re] and [str] libraries they call.

    Text is a list of characters; a character is a code point below 256.
    The backtracking matcher follows the search order of Python's engine:
    ordered alternation, greedy and lazy repetition, capture groups,
    negative lookahead and the word boundary. *)

From Stdlib Require Import Ascii String List Bool Arith Lia Sorted.
From stdpp Require Import base option list strings gmap.

Open Scope list_scope.
Open Scope nat_scope.

Abbreviation text := (list ascii).

(** A string literal of the scripts, as text. *)
Definition str (s : string) : text := list_ascii_of_string s.

(** The double quote character. *)
Definition dq : ascii := "034"%char.
(** The backslash character. *)
Definition backslash : ascii := "092"%char.
(** The line feed character. *)
Definition nl : ascii := "010"%char.

(** ** Character classes of Python's [re] on [str] patterns *)

Module Char.

Definition code (c : ascii) : nat := nat_of_ascii c.

Definition between (lo hi n : nat) : bool := (lo <=? n) && (n <=? hi).

(** [str.isspace], which is also [\s]: TAB..CR, FS..US, SPACE, NEL, NBSP. *)
Definition is_space (c : ascii) : bool :=
  let n := code c in
  between 9 13 n || between 28 32 n || (n =? 133) || (n =? 160).

(** [str.isalnum] on the first 256 code points. *)
Definition is_alnum (c : ascii) : bool :=
  let n := code c in
  between 48 57 n || between 65 90 n || between 97 122 n
  || (n =? 170) || (n =? 178) || (n =? 179) || (n =? 181)
  || (n =? 185) || (n =? 186) || between 188 190 n
  || between 192 214 n || between 216 246 n || between 248 255 n.

(** [\w]: alphanumeric or underscore. *)
Definition is_word (c : ascii) : bool := is_alnum c || (code c =? 95).

End Char.

(** ** Regular expressions *)

(** An item of a bracketed class: a character, [\s] or [\w]. *)
Inductive citem : Type :=
| IChr (c : ascii)
| ISpace
| IWord.

Definition citem_has (i : citem) (c : ascii) : bool :=
  match i with
  | IChr d => Ascii.eqb c d
  | ISpace => Char.is_space c
  | IWord => Char.is_word c
  end.

Inductive regex : Type :=
| Eps
| Chr (c : ascii)
| Cls (negated : bool) (items : list citem)
| Seq (r1 r2 : regex)
| Alt (r1 r2 : regex)
| Star (greedy : bool) (r : regex)
| Group (n : nat) (r : regex)
| NLook (r : regex)
| WordB.

Definition cls_has (negated : bool) (items : list citem) (c : ascii) : bool :=
  xorb negated (existsb (fun i => citem_has i c) items).

(** Literal text, one [Chr] per character. *)
Fixpoint lit (s : text) : regex :=
  match s with
  | [] => Eps
  | c :: s' => Seq (Chr c) (lit s')
  end.

(** [r+] is [rr*]. *)
Definition Plus (r : regex) : regex := Seq r (Star true r).

(** [a|b|...]. *)
Fixpoint alts (rs : list regex) : regex :=
  match rs with
  | [] => Eps
  | [r] => r
  | r :: rs' => Alt r (alts rs')
  end.

Definition ws : regex := Cls false [ISpace].
Definition wordc : regex := Cls false [IWord].
Definition notc (c : ascii) : regex := Cls true [IChr c].

(** Concatenation of the parts of a pattern, left to right. *)
Fixpoint cat (rs : list regex) : regex :=
  match rs with
  | [] => Eps
  | [r] => r
  | r :: rs' => Seq r (cat rs')
  end.

(** ** The matcher *)

(** A position in the subject: the characters before it, nearest first,
    and the characters from it on. *)
Record cursor : Type := Cursor { before : list ascii; after : list ascii }.

Definition pos (cur : cursor) : nat := length (before cur).

(** The whole subject a cursor walks over. *)
Definition subject (cur : cursor) : text := rev (before cur) ++ after cur.

(** Capture groups closed so far, most recent first: number, start, end. *)
Abbreviation caps := (list (nat * (nat * nat))).

Definition word_at (o : option ascii) : bool :=
  match o with
  | Some c => Char.is_word c
  | None => false
  end.

(** [\b]: exactly one of the two neighbours is a word character. *)
Definition at_boundary (cur : cursor) : bool :=
  xorb (word_at (head (before cur))) (word_at (head (after cur))).

(** The loop of a repetition: [body] is the matcher of the repeated
    pattern, [n] bounds the number of rounds by the characters left; a
    round that consumes nothing is not repeated. Greedy tries one more
    round first, lazy tries to go on first. *)
Fixpoint star_loop (A : Type)
    (body : cursor -> caps -> (cursor -> caps -> option A) -> option A)
    (greedy : bool) (k : cursor -> caps -> option A)
    (n : nat) (cur : cursor) (cs : caps) {struct n} : option A :=
  match n with
  | 0 => k cur cs
  | S n' =>
      if greedy then
        match body cur cs (fun cur' cs' =>
                if length (after cur') <? length (after cur)
                then star_loop A body greedy k n' cur' cs' else None) with
        | Some x => Some x
        | None => k cur cs
        end
      else
        match k cur cs with
        | Some x => Some x
        | None =>
            body cur cs (fun cur' cs' =>
              if length (after cur') <? length (after cur)
              then star_loop A body greedy k n' cur' cs' else None)
        end
  end.

(** Backtracking match of [r] at [cur], continuing with [k]; [None] is
    failure of this branch. *)
Fixpoint rmatch (A : Type) (r : regex) (cur : cursor) (cs : caps)
    (k : cursor -> caps -> option A) {struct r} : option A :=
  match r with
  | Eps => k cur cs
  | Chr c =>
      match after cur with
      | x :: rest =>
          if Ascii.eqb x c then k (Cursor (x :: before cur) rest) cs else None
      | [] => None
      end
  | Cls negated items =>
      match after cur with
      | x :: rest =>
          if cls_has negated items x
          then k (Cursor (x :: before cur) rest) cs else None
      | [] => None
      end
  | Seq r1 r2 => rmatch A r1 cur cs (fun cur' cs' => rmatch A r2 cur' cs' k)
  | Alt r1 r2 =>
      match rmatch A r1 cur cs k with
      | Some x => Some x
      | None => rmatch A r2 cur cs k
      end
  | Star greedy r1 =>
      star_loop A (rmatch A r1) greedy k (length (after cur)) cur cs
  | Group n r1 =>
      rmatch A r1 cur cs (fun cur' cs' => k cur' ((n, (pos cur, pos cur')) :: cs'))
  | NLook r1 =>
      match rmatch unit r1 cur cs (fun _ _ => Some tt) with
      | Some _ => None
      | None => k cur cs
      end
  | WordB => if at_boundary cur then k cur cs else None
  end.

Arguments star_loop {A} body greedy k n cur cs.
Arguments rmatch {A} r cur cs k.

(** One attempt at [cur]. With [must_advance] an empty match is refused,
    as the engine does right after an empty match. *)
Definition match_at (r : regex) (must_advance : bool) (cur : cursor)
  : option (cursor * caps) :=
  rmatch r cur [] (fun cur' cs' =>
    if must_advance && (pos cur' =? pos cur) then None else Some (cur', cs')).

(** ** Match objects *)

Record rematch : Type := MkMatch {
  m_string : text;
  m_start : nat;
  m_end : nat;
  m_caps : caps
}.

(** [s[i:j]]. *)
Definition slice (s : text) (i j : nat) : text := take (j - i) (drop i s).

Definition group0 (m : rematch) : text := slice (m_string m) (m_start m) (m_end m).

Fixpoint caps_lookup (n : nat) (cs : caps) : option (nat * nat) :=
  match cs with
  | [] => None
  | (g, span) :: cs' => if g =? n then Some span else caps_lookup n cs'
  end.

(** [m.group(n)] for [n >= 1]; [None] when the group took no part. *)
Definition group (m : rematch) (n : nat) : option text :=
  match caps_lookup n (m_caps m) with
  | Some (i, j) => Some (slice (m_string m) i j)
  | None => None
  end.

Definition mk_match (start : cursor) (hit : cursor * caps) : rematch :=
  MkMatch (subject start) (pos start) (pos (fst hit)) (snd hit).

(** [re.search]: the first position, left to right, where a match exists. *)
Fixpoint search_from (r : regex) (l rest : list ascii) : option rematch :=
  match match_at r false (Cursor l rest) with
  | Some hit => Some (mk_match (Cursor l rest) hit)
  | None =>
      match rest with
      | [] => None
      | c :: rest' => search_from r (c :: l) rest'
      end
  end.

Definition re_search (r : regex) (s : text) : option rematch := search_from r [] s.

(** The scan shared by [re.sub], [re.subn], [re.findall]: successive
    non-overlapping matches, left to right. [skip] counts the characters
    still inside the previous match. After an empty match the same
    position is tried once more for a non-empty one. *)
Fixpoint scan (r : regex) (l rest : list ascii) (skip : nat) : list rematch :=
  match skip with
  | S k =>
      match rest with
      | [] => []
      | c :: rest' => scan r (c :: l) rest' k
      end
  | 0 =>
      let cur := Cursor l rest in
      match match_at r false cur with
      | None =>
          match rest with
          | [] => []
          | c :: rest' => scan r (c :: l) rest' 0
          end
      | Some hit =>
          mk_match cur hit ::
          match pos (fst hit) - pos cur with
          | S n =>
              match rest with
              | [] => []
              | c :: rest' => scan r (c :: l) rest' n
              end
          | 0 =>
              match match_at r true cur with
              | Some hit2 =>
                  mk_match cur hit2 ::
                  match rest with
                  | [] => []
                  | c :: rest' => scan r (c :: l) rest' (pos (fst hit2) - pos cur - 1)
                  end
              | None =>
                  match rest with
                  | [] => []
                  | c :: rest' => scan r (c :: l) rest' 0
                  end
              end
          end
      end
  end.

Definition finditer (r : regex) (s : text) : list rematch := scan r [] s 0.

(** [re.findall(p, s)] for a pattern without group: the text of each
    match. With groups the entries are the groups; their number is the
    same. *)
Definition re_findall (r : regex) (s : text) : list text := map group0 (finditer r s).

(** The pieces between the matches, each match replaced. [i] is the end of
    the previous match. *)
Fixpoint assemble (repl : rematch -> text) (s : text) (i : nat)
    (ms : list rematch) : text :=
  match ms with
  | [] => drop i s
  | m :: ms' => slice s i (m_start m) ++ repl m ++ assemble repl s (m_end m) ms'
  end.

(** [re.subn(pattern, template, s)] for a template without backslash. *)
Definition re_subn (r : regex) (template : text) (s : text) : text * nat :=
  let ms := finditer r s in
  (assemble (fun _ => template) s 0 ms, length ms).

Definition re_sub (r : regex) (template : text) (s : text) : text :=
  fst (re_subn r template s).

(** ** The [str] methods the scripts call *)

(** [s.startswith(p)]. *)
Fixpoint starts_with (p s : text) : bool :=
  match p, s with
  | [], _ => true
  | _ :: _, [] => false
  | c :: p', d :: s' => Ascii.eqb c d && starts_with p' s'
  end.

(** [sub in s]. *)
Fixpoint str_in (sub s : text) : bool :=
  starts_with sub s ||
  match s with
  | [] => false
  | _ :: s' => str_in sub s'
  end.

(** [s.replace(old, new, 1)]: the first occurrence of [old], from the left. *)
Fixpoint replace_first (old new s : text) : text :=
  if starts_with old s then new ++ drop (length old) s
  else match s with
       | [] => []
       | c :: s' => c :: replace_first old new s'
       end.

(** [s.lstrip()], [s.rstrip()], [s.strip()]. *)
Fixpoint lstrip (s : text) : text :=
  match s with
  | c :: s' => if Char.is_space c then lstrip s' else s
  | [] => []
  end.

Definition rstrip (s : text) : text := rev (lstrip (rev s)).

Definition strip (s : text) : text := rstrip (lstrip s).

(** [s.endswith(p)]. *)
Definition ends_with (p s : text) : bool := starts_with (rev p) (rev s).

(** [f.readlines()] on text already read with universal newlines: each line
    keeps its line feed. *)
Fixpoint readlines (s : text) : list text :=
  match s with
  | [] => []
  | c :: s' =>
      if Ascii.eqb c nl then [c] :: readlines s'
      else match readlines s' with
           | [] => [[c]]
           | l :: ls => (c :: l) :: ls
           end
  end.

(** ** Exceptions and files *)

Inductive exn : Type :=
| FileNotFoundError
| PermissionError
| UnicodeDecodeError
| OSError
| TypeError
| AttributeError.

Inductive result (A : Type) : Type :=
| Ok (a : A)
| Raise (e : exn).

Arguments Ok {A} a.
Arguments Raise {A} e.

#[export] Instance result_ret : MRet result := fun A a => Ok a.
#[export] Instance result_bind : MBind result := fun A B f m =>
  match m with
  | Ok a => f a
  | Raise e => Raise e
  end.

(** A file on disk: its decoded text, or [None] when its bytes are not
    valid UTF-8; whether it may be read and written; whether the path can
    be examined at all, which it cannot when a directory on the way may
    not be searched ([stat] and [open] then raise [PermissionError],
    whether or not a file is there); and how many characters the device
    takes when the file is written, [None] for no limit. *)
Record file : Type := File {
  f_text : option text;
  f_readable : bool;
  f_writable : bool;
  f_reachable : bool;
  f_room : option nat
}.

Abbreviation fsys := (gmap string file).

(** [with open(p, 'r', encoding='utf-8') as f: f.read()]. *)
Definition read_text (fs : fsys) (p : string) : result text :=
  match fs !! p with
  | None => Raise FileNotFoundError
  | Some f =>
      if f_reachable f && f_readable f then
        match f_text f with
        | Some t => Ok t
        | None => Raise UnicodeDecodeError
        end
      else Raise PermissionError
  end.

(** What the device keeps of a text written to the file. *)
Definition kept (f : file) (t : text) : text :=
  match f_room f with
  | Some n => take n t
  | None => t
  end.

(** [with open(p, 'w', encoding='utf-8') as f: f.write(t)]: the files
    afterwards, and the exception when the block ends with one. Opening
    creates the file or empties it; when that is not allowed it raises
    [PermissionError] and the files are as they were. After that the text
    goes to the device: when the device takes only part of it, that part
    is what the file is left with, and the block ends with [OSError]. *)
Definition write_text (fs : fsys) (p : string) (t : text) : fsys * option exn :=
  match fs !! p with
  | None => (<[p := File (Some t) true true true None]> fs, None)
  | Some f =>
      if f_reachable f && f_writable f then
        (<[p := File (Some (kept f t)) (f_readable f) true true (f_room f)]> fs,
         if length (kept f t) <? length t then Some OSError else None)
      else (fs, Some PermissionError)
  end.

(** [Path(p).exists()]: False for a path with no file, True for a file,
    and [PermissionError] when the path cannot be examined: [exists]
    takes the failure of [stat] for absence only when the error says that
    nothing is there, and raises it again otherwise. *)
Definition path_exists (fs : fsys) (p : string) : result bool :=
  match fs !! p with
  | None => Ok false
  | Some f => if f_reachable f then Ok true else Raise PermissionError
  end.

(** The pieces between the matches, each match replaced by what the
    callable returns; its exception ends the call. *)
Fixpoint assemble_with (repl : rematch -> result text) (s : text) (i : nat)
    (ms : list rematch) : result text :=
  match ms with
  | [] => mret (drop i s)
  | m :: ms' =>
      item ← repl m;
      rest ← assemble_with repl s (m_end m) ms';
      mret (slice s i (m_start m) ++ item ++ rest)
  end.

(** [re.sub(pattern, callable, s)]. *)
Definition re_sub_with (r : regex) (repl : rematch -> result text) (s : text)
  : result text :=
  assemble_with repl s 0 (finditer r s).

Definition text_eqb (a b : text) : bool := bool_decide (a = b).

(** [\bL\b] *)
Definition word_lit (l : string) : regex := cat [WordB; lit (str l); WordB].

(** The test-file filter of the [main] loops. *)
Definition is_test_path (p : string) : bool :=
  str_in (str "__tests__") (str p) || str_in (str ".test.") (str p).

(** ** docs/Utilities/fix_theme_line_by_line.py *)

Module FixThemeLineByLine.

Definition color_names : list string :=
  ["slate"; "zinc"; "neutral"; "stone"; "red"; "orange"; "amber"; "yellow";
   "lime"; "green"; "emerald"; "teal"; "cyan"; "sky"; "blue"; "indigo";
   "violet"; "purple"; "fuchsia"; "pink"; "rose"].

(** [\bbg-(slate|zinc|...)-N\b] *)
Definition colored (shade : string) : regex :=
  cat [WordB; lit (str "bg-");
       Group 1 (alts (map (fun c => lit (str c)) color_names));
       lit (str shade); WordB].

Definition THEME_PAIRS : list (regex * text) :=
  [ (word_lit "bg-white", str "dark:bg-surface-primary");
    (word_lit "bg-gray-50", str "dark:bg-surface-secondary");
    (word_lit "bg-gray-100", str "dark:bg-surface-secondary");
    (word_lit "bg-gray-200", str "dark:bg-surface-border");
    (word_lit "bg-gray-300", str "dark:bg-surface-border");
    (word_lit "bg-gray-400", str "dark:bg-surface-secondary");
    (word_lit "bg-gray-500", str "dark:bg-surface-secondary");
    (word_lit "bg-gray-600", str "dark:bg-surface-border");
    (word_lit "border-gray-200", str "dark:border-surface-border");
    (word_lit "border-gray-300", str "dark:border-surface-border");
    (word_lit "border-gray-400", str "dark:border-surface-border");
    (word_lit "text-gray-900", str "dark:text-text-primary");
    (word_lit "text-gray-800", str "dark:text-text-primary");
    (word_lit "text-gray-700", str "dark:text-text-primary");
    (word_lit "text-gray-600", str "dark:text-text-secondary");
    (word_lit "text-gray-500", str "dark:text-text-secondary");
    (word_lit "text-gray-400", str "dark:text-text-tertiary");
    (word_lit "text-gray-300", str "dark:text-text-tertiary");
    (word_lit "divide-gray-100", str "dark:divide-surface-border");
    (word_lit "divide-gray-200", str "dark:divide-surface-border");
    (word_lit "hover:bg-gray-50", str "dark:hover:bg-surface-secondary");
    (word_lit "hover:bg-gray-100", str "dark:hover:bg-surface-secondary");
    (word_lit "hover:bg-white", str "dark:hover:bg-surface-primary");
    (word_lit "hover:text-gray-900", str "dark:hover:text-text-primary");
    (word_lit "hover:text-gray-200", str "dark:hover:text-text-tertiary");
    (word_lit "focus:bg-gray-50", str "dark:focus:bg-surface-secondary");
    (word_lit "focus:border-gray-300", str "dark:focus:border-surface-border");
    (word_lit "ring-gray-200", str "dark:ring-surface-border");
    (word_lit "ring-gray-300", str "dark:ring-surface-border");
    (word_lit "placeholder:text-gray-600", str "dark:placeholder:text-text-secondary");
    (word_lit "placeholder:text-gray-500", str "dark:placeholder:text-text-secondary");
    (word_lit "placeholder:text-gray-400", str "dark:placeholder:text-text-tertiary");
    (word_lit "placeholder-gray-500", str "dark:placeholder-text-text-secondary");
    (word_lit "placeholder-gray-400", str "dark:placeholder-text-text-tertiary");
    (colored "-50", str "dark:bg-surface-primary");
    (colored "-100", str "dark:bg-surface-secondary") ].

(** The body of the loop of [fix_line] for one pair: [Some] of the new
    line when the [replace] statement runs, [None] when the line is kept. *)
Definition fix_step (entry : regex * text) (line : text) : option text :=
  let '(light_pattern, dark_class) := entry in
  match re_search light_pattern line with
  | Some _ =>
      if negb (str_in dark_class line) then
        match re_search light_pattern line with
        | Some m =>
            let light_class := group0 m in
            Some (replace_first light_class
                    (light_class ++ str " " ++ dark_class) line)
        | None => None
        end
      else None
  | None => None
  end.

(** The loop of [fix_line] over a table, from a given state. *)
Fixpoint fix_loop (pairs : list (regex * text)) (line : text)
    (changes_made : bool) : text * bool :=
  match pairs with
  | [] => (line, changes_made)
  | entry :: rest =>
      match fix_step entry line with
      | Some line' => fix_loop rest line' true
      | None => fix_loop rest line changes_made
      end
  end.

Definition fix_line (line : text) : text * bool :=
  fix_loop THEME_PAIRS line false.

(** How many times the [replace] statement runs while [fix_loop] works
    on a line. *)
Fixpoint replaced (pairs : list (regex * text)) (line : text) : nat :=
  match pairs with
  | [] => 0
  | entry :: rest =>
      match fix_step entry line with
      | Some line' => S (replaced rest line')
      | None => replaced rest line
      end
  end.

(** The loop of [fix_file] over the lines, numbered from [i]. *)
Fixpoint fix_lines (i : nat) (lines : list text) : list text * list nat :=
  match lines with
  | [] => ([], [])
  | line :: rest =>
      let '(new_line, changed) := fix_line line in
      let '(new_lines, line_changes) := fix_lines (S i) rest in
      (new_line :: new_lines,
       if changed then i :: line_changes else line_changes)
  end.

(** [fix_file]: the pair it returns, and the files afterwards. The
    handler returns (0, []) with the files as the statement that raised
    left them. *)
Definition fix_file (fs : fsys) (filepath : string) : (nat * list nat) * fsys :=
  match read_text fs filepath with
  | Ok content =>
      let lines := readlines content in
      let '(new_lines, line_changes) := fix_lines 1 lines in
      match line_changes with
      | _ :: _ =>
          match write_text fs filepath (concat new_lines) with
          | (fs', None) => ((length line_changes, line_changes), fs')
          | (fs', Some _) => ((0, []), fs')
          end
      | [] => ((0, []), fs)
      end
  | Raise _ => ((0, []), fs)
  end.

(** The loop of [main] over the files found: files updated, lines
    updated, and the files afterwards. *)
Fixpoint main_loop (jsx_files : list string) (fs : fsys) : (nat * nat) * fsys :=
  match jsx_files with
  | [] => ((0, 0), fs)
  | jsx_file :: rest =>
      if is_test_path jsx_file then main_loop rest fs
      else
        let '((lines_changed, _), fs1) := fix_file fs jsx_file in
        let '((files, lines), fs2) := main_loop rest fs1 in
        if 0 <? lines_changed
        then ((S files, lines_changed + lines), fs2)
        else ((files, lines), fs2)
  end.

End FixThemeLineByLine.

(** ** The skeleton shared by the [update_file] functions

    [update_dark_mode.py], [fix_all_dark_mode.py] and
    [fix_colored_backgrounds.py] wrap their substitution loop in the same
    statements: read, transform, write only when the text changed, return
    the count, and return 0 from the [except Exception] handler. The
    handler covers the three steps, so [transform] may raise too; it
    returns with the files as the statement that raised left them. *)
Definition rewrite_file (transform : text -> result (text * nat)) (fs : fsys)
    (file_path : string) : nat * fsys :=
  match read_text fs file_path with
  | Ok content =>
      let original_content := content in
      match transform content with
      | Ok (content, changes_made) =>
          if negb (text_eqb content original_content) then
            match write_text fs file_path content with
            | (fs', None) => (changes_made, fs')
            | (fs', Some _) => (0, fs')
            end
          else (0, fs)
      | Raise _ => (0, fs)
      end
  | Raise _ => (0, fs)
  end.

(** ** docs/Utilities/update_dark_mode.py *)

Module UpdateDarkMode.

(** [\bL\b(?! dark:)] *)
Definition guarded (l : string) : regex :=
  cat [WordB; lit (str l); WordB; NLook (lit (str " dark:"))].

(** [\bL], for the bracketed colours; [l] is the text the escaped
    pattern stands for. *)
Definition hardcoded (l : string) : regex := cat [WordB; lit (str l)].

Definition REPLACEMENTS : list (regex * text) :=
  [ (guarded "bg-white", str "bg-white dark:bg-surface-primary");
    (guarded "bg-gray-50", str "bg-gray-50 dark:bg-surface-secondary");
    (guarded "bg-gray-100", str "bg-gray-100 dark:bg-surface-secondary");
    (guarded "bg-gray-200", str "bg-gray-200 dark:bg-surface-border");
    (guarded "text-gray-900", str "text-gray-900 dark:text-text-primary");
    (guarded "text-gray-800", str "text-gray-800 dark:text-text-primary");
    (guarded "text-gray-700", str "text-gray-700 dark:text-text-primary");
    (guarded "text-gray-600", str "text-gray-600 dark:text-text-secondary");
    (guarded "text-gray-500", str "text-gray-500 dark:text-text-secondary");
    (guarded "text-gray-400", str "text-gray-400 dark:text-text-tertiary");
    (guarded "border-gray-200", str "border-gray-200 dark:border-surface-border");
    (guarded "border-gray-300", str "border-gray-300 dark:border-surface-border");
    (hardcoded "bg-[#F5F6FA]", str "bg-background-primary");
    (hardcoded "bg-[#FFFFFF]", str "bg-white dark:bg-surface-primary");
    (hardcoded "text-[#263238]", str "text-gray-900 dark:text-text-primary");
    (hardcoded "text-[#64748B]", str "text-gray-600 dark:text-text-secondary");
    (hardcoded "border-[#E0E0E0]", str "border-gray-200 dark:border-surface-border");
    (hardcoded "border-[#F5F6FA]", str "border-gray-200 dark:border-surface-border") ].

Definition PRIORITY_FILES : list string :=
  [ "features/schedule/routes/Schedule.jsx";
    "features/bookings/routes/Bookings.jsx";
    "features/bookings/routes/BookingsOverview.jsx";
    "features/calendar/routes/CalendarOverview.jsx";
    "features/operations/routes/Operations.jsx";
    "features/owners/routes/Owners.jsx";
    "features/owners/routes/OwnerDetail.jsx";
    "features/pets/routes/Pets.jsx";
    "features/pets/routes/PetDetail.jsx";
    "features/facilities/routes/Facilities.jsx";
    "features/kennels/routes/Kennels.jsx";
    "features/packages/routes/Packages.jsx";
    "features/customers/routes/CustomerDetail.jsx";
    "features/services/routes/Services.jsx";
    "features/staff/routes/Staff.jsx";
    "features/properties/routes/Properties.jsx";
    "features/invoices/routes/Invoices.jsx";
    "features/payments/routes/Payments.jsx";
    "features/reports/routes/Reports.jsx";
    "features/tasks/routes/Tasks.jsx";
    "features/admin/routes/Admin.jsx" ].

(** The loop "Apply all replacements" over a table, from a given state. *)
Fixpoint apply_all (table : list (regex * text)) (content : text)
    (replacement_count : nat) : text * nat :=
  match table with
  | [] => (content, replacement_count)
  | (pattern, replacement) :: rest =>
      let new_content := re_sub pattern replacement content in
      if negb (text_eqb new_content content) then
        let matches := length (re_findall pattern content) in
        apply_all rest new_content (replacement_count + matches)
      else apply_all rest content replacement_count
  end.

Definition update_content (content : text) : text * nat :=
  apply_all REPLACEMENTS content 0.

Definition update_file : fsys -> string -> nat * fsys :=
  rewrite_file (fun content => mret (update_content content)).

(** [base_path / file_rel_path] *)
Definition base_path (rel : string) : string :=
  ("D:/barkbase-react/frontend/src/" ++ rel)%string.

(** The loop of [main]: the [results] dictionary and the total, or the
    exception that ends [main], and the files afterwards. The test
    [file_path.exists()] stands outside the [try] of [update_file]:
    nothing catches what it raises. *)
Fixpoint main_loop (files : list string) (results : gmap string nat)
    (total_replacements : nat) (fs : fsys)
  : result (gmap string nat * nat) * fsys :=
  match files with
  | [] => (Ok (results, total_replacements), fs)
  | file_rel_path :: rest =>
      let file_path := base_path file_rel_path in
      match path_exists fs file_path with
      | Ok true =>
          let '(count, fs') := update_file fs file_path in
          if 0 <? count
          then main_loop rest (<[file_rel_path := count]> results)
                 (total_replacements + count) fs'
          else main_loop rest results total_replacements fs'
      | Ok false => main_loop rest results total_replacements fs
      | Raise e => (Raise e, fs)
      end
  end.

Definition main (fs : fsys) : result (gmap string nat * nat) * fsys :=
  main_loop PRIORITY_FILES ∅ 0 fs.

End UpdateDarkMode.

(** The loop over a table of [fix_all_dark_mode.py] and
    [fix_colored_backgrounds.py]: [re.subn], the text and the count kept
    when the count is positive. *)
Fixpoint subn_all (table : list (regex * text)) (content : text)
    (changes_made : nat) : text * nat :=
  match table with
  | [] => (content, changes_made)
  | (pattern, replacement) :: rest =>
      let '(new_content, count) := re_subn pattern replacement content in
      if 0 <? count
      then subn_all rest new_content (changes_made + count)
      else subn_all rest content changes_made
  end.

(** [\bL\b(?!\s+dark:)] *)
Definition guarded_ws (l : string) : regex :=
  cat [WordB; lit (str l); WordB; NLook (cat [Plus ws; lit (str "dark:")])].

(** ** docs/Utilities/fix_all_dark_mode.py *)

Module FixAllDarkMode.

Definition replacements : list (regex * text) :=
  [ (guarded_ws "bg-white", str "bg-white dark:bg-surface-primary");
    (guarded_ws "bg-gray-50", str "bg-gray-50 dark:bg-surface-secondary");
    (guarded_ws "bg-gray-100", str "bg-gray-100 dark:bg-surface-secondary");
    (guarded_ws "bg-gray-200", str "bg-gray-200 dark:bg-surface-border");
    (guarded_ws "text-gray-900", str "text-gray-900 dark:text-text-primary");
    (guarded_ws "text-gray-800", str "text-gray-800 dark:text-text-primary");
    (guarded_ws "text-gray-700", str "text-gray-700 dark:text-text-primary");
    (guarded_ws "text-gray-600", str "text-gray-600 dark:text-text-secondary");
    (guarded_ws "text-gray-500", str "text-gray-500 dark:text-text-secondary");
    (guarded_ws "text-gray-400", str "text-gray-400 dark:text-text-tertiary");
    (guarded_ws "border-gray-200", str "border-gray-200 dark:border-surface-border");
    (guarded_ws "border-gray-300", str "border-gray-300 dark:border-surface-border") ].

Definition update_content (content : text) : text * nat :=
  subn_all replacements content 0.

Definition update_file : fsys -> string -> nat * fsys :=
  rewrite_file (fun content => mret (update_content content)).

(** The loop of [main] over the files found: files updated, total
    changes, and the files afterwards. *)
Fixpoint main_loop (jsx_files : list string) (fs : fsys) : (nat * nat) * fsys :=
  match jsx_files with
  | [] => ((0, 0), fs)
  | jsx_file :: rest =>
      if is_test_path jsx_file then main_loop rest fs
      else
        let '(changes, fs1) := update_file fs jsx_file in
        let '((files, total), fs2) := main_loop rest fs1 in
        if 0 <? changes
        then ((S files, changes + total), fs2)
        else ((files, total), fs2)
  end.

End FixAllDarkMode.

(** ** docs/Utilities/fix_colored_backgrounds.py *)

Module FixColoredBackgrounds.

Definition colors : list string :=
  ["slate"; "gray"; "zinc"; "neutral"; "stone";
   "red"; "orange"; "amber"; "yellow"; "lime"; "green"; "emerald"; "teal";
   "cyan"; "sky"; "blue"; "indigo"; "violet"; "purple"; "fuchsia"; "pink";
   "rose"].

Definition semantic_colors : list string :=
  ["primary"; "secondary"; "success"; "warning"; "error"; "info"].

(** One pass of a [for color in ...] loop: the pattern
    [\bbg-{color}-N\b(?!\s+dark:)] and its replacement. *)
Definition shade_rules (names : list string) (shade dark : string)
  : list (regex * text) :=
  map (fun color =>
         let light := ("bg-" ++ color ++ shade)%string in
         (guarded_ws light, str (light ++ " " ++ dark)%string))
      names.

Definition update_content (content : text) : text * nat :=
  let '(content, changes_made) :=
    subn_all (shade_rules (colors ++ semantic_colors) "-50"
                "dark:bg-surface-primary") content 0 in
  let '(content, changes_made) :=
    subn_all (shade_rules (colors ++ semantic_colors) "-100"
                "dark:bg-surface-secondary") content changes_made in
  subn_all (shade_rules colors "-200" "dark:bg-surface-border")
    content changes_made.

Definition update_file : fsys -> string -> nat * fsys :=
  rewrite_file (fun content => mret (update_content content)).

(** The loop of [main] over the files found: files updated, total
    changes, and the files afterwards. *)
Fixpoint main_loop (jsx_files : list string) (fs : fsys) : (nat * nat) * fsys :=
  match jsx_files with
  | [] => ((0, 0), fs)
  | jsx_file :: rest =>
      if is_test_path jsx_file then main_loop rest fs
      else
        let '(changes, fs1) := update_file fs jsx_file in
        let '((files, total), fs2) := main_loop rest fs1 in
        if 0 <? changes
        then ((S files, changes + total), fs2)
        else ((files, total), fs2)
  end.

End FixColoredBackgrounds.

(** ** docs/Utilities/fix_multiline_inputs.py *)

Module FixMultilineInputs.

(** Three groups, with Q for the double quote:
    [<{tag}\b[^>]*?className=Q], then [(?:(?!bg-)[^Q])*border[^Q]*?],
    then [Q]. The flag DOTALL changes nothing: the pattern has no dot. *)
Definition pattern (tag : string) : regex :=
  cat [ Group 1 (cat [lit (str ("<" ++ tag)%string); WordB;
                      Star false (notc ">"%char);
                      lit (str "className="); Chr dq]);
        Group 2 (cat [Star true (Seq (NLook (lit (str "bg-"))) (notc dq));
                      lit (str "border");
                      Star false (notc dq)]);
        Group 3 (Chr dq) ].

(** A group that took no part is [None] in Python; using it as a string
    raises [TypeError]. *)
Definition add_bg (m : rematch) : result text :=
  let opening := group m 1 in
  let classes := group m 2 in
  let closing := group m 3 in
  match classes with
  | None => Raise TypeError
  | Some classes =>
      if str_in (str "bg-") classes then mret (group0 m)
      else
        match opening, closing with
        | Some opening, Some closing =>
            mret (opening ++ str "bg-white dark:bg-surface-primary "
                    ++ classes ++ closing)
        | _, _ => Raise TypeError
        end
  end.

(** The loop over the tags, from a given text. *)
Fixpoint fix_tags (tags : list string) (content : text) : result text :=
  match tags with
  | [] => mret content
  | tag :: rest =>
      content ← re_sub_with (pattern tag) add_bg content;
      fix_tags rest content
  end.

Definition fix_file_content (content : text) : result text :=
  fix_tags ["input"; "select"; "textarea"] content.

Definition fix_file (fs : fsys) (filepath : string) : bool * fsys :=
  match read_text fs filepath with
  | Ok content =>
      let original := content in
      match fix_file_content content with
      | Ok content =>
          if negb (text_eqb content original) then
            match write_text fs filepath content with
            | (fs', None) => (true, fs')
            | (fs', Some _) => (false, fs')
            end
          else (false, fs)
      | Raise _ => (false, fs)
      end
  | Raise _ => (false, fs)
  end.

(** The loop of [main] over the files found: [total_files], and the files
    afterwards. *)
Fixpoint main_loop (jsx_files : list string) (fs : fsys) : nat * fsys :=
  match jsx_files with
  | [] => (0, fs)
  | jsx_file :: rest =>
      if is_test_path jsx_file then main_loop rest fs
      else
        let '(fixed, fs1) := fix_file fs jsx_file in
        let '(total_files, fs2) := main_loop rest fs1 in
        if fixed then (S total_files, fs2) else (total_files, fs2)
  end.

End FixMultilineInputs.

(** ** fix-authorizers.py *)

Module FixAuthorizers.

(** Three groups: [httpApi\.addRoutes\({[^}]+integration:\s*\w+], then
    [[\s,]*], then the closing brace. *)
Definition route_pattern : regex :=
  cat [ Group 1 (cat [lit (str "httpApi.addRoutes({"); Plus (notc "}"%char);
                      lit (str "integration:"); Star true ws; Plus wordc]);
        Group 2 (Star true (Cls false [ISpace; IChr ","%char]));
        Group 3 (Chr "}"%char) ].

Definition public_paths : list string :=
  ["/auth/login"; "/auth/signup"; "/auth/register"; "/auth/refresh";
   "/auth/logout"].

Definition should_have_authorizer (route_text : text) : bool :=
  if str_in (str "HttpMethod.OPTIONS") route_text
     || str_in (str "OPTIONS") route_text then false
  else if existsb (fun path => str_in (str path) route_text) public_paths
  then false
  else if starts_with (str "//") (strip route_text) then false
  else true.

(** What an f-string prints for a group: its text, or [None]. *)
Definition fmt (o : option text) : text :=
  match o with
  | Some t => t
  | None => str "None"
  end.

Definition add_authorizer (m : rematch) : result text :=
  let full_match := group0 m in
  if str_in (str "authorizer:") full_match then mret full_match
  else if negb (should_have_authorizer full_match) then mret full_match
  else
    let prefix := group m 1 in
    let spacing := group m 2 in
    let suffix := group m 3 in
    match prefix with
    | None => Raise AttributeError
    | Some prefix =>
        let prefix :=
          if negb (ends_with (str ",") (rstrip prefix))
          then rstrip prefix ++ str ","
          else prefix in
        mret (prefix ++ str " authorizer: httpAuthorizer"
                ++ fmt spacing ++ fmt suffix)
    end.

(** "Apply the fix". *)
Definition apply_fix (content : text) : result text :=
  re_sub_with route_pattern add_authorizer content.

(** The file that the script reads and writes. *)
Definition stack_file : string := "D:/barkbase-react/aws/cdk/lib/cdk-stack.ts".

(** [authorizer:\s*httpAuthorizer] *)
Definition authorizer_pattern : regex :=
  cat [lit (str "authorizer:"); Star true ws; lit (str "httpAuthorizer")].

(** The statements of the script, top to bottom: read the stack file,
    substitute, write the text back whether it changed or not, and count
    the entries. No handler is around them: an exception ends the script.
    The result is the number printed, or the exception, and the files
    afterwards. *)
Definition script (fs : fsys) : result nat * fsys :=
  match read_text fs stack_file with
  | Ok content =>
      match apply_fix content with
      | Ok content =>
          match write_text fs stack_file content with
          | (fs', None) =>
              let matches := re_findall authorizer_pattern content in
              (Ok (length matches), fs')
          | (fs', Some e) => (Raise e, fs')
          end
      | Raise e => (Raise e, fs)
      end
  | Raise e => (Raise e, fs)
  end.

End FixAuthorizers.

(** ** What a successful match has done

    [steps r c cs c' cs']: some branch of the matcher takes [r] from
    cursor [c] with captures [cs] to cursor [c'] with captures [cs']. The
    matcher only ever continues from such a pair. *)

Inductive steps : regex -> cursor -> caps -> cursor -> caps -> Prop :=
| steps_eps cur cs : steps Eps cur cs cur cs
| steps_chr c l rest cs :
    steps (Chr c) (Cursor l (c :: rest)) cs (Cursor (c :: l) rest) cs
| steps_cls negated items x l rest cs :
    cls_has negated items x = true ->
    steps (Cls negated items) (Cursor l (x :: rest)) cs (Cursor (x :: l) rest) cs
| steps_seq r1 r2 c0 s0 c1 s1 c2 s2 :
    steps r1 c0 s0 c1 s1 -> steps r2 c1 s1 c2 s2 ->
    steps (Seq r1 r2) c0 s0 c2 s2
| steps_alt_l r1 r2 c0 s0 c1 s1 :
    steps r1 c0 s0 c1 s1 -> steps (Alt r1 r2) c0 s0 c1 s1
| steps_alt_r r1 r2 c0 s0 c1 s1 :
    steps r2 c0 s0 c1 s1 -> steps (Alt r1 r2) c0 s0 c1 s1
| steps_star_done g r cur cs : steps (Star g r) cur cs cur cs
| steps_star_more g r c0 s0 c1 s1 c2 s2 :
    steps r c0 s0 c1 s1 ->
    length (after c1) < length (after c0) ->
    steps (Star g r) c1 s1 c2 s2 ->
    steps (Star g r) c0 s0 c2 s2
| steps_group n r c0 s0 c1 s1 :
    steps r c0 s0 c1 s1 ->
    steps (Group n r) c0 s0 c1 ((n, (pos c0, pos c1)) :: s1)
| steps_nlook r cur cs :
    rmatch r cur cs (fun _ _ => Some tt) = None ->
    steps (NLook r) cur cs cur cs
| steps_wordb cur cs :
    at_boundary cur = true -> steps WordB cur cs cur cs.

(** [c'] is [c] moved right over [w]. *)
Definition moved (c : cursor) (w : text) (c' : cursor) : Prop :=
  after c = w ++ after c' /\ before c' = rev w ++ before c.

(** Can the pattern match the empty string? Lookahead and [\b] consume
    nothing. *)
Fixpoint nullable (r : regex) : bool :=
  match r with
  | Eps | NLook _ | WordB | Star _ _ => true
  | Chr _ | Cls _ _ => false
  | Seq r1 r2 => nullable r1 && nullable r2
  | Alt r1 r2 => nullable r1 || nullable r2
  | Group _ r1 => nullable r1
  end.

(** A lower bound on how often [c] occurs in any match. *)
Fixpoint min_count (c : ascii) (r : regex) : nat :=
  match r with
  | Chr d => if Ascii.eqb d c then 1 else 0
  | Seq r1 r2 => min_count c r1 + min_count c r2
  | Alt r1 r2 => Nat.min (min_count c r1) (min_count c r2)
  | Group _ r1 => min_count c r1
  | Eps | Cls _ _ | Star _ _ | NLook _ | WordB => 0
  end.

(** An upper bound on the length of any match, when there is one. *)
Fixpoint max_len (r : regex) : option nat :=
  match r with
  | Eps | NLook _ | WordB => Some 0
  | Chr _ | Cls _ _ => Some 1
  | Seq r1 r2 =>
      match max_len r1, max_len r2 with
      | Some a, Some b => Some (a + b)
      | _, _ => None
      end
  | Alt r1 r2 =>
      match max_len r1, max_len r2 with
      | Some a, Some b => Some (Nat.max a b)
      | _, _ => None
      end
  | Star _ _ => None
  | Group _ r1 => max_len r1
  end.

(** Does every match close group [n]? *)
Fixpoint closes (n : nat) (r : regex) : bool :=
  match r with
  | Group m r1 => (m =? n) || closes n r1
  | Seq r1 r2 => closes n r1 || closes n r2
  | Alt r1 r2 => closes n r1 && closes n r2
  | Eps | Chr _ | Cls _ _ | Star _ _ | NLook _ | WordB => false
  end.

(** How many times [sub] occurs in [s], overlaps included. *)
Fixpoint count_sub (sub s : text) : nat :=
  (if starts_with sub s then 1 else 0) +
  match s with
  | [] => 0
  | _ :: s' => count_sub sub s'
  end.

(** The words a pattern can consume, whatever stands around them. *)
Inductive accepts : regex -> text -> Prop :=
| acc_eps : accepts Eps []
| acc_chr c : accepts (Chr c) [c]
| acc_cls negated items x :
    cls_has negated items x = true -> accepts (Cls negated items) [x]
| acc_seq r1 r2 w1 w2 :
    accepts r1 w1 -> accepts r2 w2 -> accepts (Seq r1 r2) (w1 ++ w2)
| acc_alt_l r1 r2 w : accepts r1 w -> accepts (Alt r1 r2) w
| acc_alt_r r1 r2 w : accepts r2 w -> accepts (Alt r1 r2) w
| acc_star_nil g r : accepts (Star g r) []
| acc_star_app g r w1 w2 :
    accepts r w1 -> accepts (Star g r) w2 -> accepts (Star g r) (w1 ++ w2)
| acc_group n r w : accepts r w -> accepts (Group n r) w
| acc_nlook r : accepts (NLook r) []
| acc_wordb : accepts WordB [].

(** No capture group inside. *)
Fixpoint groupless (r : regex) : bool :=
  match r with
  | Group _ _ => false
  | Seq r1 r2 | Alt r1 r2 => groupless r1 && groupless r2
  | Star _ r1 => groupless r1
  | Eps | Chr _ | Cls _ _ | NLook _ | WordB => true
  end.

(** [m] is a match of [r] in the subject [s]. *)
Definition is_match (r : regex) (s : text) (m : rematch) : Prop :=
  m_string m = s /\
  exists c c', subject c = s /\ pos c = m_start m /\ pos c' = m_end m /\
               steps r c [] c' (m_caps m).

(** Successive spans from position [i] on, inside a subject of length [n]. *)
Fixpoint spans_ok (i : nat) (ms : list rematch) (n : nat) : Prop :=
  match ms with
  | [] => i <= n
  | m :: ms' =>
      i <= m_start m /\ m_start m <= m_end m /\ m_end m <= n /\
      spans_ok (m_end m) ms' n
  end.

(** ** Definitions used to state the properties *)

(** The attribute [class=QvQ], with Q for the double quote. *)
Definition class_attr (v : string) : text :=
  str "class=" ++ [dq] ++ str v ++ [dq].

(** The rules that the [re.sub] and [re.subn] loops of
    [update_dark_mode.py], [fix_all_dark_mode.py] and
    [fix_colored_backgrounds.py] apply. *)
Definition substitution_tables : list (regex * text) :=
  UpdateDarkMode.REPLACEMENTS ++ FixAllDarkMode.replacements
  ++ FixColoredBackgrounds.shade_rules
       (FixColoredBackgrounds.colors ++ FixColoredBackgrounds.semantic_colors)
       "-50" "dark:bg-surface-primary"
  ++ FixColoredBackgrounds.shade_rules
       (FixColoredBackgrounds.colors ++ FixColoredBackgrounds.semantic_colors)
       "-100" "dark:bg-surface-secondary"
  ++ FixColoredBackgrounds.shade_rules FixColoredBackgrounds.colors
       "-200" "dark:bg-surface-border".

(** The matchers of the six scripts: the patterns of [THEME_PAIRS], of
    the substitution tables, of [fix_multiline_inputs.py] and of
    [fix-authorizers.py]. *)
Definition shipped_patterns : list regex :=
  map fst FixThemeLineByLine.THEME_PAIRS ++ map fst substitution_tables
  ++ map FixMultilineInputs.pattern ["input"; "select"; "textarea"]
  ++ [FixAuthorizers.route_pattern].

(** What [fix_file] reports for [p] when run on the files [fs]. *)
Definition lines_changed_of (fs : fsys) (p : string) : nat :=
  fst (fst (FixThemeLineByLine.fix_file fs p)).

(** The text after the rules of a table have been applied in turn. *)
Fixpoint rewritten (table : list (regex * text)) (content : text) : text :=
  match table with
  | [] => content
  | (pattern, replacement) :: rest => rewritten rest (re_sub pattern replacement content)
  end.

(** How many matches the rules of a table replace: for each rule in turn,
    the matches it finds in the text as the earlier rules left it. *)
Fixpoint matches_replaced (table : list (regex * text)) (content : text) : nat :=
  match table with
  | [] => 0
  | (pattern, replacement) :: rest =>
      length (finditer pattern content)
      + matches_replaced rest (re_sub pattern replacement content)
  end.

(** The replacement is longer than anything the pattern can match. *)
Definition grows (rule : regex * text) : bool :=
  match max_len (fst rule) with
  | Some n => n <? length (snd rule)
  | None => false
  end.

(** The three loops of [fix_colored_backgrounds.py], as one table. *)
Definition colored_rules : list (regex * text) :=
  FixColoredBackgrounds.shade_rules
    (FixColoredBackgrounds.colors ++ FixColoredBackgrounds.semantic_colors)
    "-50" "dark:bg-surface-primary"
  ++ FixColoredBackgrounds.shade_rules
       (FixColoredBackgrounds.colors ++ FixColoredBackgrounds.semantic_colors)
       "-100" "dark:bg-surface-secondary"
  ++ FixColoredBackgrounds.shade_rules FixColoredBackgrounds.colors
       "-200" "dark:bg-surface-border".

(** [light] would end strictly inside [dark]: some proper, non-empty head
    of [dark] ends with [light], or [light] ends with that head. *)
Definition clash (light dark : text) : bool :=
  existsb (fun o => let head := take o dark in
                    ends_with head light || ends_with light head)
          (seq 1 (length dark - 1)).

(** The words of a pattern without class and repetition. *)
Fixpoint words (r : regex) : list text :=
  match r with
  | Eps | NLook _ | WordB => [[]]
  | Chr c => [[c]]
  | Cls _ _ | Star _ _ => []
  | Seq r1 r2 => flat_map (fun w1 => map (app w1) (words r2)) (words r1)
  | Alt r1 r2 => words r1 ++ words r2
  | Group _ r1 => words r1
  end.

Fixpoint finite (r : regex) : bool :=
  match r with
  | Eps | NLook _ | WordB | Chr _ => true
  | Cls _ _ | Star _ _ => false
  | Seq r1 r2 | Alt r1 r2 => finite r1 && finite r2
  | Group _ r1 => finite r1
  end.

(** No text that a pattern of the table can match ends strictly inside a
    dark class of the table. *)
Definition clash_free (table : list (regex * text)) : bool :=
  forallb (fun rule =>
             finite (fst rule) &&
             forallb (fun light =>
                        forallb (fun rule' => negb (clash light (snd rule'))) table)
                     (words (fst rule)))
          table.


(** An element whose tag opens on one line and whose [className]
    attribute stands on the next, with the classes [classes]. *)
Definition split_element (tag classes : string) : text :=
  str ("<" ++ tag)%string ++ [nl] ++ str "  className=" ++ [dq] ++ str classes
  ++ [dq] ++ str " />" ++ [nl].


(** A matcher that can only match text split over two lines: every match,
    in any subject, holds a line feed that is not its last character. *)
Definition only_across_lines (r : regex) : Prop :=
  forall s m, is_match r s m ->
    exists u v, group0 m = u ++ nl :: v /\ v <> [].

(** The replacement begins with whatever the pattern can match: the rule
    writes the match back and adds to it. *)
Definition keeps_match (rule : regex * text) : bool :=
  finite (fst rule) &&
  forallb (fun w => starts_with w (snd rule)) (words (fst rule)).


(** [fs'] differs from [fs] in the file at [p] at most: every other path
    is as it was, and the file at [p] is neither created nor removed and
    keeps its permissions. *)
Definition touches_only (p : string) (fs fs' : fsys) : Prop :=
  (forall q, q <> p -> fs' !! q = fs !! q) /\
  match fs !! p, fs' !! p with
  | Some f, Some f' =>
      f_readable f' = f_readable f /\ f_writable f' = f_writable f
  | None, None => True
  | _, _ => False
  end.

(** What the value returned by a per-file function says about the files;
    [silent] stands for a count of 0 or for False. A value that is not
    silent comes after a write that ended well and changed the files; a
    silent one means that the files are as they were, or that a write was
    begun and ended with an exception. *)
Definition report_ok (silent : bool) (p : string) (fs fs' : fsys) : Prop :=
  (silent = false ->
   fs' <> fs /\ exists new, write_text fs p new = (fs', None)) /\
  (silent = true ->
   fs' = fs \/ exists new e, write_text fs p new = (fs', Some e)).

(** The loop that the [main] functions run over the files found, for a
    per-file function [update] that returns a count: files with a positive
    count, the sum of the counts, and the files afterwards. *)
Section FileLoop.

Variable update : fsys -> string -> nat * fsys.

Fixpoint file_loop (files : list string) (fs : fsys) : (nat * nat) * fsys :=
  match files with
  | [] => ((0, 0), fs)
  | file :: rest =>
      if is_test_path file then file_loop rest fs
      else
        let '(count, fs1) := update fs file in
        let '((n, total), fs2) := file_loop rest fs1 in
        if 0 <? count then ((S n, count + total), fs2) else ((n, total), fs2)
  end.

End FileLoop.

(** [fix_file] of [fix_theme_line_by_line.py], with the number of changed
    lines as its count. *)
Definition theme_update (fs : fsys) (p : string) : nat * fsys :=
  (fst (fst (FixThemeLineByLine.fix_file fs p)),
   snd (FixThemeLineByLine.fix_file fs p)).

(** [fix_file] of [fix_multiline_inputs.py], with 1 for True and 0 for
    False as its count. *)
Definition multiline_update (fs : fsys) (p : string) : nat * fsys :=
  ((if fst (FixMultilineInputs.fix_file fs p) then 1 else 0),
   snd (FixMultilineInputs.fix_file fs p)).

(** The path can be examined: [exists()] returns. *)
Definition examinable (fs : fsys) (p : string) : bool :=
  match path_exists fs p with
  | Ok _ => true
  | Raise _ => false
  end.

(** The text in a file after a per-file function has read [content] from
    it and computed [new]: nothing is written when the two are equal, and
    otherwise the file holds what the device kept of [new]. *)
Definition left_in_file (f : file) (content new : text) : text :=
  if text_eqb new content then content else kept f new.

(** The sum of the values of a [results] dictionary. *)
Definition dict_sum (results : gmap string nat) : nat :=
  map_fold (fun _ count acc => count + acc) 0 results.

(** What [update_file] of [update_dark_mode.py] returns for the priority
    file [rel] when run on the files [fs]. *)
Definition count_of (fs : fsys) (rel : string) : nat :=
  fst (UpdateDarkMode.update_file fs (UpdateDarkMode.base_path rel)).

(** The lines of a text as [readlines] cuts it: every line ends with its
    line feed and holds no other, except that the last line may lack the
    line feed when it is not empty. *)
Fixpoint lines_ok (lines : list text) : Prop :=
  match lines with
  | [] => True
  | line :: rest =>
      (exists body, ~ In nl body /\
         (line = body ++ [nl] \/ (line = body /\ body <> [] /\ rest = []))) /\
      lines_ok rest
  end.

(** A pair of [fix_line] that cannot join or split lines: its pattern
    matches no empty text and no line feed, and its dark class holds no
    line feed. *)
Definition line_safe (rule : regex * text) : bool :=
  finite (fst rule) &&
  forallb (fun w => match w with
                    | [] => false
                    | _ :: _ => negb (existsb (Ascii.eqb nl) w)
                    end) (words (fst rule)) &&
  negb (existsb (Ascii.eqb nl) (snd rule)).

(** How many times the loop of [fix_line] inserts the dark class [dark]
    while it works on a line. *)
Fixpoint inserted (dark : text) (pairs : list (regex * text)) (line : text) : nat :=
  match pairs with
  | [] => 0
  | entry :: rest =>
      match FixThemeLineByLine.fix_step entry line with
      | Some line' =>
          (if text_eqb (snd entry) dark then 1 else 0) + inserted dark rest line'
      | None => inserted dark rest line
      end
  end.

(** Whatever the pattern matches holds the character [c] as often as the
    replacement does. *)
Definition keeps_count (c : ascii) (rule : regex * text) : bool :=
  finite (fst rule) &&
  forallb (fun w => count_occ ascii_dec w c =? count_occ ascii_dec (snd rule) c)
          (words (fst rule)).

(** The number of line feeds in a text. *)
Definition feeds (t : text) : nat := count_occ ascii_dec t nl.

(** ** Lemmas about the matcher *)

Lemma star_loop_sound (A : Type) (r1 : regex) (g : bool)
    (body : cursor -> caps -> (cursor -> caps -> option A) -> option A)
    (k : cursor -> caps -> option A) :
  (forall cur cs k' x, body cur cs k' = Some x ->
     exists cur' cs', steps r1 cur cs cur' cs' /\ k' cur' cs' = Some x) ->
  forall n cur cs x,
    star_loop body g k n cur cs = Some x ->
    exists cur' cs', steps (Star g r1) cur cs cur' cs' /\ k cur' cs' = Some x.
Proof.
  intros Hbody. induction n as [ | n IHn]; intros cur cs x H; simpl in H.
  - exists cur, cs. split; [constructor | exact H].
  - assert (Hmore : forall y,
      body cur cs (fun cur' cs' =>
        if length (after cur') <? length (after cur)
        then star_loop body g k n cur' cs' else None) = Some y ->
      exists cur' cs', steps (Star g r1) cur cs cur' cs' /\ k cur' cs' = Some y).
    { intros y Hy. apply Hbody in Hy. destruct Hy as (c1 & s1 & H1 & Hy).
      destruct (length (after c1) <? length (after cur)) eqn:Elt; [ | discriminate].
      apply Nat.ltb_lt in Elt.
      apply IHn in Hy. destruct Hy as (c2 & s2 & H2 & Hy).
      exists c2, s2. split; [ | exact Hy].
      eapply steps_star_more; eassumption. }
    destruct g.
    + match type of H with
      | match ?m with _ => _ end = _ => destruct m eqn:E
      end.
      * injection H as ->. apply Hmore. reflexivity.
      * exists cur, cs. split; [constructor | exact H].
    + destruct (k cur cs) eqn:E.
      * injection H as ->. exists cur, cs. split; [constructor | exact E].
      * apply Hmore. exact H.
Qed.

Lemma rmatch_sound (r : regex) :
  forall (A : Type) cur cs (k : cursor -> caps -> option A) x,
    rmatch r cur cs k = Some x ->
    exists cur' cs', steps r cur cs cur' cs' /\ k cur' cs' = Some x.
Proof.
  induction r as [ | c | ng items | r1 IH1 r2 IH2 | r1 IH1 r2 IH2
                 | g r1 IH1 | n r1 IH1 | r1 IH1 | ]; intros A cur cs k x H; simpl in H.
  - exists cur, cs. split; [constructor | exact H].
  - destruct cur as [l [ | y rest]]; simpl in H; [discriminate | ].
    destruct (Ascii.eqb y c) eqn:E; [ | discriminate].
    apply Ascii.eqb_eq in E. subst y.
    eexists _, _. split; [constructor | exact H].
  - destruct cur as [l [ | y rest]]; simpl in H; [discriminate | ].
    destruct (cls_has ng items y) eqn:E; [ | discriminate].
    eexists _, _. split; [constructor; exact E | exact H].
  - apply IH1 in H. destruct H as (c1 & s1 & H1 & H).
    apply IH2 in H. destruct H as (c2 & s2 & H2 & H).
    exists c2, s2. split; [econstructor; eassumption | exact H].
  - destruct (rmatch r1 cur cs k) eqn:E.
    + injection H as ->. apply IH1 in E. destruct E as (c1 & s1 & H1 & E).
      exists c1, s1. split; [apply steps_alt_l; exact H1 | exact E].
    + apply IH2 in H. destruct H as (c1 & s1 & H1 & H).
      exists c1, s1. split; [apply steps_alt_r; exact H1 | exact H].
  - eapply star_loop_sound; [ | exact H]. intros. eapply IH1. eassumption.
  - apply IH1 in H. destruct H as (c1 & s1 & H1 & H).
    eexists _, _. split; [constructor; exact H1 | exact H].
  - destruct (rmatch r1 cur cs (fun _ _ => Some tt)) eqn:E; [discriminate | ].
    exists cur, cs. split; [constructor; exact E | exact H].
  - destruct (at_boundary cur) eqn:E; [ | discriminate].
    exists cur, cs. split; [constructor; exact E | exact H].
Qed.

Lemma moved_subject c w c' : moved c w c' -> subject c' = subject c.
Proof.
  intros [Ha Hb]. unfold subject. rewrite Hb, Ha, rev_app_distr, rev_involutive.
  rewrite <- app_assoc. reflexivity.
Qed.

Lemma moved_pos c w c' : moved c w c' -> pos c' = pos c + length w.
Proof.
  intros [_ Hb]. unfold pos. rewrite Hb, length_app, length_rev. lia.
Qed.

Lemma moved_refl c : moved c [] c.
Proof. split; reflexivity. Qed.

Lemma moved_trans c0 w1 c1 w2 c2 :
  moved c0 w1 c1 -> moved c1 w2 c2 -> moved c0 (w1 ++ w2) c2.
Proof.
  intros [Ha1 Hb1] [Ha2 Hb2]. split.
  - rewrite Ha1, Ha2, app_assoc. reflexivity.
  - rewrite Hb2, Hb1, rev_app_distr, app_assoc. reflexivity.
Qed.

Lemma moved_one l x rest : moved (Cursor l (x :: rest)) [x] (Cursor (x :: l) rest).
Proof. split; reflexivity. Qed.

Lemma slice_middle (a w b : text) :
  slice (a ++ w ++ b) (length a) (length a + length w) = w.
Proof.
  unfold slice. rewrite drop_app_length.
  replace (length a + length w - length a) with (length w) by lia.
  apply take_app_length.
Qed.

Lemma moved_slice c w c' :
  moved c w c' -> slice (subject c) (pos c) (pos c') = w.
Proof.
  intros H. rewrite (moved_pos _ _ _ H). destruct H as [Ha _].
  unfold subject, pos. rewrite Ha, <- (length_rev (before c)).
  apply slice_middle.
Qed.

Lemma steps_accepts r c cs c' cs' :
  steps r c cs c' cs' -> exists w, moved c w c' /\ accepts r w.
Proof.
  induction 1 as [ cur cs | ch l rest cs | ng items x l rest cs Hx
                 | r1 r2 c0 s0 c1 s1 c2 s2 _ IH1 _ IH2
                 | r1 r2 c0 s0 c1 s1 _ IH | r1 r2 c0 s0 c1 s1 _ IH
                 | g r cur cs
                 | g r c0 s0 c1 s1 c2 s2 _ IH1 _ _ IH2
                 | n r c0 s0 c1 s1 _ IH | r cur cs _ | cur cs _ ].
  - exists []. split; [apply moved_refl | constructor].
  - exists [ch]. split; [apply moved_one | constructor].
  - exists [x]. split; [apply moved_one | constructor; exact Hx].
  - destruct IH1 as (w1 & M1 & A1), IH2 as (w2 & M2 & A2).
    exists (w1 ++ w2). split; [eapply moved_trans; eassumption | constructor; assumption].
  - destruct IH as (w & M & A). exists w. split; [exact M | apply acc_alt_l; exact A].
  - destruct IH as (w & M & A). exists w. split; [exact M | apply acc_alt_r; exact A].
  - exists []. split; [apply moved_refl | constructor].
  - destruct IH1 as (w1 & M1 & A1), IH2 as (w2 & M2 & A2).
    exists (w1 ++ w2). split; [eapply moved_trans; eassumption | constructor; assumption].
  - destruct IH as (w & M & A). exists w. split; [exact M | constructor; exact A].
  - exists []. split; [apply moved_refl | constructor].
  - exists []. split; [apply moved_refl | constructor].
Qed.

Lemma accepts_nonempty r w : accepts r w -> nullable r = false -> w <> [].
Proof.
  induction 1; simpl; intros Hn; try discriminate.
  - apply andb_false_iff in Hn. intros E. apply app_eq_nil in E.
    destruct E as [-> ->]. destruct Hn as [Hn | Hn]; [apply IHaccepts1 | apply IHaccepts2]; auto.
  - apply orb_false_iff in Hn. tauto.
  - apply orb_false_iff in Hn. tauto.
  - auto.
Qed.

Lemma accepts_min_count ch r w :
  accepts r w -> min_count ch r <= count_occ ascii_dec w ch.
Proof.
  induction 1; simpl; try lia.
  - destruct (Ascii.eqb c ch) eqn:E.
    + apply Ascii.eqb_eq in E. subst. destruct (ascii_dec ch ch); [lia | congruence].
    + lia.
  - rewrite count_occ_app. lia.
Qed.

Lemma accepts_max_len r w n :
  accepts r w -> max_len r = Some n -> length w <= n.
Proof.
  intros H. revert n.
  induction H; simpl; intros k Hk; try (injection Hk as <-; simpl; lia); try discriminate.
  - destruct (max_len r1) as [a | ], (max_len r2) as [b | ]; try discriminate.
    injection Hk as <-. rewrite length_app.
    specialize (IHaccepts1 _ eq_refl). specialize (IHaccepts2 _ eq_refl). lia.
  - destruct (max_len r1) as [a | ], (max_len r2) as [b | ]; try discriminate.
    injection Hk as <-. specialize (IHaccepts _ eq_refl). lia.
  - destruct (max_len r1) as [a | ], (max_len r2) as [b | ]; try discriminate.
    injection Hk as <-. specialize (IHaccepts _ eq_refl). lia.
  - auto.
Qed.

Lemma steps_groupless r c cs c' cs' :
  steps r c cs c' cs' -> groupless r = true -> cs' = cs.
Proof.
  induction 1; simpl; intros G; try reflexivity; try discriminate.
  - apply andb_true_iff in G. destruct G. rewrite IHsteps2, IHsteps1; auto.
  - apply andb_true_iff in G. destruct G. auto.
  - apply andb_true_iff in G. destruct G. auto.
  - rewrite IHsteps2, IHsteps1; auto.
Qed.

Lemma steps_caps_kept n r c cs c' cs' :
  steps r c cs c' cs' -> caps_lookup n cs <> None -> caps_lookup n cs' <> None.
Proof.
  induction 1; simpl; auto.
  intros Hn. destruct (n0 =? n); [discriminate | auto].
Qed.

Lemma steps_closes n r c cs c' cs' :
  steps r c cs c' cs' -> closes n r = true -> caps_lookup n cs' <> None.
Proof.
  induction 1; simpl; intros Hc; try discriminate.
  - apply orb_true_iff in Hc. destruct Hc as [Hc | Hc].
    + eapply steps_caps_kept; [eassumption | auto].
    + auto.
  - apply andb_true_iff in Hc. destruct Hc. auto.
  - apply andb_true_iff in Hc. destruct Hc. auto.
  - destruct (n0 =? n) eqn:E; [discriminate | ]. simpl in Hc. auto.
Qed.

Lemma match_at_steps r ma c c' cs' :
  match_at r ma c = Some (c', cs') ->
  steps r c [] c' cs' /\ (ma = true -> pos c' <> pos c).
Proof.
  unfold match_at. intros H. apply rmatch_sound in H.
  destruct H as (c1 & s1 & Hs & Hk).
  destruct ma; simpl in Hk.
  - destruct (pos c1 =? pos c) eqn:E; [discriminate | ].
    injection Hk as <- <-. split; [exact Hs | ]. intros _. apply Nat.eqb_neq. exact E.
  - injection Hk as <- <-. split; [exact Hs | discriminate].
Qed.

Lemma subject_shift l c rest :
  subject (Cursor (c :: l) rest) = subject (Cursor l (c :: rest)).
Proof. unfold subject. simpl. rewrite <- app_assoc. reflexivity. Qed.

Lemma match_at_is_match r ma c hit :
  match_at r ma c = Some hit -> is_match r (subject c) (mk_match c hit).
Proof.
  destruct hit as [c' cs']. intros H. apply match_at_steps in H. destruct H as [H _].
  split; [reflexivity | ]. exists c, c'. simpl. auto.
Qed.

Lemma match_at_span r ma l rest hit :
  match_at r ma (Cursor l rest) = Some hit ->
  length l <= pos (fst hit) <= length l + length rest /\
  (ma = true -> length l < pos (fst hit)).
Proof.
  destruct hit as [c' cs']. intros H. apply match_at_steps in H. destruct H as [H Hadv].
  apply steps_accepts in H. destruct H as (w & M & _).
  pose proof (moved_pos _ _ _ M) as Hp. destruct M as [Ha _].
  simpl in *. unfold pos in *. simpl in *.
  assert (length rest = length w + length (after c')) by (rewrite Ha, length_app; reflexivity).
  split; [lia | ]. intros ->. specialize (Hadv eq_refl). lia.
Qed.

Lemma search_from_is_match r rest :
  forall l m, search_from r l rest = Some m -> is_match r (rev l ++ rest) m.
Proof.
  induction rest as [ | c rest IH]; intros l m H; simpl in H.
  - destruct (match_at r false (Cursor l [])) as [hit | ] eqn:E; [ | discriminate].
    injection H as <-. apply (match_at_is_match _ _ _ _ E).
  - destruct (match_at r false (Cursor l (c :: rest))) as [hit | ] eqn:E.
    + injection H as <-. apply (match_at_is_match _ _ _ _ E).
    + apply IH in H. simpl in H. rewrite <- app_assoc in H. exact H.
Qed.

Lemma re_search_is_match r s m : re_search r s = Some m -> is_match r s m.
Proof. apply (search_from_is_match r s []). Qed.

Lemma scan_is_match r rest :
  forall l skip m, In m (scan r l rest skip) -> is_match r (rev l ++ rest) m.
Proof.
  induction rest as [ | c rest IH]; intros l skip m H.
  - destruct skip as [ | k]; simpl in H; [ | contradiction].
    destruct (match_at r false (Cursor l [])) as [hit | ] eqn:E; [ | contradiction].
    destruct H as [<- | H]; [apply (match_at_is_match _ _ _ _ E) | ].
    destruct (pos (fst hit) - pos (Cursor l [])); [ | contradiction].
    destruct (match_at r true (Cursor l [])) as [hit2 | ] eqn:E2; [ | contradiction].
    destruct H as [<- | []]. apply (match_at_is_match _ _ _ _ E2).
  - assert (Hrec : forall k, In m (scan r (c :: l) rest k) ->
                             is_match r (rev l ++ c :: rest) m).
    { intros k Hk. apply IH in Hk. simpl in Hk. rewrite <- app_assoc in Hk. exact Hk. }
    destruct skip as [ | k]; simpl in H; [ | eapply Hrec; exact H].
    destruct (match_at r false (Cursor l (c :: rest))) as [hit | ] eqn:E;
      [ | eapply Hrec; exact H].
    destruct H as [<- | H]; [apply (match_at_is_match _ _ _ _ E) | ].
    destruct (pos (fst hit) - pos (Cursor l (c :: rest))); [ | eapply Hrec; exact H].
    destruct (match_at r true (Cursor l (c :: rest))) as [hit2 | ] eqn:E2;
      [ | eapply Hrec; exact H].
    destruct H as [<- | H]; [apply (match_at_is_match _ _ _ _ E2) | eapply Hrec; exact H].
Qed.

Lemma finditer_is_match r s m : In m (finditer r s) -> is_match r s m.
Proof. apply (scan_is_match r s [] 0). Qed.

Lemma spans_ok_weaken_start i j ms n :
  i <= j -> spans_ok j ms n -> spans_ok i ms n.
Proof.
  destruct ms as [ | m ms]; simpl; intros Hij H; [lia | ].
  destruct H as (H1 & H2 & H3 & H4). repeat split; try lia. exact H4.
Qed.

Lemma scan_spans r rest :
  forall l skip, skip <= length rest ->
    spans_ok (length l + skip) (scan r l rest skip) (length l + length rest).
Proof.
  induction rest as [ | c rest IH]; intros l skip Hskip.
  - simpl in Hskip. assert (skip = 0) as -> by lia. simpl scan.
    change (pos (Cursor l [])) with (length l).
    destruct (match_at r false (Cursor l [])) as [hit | ] eqn:E; [ | simpl; lia].
    pose proof (match_at_span _ _ _ _ _ E) as [Hb _]. simpl in Hb.
    replace (pos (fst hit) - length l) with 0 by lia.
    destruct (match_at r true (Cursor l [])) as [hit2 | ] eqn:E2.
    + pose proof (match_at_span _ _ _ _ _ E2) as [Hb2 Hadv]. simpl in Hb2.
      specialize (Hadv eq_refl). lia.
    + simpl in *; unfold pos in *; simpl in *; repeat split; try lia.
  - assert (Hrec : forall k m, k <= length rest -> m = length l + S k ->
              spans_ok m (scan r (c :: l) rest k) (length l + length (c :: rest))).
    { intros k m Hk ->. specialize (IH (c :: l) k Hk). simpl in IH. simpl.
      replace (length l + S k) with (S (length l + k)) by lia.
      replace (length l + S (length rest)) with (S (length l + length rest)) by lia.
      exact IH. }
    destruct skip as [ | k]; simpl scan.
    2:{ apply Hrec; simpl in Hskip; lia. }
    change (pos (Cursor l (c :: rest))) with (length l).
    destruct (match_at r false (Cursor l (c :: rest))) as [hit | ] eqn:E.
    2:{ eapply spans_ok_weaken_start; [ | apply (Hrec 0); [lia | reflexivity]]. lia. }
    pose proof (match_at_span _ _ _ _ _ E) as [Hb _].
    destruct (pos (fst hit) - length l) as [ | n] eqn:En.
    + destruct (match_at r true (Cursor l (c :: rest))) as [hit2 | ] eqn:E2.
      * pose proof (match_at_span _ _ _ _ _ E2) as [Hb2 Hadv]. specialize (Hadv eq_refl).
        cbn [spans_ok mk_match m_start m_end]. change (pos (Cursor l (c :: rest))) with (length l).
        repeat split; try lia.
        apply Hrec; simpl in *; lia.
      * cbn [spans_ok mk_match m_start m_end]. change (pos (Cursor l (c :: rest))) with (length l).
        repeat split; try lia.
        eapply spans_ok_weaken_start; [ | apply (Hrec 0); [lia | reflexivity]]. lia.
    + cbn [spans_ok mk_match m_start m_end]. change (pos (Cursor l (c :: rest))) with (length l).
      repeat split; try lia.
      apply Hrec; simpl in *; lia.
Qed.

Lemma finditer_spans r s : spans_ok 0 (finditer r s) (length s).
Proof. apply (scan_spans r s [] 0). lia. Qed.

(** ** Lemmas about the [str] methods *)

Lemma starts_with_app p t : starts_with p (p ++ t) = true.
Proof.
  induction p as [ | c p IH]; simpl; [reflexivity | ].
  rewrite Ascii.eqb_refl. exact IH.
Qed.

Lemma starts_with_inv p s : starts_with p s = true -> exists t, s = p ++ t.
Proof.
  revert s. induction p as [ | c p IH]; intros s H.
  - exists s. reflexivity.
  - destruct s as [ | d s]; simpl in H; [discriminate | ].
    apply andb_true_iff in H. destruct H as [E H].
    apply Ascii.eqb_eq in E. subst d.
    destruct (IH _ H) as [t ->]. exists t. reflexivity.
Qed.

Lemma str_in_intro sub a b : str_in sub (a ++ sub ++ b) = true.
Proof.
  induction a as [ | c a IH]; simpl.
  - destruct (sub ++ b) eqn:E; simpl; rewrite <- E, starts_with_app; reflexivity.
  - rewrite IH. apply orb_true_r.
Qed.

Lemma str_in_inv sub s : str_in sub s = true -> exists a b, s = a ++ sub ++ b.
Proof.
  induction s as [ | c s IH]; simpl; intros H.
  - rewrite orb_false_r in H. apply starts_with_inv in H. destruct H as [t ->].
    exists [], t. reflexivity.
  - apply orb_true_iff in H. destruct H as [H | H].
    + apply starts_with_inv in H. destruct H as [t ->]. exists [], t. reflexivity.
    + destruct (IH H) as (a & b & ->). exists (c :: a), b. reflexivity.
Qed.

(** [replace] with a count of 1 rewrites some occurrence when there is one. *)
Lemma replace_first_hit old new s :
  str_in old s = true ->
  exists a b, s = a ++ old ++ b /\ replace_first old new s = a ++ new ++ b.
Proof.
  induction s as [ | c s IH]; intros H.
  - simpl in H. rewrite orb_false_r in H. simpl. rewrite H.
    apply starts_with_inv in H. destruct H as [t E].
    exists [], t. split; [exact E | ]. simpl.
    symmetry in E. apply app_eq_nil in E. destruct E as [-> ->]. reflexivity.
  - cbn [replace_first]. destruct (starts_with old (c :: s)) eqn:E.
    + apply starts_with_inv in E. destruct E as [t E].
      exists [], t. split; [exact E | ]. simpl. rewrite E, drop_app_length. reflexivity.
    + simpl in H. rewrite E in H. simpl in H.
      destruct (IH H) as (a & b & -> & ->). exists (c :: a), b. split; reflexivity.
Qed.

Lemma replace_first_miss old new s :
  str_in old s = false -> replace_first old new s = s.
Proof.
  induction s as [ | c s IH]; simpl; intros H.
  - rewrite orb_false_r in H. rewrite H. reflexivity.
  - apply orb_false_iff in H. destruct H as [E H]. rewrite E, (IH H). reflexivity.
Qed.

(** The text of a match is the stretch of the subject between its ends. *)
Lemma is_match_group0 r s m :
  is_match r s m ->
  exists a w b, s = a ++ w ++ b /\ group0 m = w /\ accepts r w /\
                length a = m_start m /\ m_end m = m_start m + length w.
Proof.
  intros (Hs & c & c' & Hsub & Hp & Hp' & Hst).
  apply steps_accepts in Hst. destruct Hst as (w & M & A).
  exists (rev (before c)), w, (after c'). unfold group0.
  rewrite Hs, <- Hsub, <- Hp, <- Hp', (moved_slice _ _ _ M).
  rewrite (moved_pos _ _ _ M). destruct M as [Ha _].
  unfold subject, pos. rewrite Ha, length_rev. auto.
Qed.

Lemma is_match_in r s m : is_match r s m -> str_in (group0 m) s = true.
Proof.
  intros H. destruct (is_match_group0 _ _ _ H) as (a & w & b & -> & -> & _).
  apply str_in_intro.
Qed.

(** ** The line-by-line fixer, one pair at a time *)

Lemma fix_step_inserts p dark line line' :
  FixThemeLineByLine.fix_step (p, dark) line = Some line' ->
  str_in dark line = false /\
  exists m a b, re_search p line = Some m /\
    line = a ++ group0 m ++ b /\
    line' = a ++ (group0 m ++ str " " ++ dark) ++ b.
Proof.
  unfold FixThemeLineByLine.fix_step.
  destruct (re_search p line) as [m | ] eqn:E; [ | discriminate].
  destruct (str_in dark line) eqn:D; simpl; [discriminate | ].
  intros H. injection H as <-. split; [reflexivity | ].
  pose proof (is_match_in _ _ _ (re_search_is_match _ _ _ E)) as Hin.
  destruct (replace_first_hit _ (group0 m ++ str " " ++ dark) _ Hin) as (a & b & E1 & E2).
  exists m, a, b. auto.
Qed.

Lemma fix_step_adds_dark p dark line line' :
  FixThemeLineByLine.fix_step (p, dark) line = Some line' ->
  str_in dark line' = true.
Proof.
  intros H. apply fix_step_inserts in H.
  destruct H as (_ & m & a & b & _ & _ & ->).
  replace (a ++ (group0 m ++ str " " ++ dark) ++ b)
    with ((a ++ group0 m ++ str " ") ++ dark ++ b)
    by (repeat rewrite <- app_assoc; reflexivity).
  apply str_in_intro.
Qed.

Lemma fix_step_guarded p dark line :
  str_in dark line = true -> FixThemeLineByLine.fix_step (p, dark) line = None.
Proof.
  intros H. unfold FixThemeLineByLine.fix_step. rewrite H. simpl.
  destruct (re_search p line); reflexivity.
Qed.

(** ** Scenarios *)

(** C2. End to end, with Q for the double quote: on the line
    [class=Qbg-whiteQ] the pair ([\bbg-white\b], [dark:bg-surface-primary])
    of [fix_line] runs its [replace] once and gives
    [class=Qbg-white dark:bg-surface-primaryQ]; run again on that output
    it changes nothing.
    The same holds with the whole table [THEME_PAIRS], for [fix_lines]
    (one changed line, line 1) and for the [re.sub] loop of
    [update_dark_mode.py], whose count is 1 and then 0. *)
Theorem end_to_end_bg_white :
  let rule := (word_lit "bg-white", str "dark:bg-surface-primary") in
  let line := class_attr "bg-white" in
  let out := class_attr "bg-white dark:bg-surface-primary" in
  In rule FixThemeLineByLine.THEME_PAIRS /\
  FixThemeLineByLine.fix_loop [rule] line false = (out, true) /\
  FixThemeLineByLine.replaced [rule] line = 1 /\
  FixThemeLineByLine.fix_loop [rule] out false = (out, false) /\
  FixThemeLineByLine.replaced [rule] out = 0 /\
  FixThemeLineByLine.fix_line line = (out, true) /\
  FixThemeLineByLine.replaced FixThemeLineByLine.THEME_PAIRS line = 1 /\
  FixThemeLineByLine.fix_line out = (out, false) /\
  FixThemeLineByLine.replaced FixThemeLineByLine.THEME_PAIRS out = 0 /\
  FixThemeLineByLine.fix_lines 1 [line] = ([out], [1]) /\
  FixThemeLineByLine.fix_lines 1 [out] = ([out], []) /\
  UpdateDarkMode.update_content line = (out, 1) /\
  UpdateDarkMode.update_content out = (out, 0).
Proof.
  cbv zeta. split; [left; reflexivity | ].
  repeat split; vm_compute; reflexivity.
Qed.

(** C4. [fix_line] on [bg-gray-500 bg-gray-50]: the pattern
    [\bbg-gray-50\b] matches the second class, characters 12 to 22, and the
    dark class is not yet on the line; but [replace] rewrites the first
    occurrence of the matched text, which is the head of [bg-gray-500]. The
    match itself is left as it was. *)
Theorem fix_line_rewrites_another_occurrence :
  let line := str "bg-gray-500 bg-gray-50" in
  (exists m, re_search (word_lit "bg-gray-50") line = Some m /\
             m_start m = 12 /\ m_end m = 22 /\ group0 m = str "bg-gray-50") /\
  str_in (str "dark:bg-surface-secondary") line = false /\
  FixThemeLineByLine.fix_line line =
    (str "bg-gray-50 dark:bg-surface-secondary0 bg-gray-50", true).
Proof.
  cbv zeta. split; [ | split; vm_compute; reflexivity].
  eexists. split; [vm_compute; reflexivity | ].
  repeat split.
Qed.

Lemma fix_loop_app t1 t2 line ch :
  FixThemeLineByLine.fix_loop (t1 ++ t2) line ch =
  let '(line1, ch1) := FixThemeLineByLine.fix_loop t1 line ch in
  FixThemeLineByLine.fix_loop t2 line1 ch1.
Proof.
  revert line ch. induction t1 as [ | e t1 IH]; intros line ch; simpl; [reflexivity | ].
  destruct (FixThemeLineByLine.fix_step e line); apply IH.
Qed.

Lemma apply_all_app t1 t2 content n :
  UpdateDarkMode.apply_all (t1 ++ t2) content n =
  let '(content1, n1) := UpdateDarkMode.apply_all t1 content n in
  UpdateDarkMode.apply_all t2 content1 n1.
Proof.
  revert content n. induction t1 as [ | [p r] t1 IH]; intros content n; simpl; [reflexivity | ].
  destruct (negb (text_eqb (re_sub p r content) content)); apply IH.
Qed.

Lemma subn_all_app t1 t2 content n :
  subn_all (t1 ++ t2) content n =
  let '(content1, n1) := subn_all t1 content n in subn_all t2 content1 n1.
Proof.
  revert content n. induction t1 as [ | [p r] t1 IH]; intros content n; simpl; [reflexivity | ].
  destruct (0 <? length (finditer p content)); apply IH.
Qed.

(** C6. Order sensitivity. The loops run the rules one after the other on
    the text so far: running a table [t1 ++ t2] is running [t1], then [t2]
    on what [t1] left. So the order matters: with the pairs for
    [ring-gray-200] and [border-gray-200] of [THEME_PAIRS] and the line
    [ring-gray-200-gray-200], the second pair finds [border-gray-200] only
    in what the first pair inserted, and the swapped order gives another
    line. The same with the rules for [border-gray-300] and
    [border-gray-200] in the [re.sub] loops. *)
Theorem rule_order_matters :
  (forall t1 t2 line ch,
     FixThemeLineByLine.fix_loop (t1 ++ t2) line ch =
     let '(line1, ch1) := FixThemeLineByLine.fix_loop t1 line ch in
     FixThemeLineByLine.fix_loop t2 line1 ch1) /\
  (forall t1 t2 content n,
     UpdateDarkMode.apply_all (t1 ++ t2) content n =
     let '(content1, n1) := UpdateDarkMode.apply_all t1 content n in
     UpdateDarkMode.apply_all t2 content1 n1) /\
  (forall t1 t2 content n,
     subn_all (t1 ++ t2) content n =
     let '(content1, n1) := subn_all t1 content n in subn_all t2 content1 n1) /\
  (exists rule1 rule2 line,
     In rule1 FixThemeLineByLine.THEME_PAIRS /\
     In rule2 FixThemeLineByLine.THEME_PAIRS /\
     re_search (fst rule2) line = None /\
     FixThemeLineByLine.fix_loop [rule1; rule2] line false <>
     FixThemeLineByLine.fix_loop [rule2; rule1] line false) /\
  (exists rule1 rule2 content,
     In rule1 UpdateDarkMode.REPLACEMENTS /\
     In rule2 UpdateDarkMode.REPLACEMENTS /\
     finditer (fst rule2) content = [] /\
     UpdateDarkMode.apply_all [rule1; rule2] content 0 <>
     UpdateDarkMode.apply_all [rule2; rule1] content 0) /\
  (exists rule1 rule2 content,
     In rule1 FixAllDarkMode.replacements /\
     In rule2 FixAllDarkMode.replacements /\
     finditer (fst rule2) content = [] /\
     subn_all [rule1; rule2] content 0 <> subn_all [rule2; rule1] content 0).
Proof.
  split; [exact fix_loop_app | ].
  split; [exact apply_all_app | ].
  split; [exact subn_all_app | ].
  split; [ | split].
  - exists (word_lit "ring-gray-200", str "dark:ring-surface-border"),
           (word_lit "border-gray-200", str "dark:border-surface-border"),
           (str "ring-gray-200-gray-200").
    split; [vm_compute; tauto | ]. split; [vm_compute; tauto | ].
    split; [vm_compute; reflexivity | ]. vm_compute. discriminate.
  - exists (UpdateDarkMode.guarded "border-gray-300",
            str "border-gray-300 dark:border-surface-border"),
           (UpdateDarkMode.guarded "border-gray-200",
            str "border-gray-200 dark:border-surface-border"),
           (str "border-gray-300-gray-200").
    split; [vm_compute; tauto | ]. split; [vm_compute; tauto | ].
    split; [vm_compute; reflexivity | ]. vm_compute. discriminate.
  - exists (guarded_ws "border-gray-300",
            str "border-gray-300 dark:border-surface-border"),
           (guarded_ws "border-gray-200",
            str "border-gray-200 dark:border-surface-border"),
           (str "border-gray-300-gray-200").
    split; [vm_compute; tauto | ]. split; [vm_compute; tauto | ].
    split; [vm_compute; reflexivity | ]. vm_compute. discriminate.
Qed.

(** ** Matches are never empty for a pattern that is not nullable *)

Lemma is_match_nonempty r s m :
  nullable r = false -> is_match r s m -> m_start m < m_end m.
Proof.
  intros Hn H. destruct (is_match_group0 _ _ _ H) as (a & w & b & _ & _ & A & _ & He).
  pose proof (accepts_nonempty _ _ A Hn) as Hw.
  destruct w; [congruence | simpl in He; lia].
Qed.

(** C3, what the code does instead of refusing: a table is a list that the
    loops take as it is. A rule whose matcher matches the empty string is
    applied like any other; here it puts [x] at each of the three places of
    [ab], and the file is written with the result. *)
Lemma empty_matcher_is_applied :
  let rules := [(Eps, str "x")] in
  let fs : fsys := {[ "a.jsx" := File (Some (str "ab")) true true true None ]} in
  nullable Eps = true /\
  match_at Eps false (Cursor [] []) = Some (Cursor [] [], []) /\
  subn_all rules (str "ab") 0 = (str "xaxbx", 3) /\
  rewrite_file (fun content => mret (subn_all rules content 0)) fs "a.jsx" =
    (3, <["a.jsx" := File (Some (str "xaxbx")) true true true None]> fs).
Proof.
  cbv zeta. repeat split.
Qed.

(** C3 as amended. No script has a construction step or an
    [InvalidRuleError]. What holds is a fact about the tables of six
    scripts: [THEME_PAIRS] of [fix_theme_line_by_line.py], [REPLACEMENTS]
    of [update_dark_mode.py], the tables of [fix_all_dark_mode.py] and
    [fix_colored_backgrounds.py], and the patterns of
    [fix_multiline_inputs.py] and [fix-authorizers.py]. No matcher in them
    can match the empty string, so every match that [re.search], [re.sub]
    or [re.subn] finds with them has at least one character; and no
    template in the substitution tables of [update_dark_mode.py],
    [fix_all_dark_mode.py] and [fix_colored_backgrounds.py] contains a
    backslash, so none of these refers to a capture group. Other scripts
    of the repository ([fix_hover_dark_syntax.py],
    [fix_theme_system_complete.py]) have templates that refer to group 1;
    they are not among the tables of this statement. *)
Theorem shipped_matchers_never_match_empty :
  (forall p, In p shipped_patterns ->
     nullable p = false /\
     (forall s m, In m (finditer p s) -> m_start m < m_end m) /\
     (forall s m, re_search p s = Some m -> m_start m < m_end m)) /\
  (forall p template, In (p, template) substitution_tables ->
     ~ In backslash template).
Proof.
  split.
  - assert (H : forallb (fun p => negb (nullable p)) shipped_patterns = true)
      by (vm_compute; reflexivity).
    rewrite forallb_forall in H. intros p Hp. specialize (H p Hp).
    apply negb_true_iff in H. split; [exact H | ]. split; intros s m Hm.
    + eapply is_match_nonempty; [exact H | ]. apply finditer_is_match. exact Hm.
    + eapply is_match_nonempty; [exact H | ]. apply re_search_is_match. exact Hm.
  - assert (H : forallb (fun e => negb (existsb (Ascii.eqb backslash) (snd e)))
                  substitution_tables = true) by (vm_compute; reflexivity).
    rewrite forallb_forall in H. intros p template Hin Hbs.
    specialize (H _ Hin). simpl in H. apply negb_true_iff in H.
    assert (existsb (Ascii.eqb backslash) template = true); [ | congruence].
    apply existsb_exists. exists backslash. split; [exact Hbs | apply Ascii.eqb_refl].
Qed.

Lemma shipped_matchers_witness :
  In (word_lit "bg-white") shipped_patterns /\
  nullable (word_lit "bg-white") = false.
Proof.
  assert (Hin : In (word_lit "bg-white") shipped_patterns) by (left; reflexivity).
  split; [exact Hin | ].
  exact (proj1 (proj1 shipped_matchers_never_match_empty _ Hin)).
Defined.

(** ** Substitution with a callable *)

Lemma assemble_with_ok (repl : rematch -> result text) s ms :
  (forall m, In m ms -> exists t, repl m = Ok t) ->
  forall i, exists out, assemble_with repl s i ms = Ok out.
Proof.
  induction ms as [ | m ms IH]; intros H i; simpl.
  - eexists. reflexivity.
  - destruct (H m (or_introl eq_refl)) as [t ->].
    destruct (IH (fun m' Hm' => H m' (or_intror Hm')) (m_end m)) as [rest ->].
    eexists. reflexivity.
Qed.

Lemma no_match_no_change r repl s :
  finditer r s = [] -> re_sub_with r repl s = Ok s.
Proof. unfold re_sub_with. intros ->. reflexivity. Qed.

Lemma count_occ_middle (ch : ascii) (a w b : text) :
  count_occ ascii_dec w ch <= count_occ ascii_dec (a ++ w ++ b) ch.
Proof. rewrite !count_occ_app. lia. Qed.

(** A text with fewer occurrences of a character than every match needs
    has no match. *)
Lemma too_few_no_match ch r s :
  count_occ ascii_dec s ch < min_count ch r -> finditer r s = [].
Proof.
  intros H. destruct (finditer r s) as [ | m ms] eqn:E; [reflexivity | exfalso].
  assert (Hm : In m (finditer r s)) by (rewrite E; left; reflexivity).
  apply finditer_is_match in Hm.
  destruct (is_match_group0 _ _ _ Hm) as (a & w & b & -> & _ & A & _).
  pose proof (accepts_min_count ch _ _ A). pose proof (count_occ_middle ch a w b). lia.
Qed.

Lemma closed_group_some r s m n :
  is_match r s m -> closes n r = true -> exists t, group m n = Some t.
Proof.
  intros (_ & c & c' & _ & _ & _ & Hst) Hc.
  pose proof (steps_closes _ _ _ _ _ _ Hst Hc) as Hn. unfold group.
  destruct (caps_lookup n (m_caps m)) as [[i j] | ]; [eexists; reflexivity | congruence].
Qed.

Lemma add_bg_ok r s m :
  closes 1 r = true -> closes 2 r = true -> closes 3 r = true ->
  is_match r s m -> exists t, FixMultilineInputs.add_bg m = Ok t.
Proof.
  intros H1 H2 H3 Hm. unfold FixMultilineInputs.add_bg.
  destruct (closed_group_some _ _ _ _ Hm H1) as [t1 ->].
  destruct (closed_group_some _ _ _ _ Hm H2) as [t2 ->].
  destruct (closed_group_some _ _ _ _ Hm H3) as [t3 ->].
  destruct (str_in (str "bg-") t2); eexists; reflexivity.
Qed.

Lemma fix_tags_ok tags :
  (forall tag, In tag tags ->
     closes 1 (FixMultilineInputs.pattern tag) = true /\
     closes 2 (FixMultilineInputs.pattern tag) = true /\
     closes 3 (FixMultilineInputs.pattern tag) = true) ->
  forall content, exists out, FixMultilineInputs.fix_tags tags content = Ok out.
Proof.
  induction tags as [ | tag tags IH]; intros H content; simpl.
  - eexists. reflexivity.
  - destruct (H tag (or_introl eq_refl)) as (H1 & H2 & H3).
    destruct (assemble_with_ok FixMultilineInputs.add_bg content
                (finditer (FixMultilineInputs.pattern tag) content)
                (fun m Hm => add_bg_ok _ _ _ H1 H2 H3 (finditer_is_match _ _ _ Hm)) 0)
      as [out E].
    unfold re_sub_with. rewrite E. simpl.
    apply IH. intros t Ht. apply H. right. exact Ht.
Qed.

Lemma fix_tags_unchanged tags content :
  (forall tag, In tag tags ->
     count_occ ascii_dec content dq < min_count dq (FixMultilineInputs.pattern tag)) ->
  FixMultilineInputs.fix_tags tags content = Ok content.
Proof.
  induction tags as [ | tag tags IH]; intros H; simpl; [reflexivity | ].
  rewrite no_match_no_change.
  - simpl. apply IH. intros t Ht. apply H. right. exact Ht.
  - eapply too_few_no_match. apply H. left. reflexivity.
Qed.

Lemma fix_loop_unchanged pairs line ch :
  (forall p d, In (p, d) pairs -> re_search p line = None) ->
  FixThemeLineByLine.fix_loop pairs line ch = (line, ch).
Proof.
  induction pairs as [ | [p d] pairs IH]; intros H; simpl; [reflexivity | ].
  rewrite (H p d (or_introl eq_refl)). apply IH.
  intros p' d' Hin. apply (H p' d'). right. exact Hin.
Qed.

Lemma route_match_prefix s m :
  is_match FixAuthorizers.route_pattern s m -> exists t, group m 1 = Some t.
Proof. intros H. eapply closed_group_some; [exact H | reflexivity]. Qed.

Lemma add_authorizer_ok s m :
  is_match FixAuthorizers.route_pattern s m ->
  exists t, FixAuthorizers.add_authorizer m = Ok t.
Proof.
  intros H. destruct (route_match_prefix _ _ H) as [t E].
  unfold FixAuthorizers.add_authorizer. rewrite E.
  destruct (str_in (str "authorizer:") (group0 m)); [eexists; reflexivity | ].
  destruct (negb (FixAuthorizers.should_have_authorizer (group0 m))); eexists; reflexivity.
Qed.

Lemma fix_tags_no_match tags content :
  (forall tag, In tag tags -> finditer (FixMultilineInputs.pattern tag) content = []) ->
  FixMultilineInputs.fix_tags tags content = Ok content.
Proof.
  induction tags as [ | tag tags IH]; intros H; simpl; [reflexivity | ].
  rewrite no_match_no_change by (apply H; left; reflexivity).
  simpl. apply IH. intros t Ht. apply H. right. exact Ht.
Qed.

(** C8 as amended. The transformations return for every text.
    [fix_file_content], whose callable reads groups 1 to 3, never raises,
    because every match of its pattern closes the three groups, and the
    substitution of [fix-authorizers.py] never raises either; [fix_line]
    has no statement that can raise. A text in which no pattern is found
    comes back as it is, from [fix_line] with the flag False. Such are a
    text with at most one double quote for [fix_file_content], and a text
    without a closing brace for the route patcher. Other malformed text
    can be matched and rewritten. *)
Theorem transformation_never_raises :
  (forall content, exists out, FixMultilineInputs.fix_file_content content = Ok out) /\
  (forall content,
     (forall tag, In tag ["input"; "select"; "textarea"] ->
        finditer (FixMultilineInputs.pattern tag) content = []) ->
     FixMultilineInputs.fix_file_content content = Ok content) /\
  (forall content, count_occ ascii_dec content dq <= 1 ->
     FixMultilineInputs.fix_file_content content = Ok content) /\
  (forall line,
     (forall p d, In (p, d) FixThemeLineByLine.THEME_PAIRS -> re_search p line = None) ->
     FixThemeLineByLine.fix_line line = (line, false) /\
     FixThemeLineByLine.fix_lines 1 [line] = ([line], [])) /\
  (forall content, exists out, FixAuthorizers.apply_fix content = Ok out) /\
  (forall content, finditer FixAuthorizers.route_pattern content = [] ->
     FixAuthorizers.apply_fix content = Ok content) /\
  (forall content, ~ In "}"%char content -> FixAuthorizers.apply_fix content = Ok content).
Proof.
  split; [ | split; [ | split; [ | split; [ | split; [ | split]]]]].
  - apply fix_tags_ok. intros tag Htag. simpl in Htag.
    destruct Htag as [<- | [<- | [<- | []]]]; repeat split.
  - intros content H. apply fix_tags_no_match. exact H.
  - intros content H. apply fix_tags_unchanged. intros tag Htag.
    assert (min_count dq (FixMultilineInputs.pattern tag) = 2) as ->; [ | lia].
    simpl in Htag. destruct Htag as [<- | [<- | [<- | []]]]; reflexivity.
  - intros line H. unfold FixThemeLineByLine.fix_line.
    assert (E : FixThemeLineByLine.fix_loop FixThemeLineByLine.THEME_PAIRS line false
                = (line, false)) by (apply fix_loop_unchanged; exact H).
    split; [exact E | ]. simpl. unfold FixThemeLineByLine.fix_line. rewrite E. reflexivity.
  - intros content. unfold FixAuthorizers.apply_fix, re_sub_with.
    apply assemble_with_ok. intros m Hm.
    eapply add_authorizer_ok. apply finditer_is_match. exact Hm.
  - intros content H. apply no_match_no_change. exact H.
  - intros content H. apply no_match_no_change.
    apply (too_few_no_match "}"%char).
    assert (count_occ ascii_dec content "}"%char = 0) as -> by (apply count_occ_not_In; exact H).
    vm_compute. lia.
Qed.

Lemma transformation_never_raises_witness :
  FixMultilineInputs.fix_file_content
    (str "<input className=" ++ [dq] ++ str "border p-2")
  = Ok (str "<input className=" ++ [dq] ++ str "border p-2").
Proof.
  apply (proj1 (proj2 (proj2 transformation_never_raises))). vm_compute. lia.
Defined.

(** C8, where the claim fails: malformed text is not left alone. The
    patterns work on characters, so a quote or a brace that is missing is
    made up for by the next one in the text. With Q for the double quote:
    in [<input className=Qborder p-2 />] followed on the next line by
    [<p id=QxQ>] the quote of [className] is not closed; the pattern for
    [input] matches from the start up to the first quote of the next
    line, and the classes are inserted. A route without its closing brace
    is matched together with the route after it, as one route: one
    authorizer is added, at the end of the second. And [fix_line] rewrites
    a class in a quote that is not closed. *)
Lemma malformed_input_is_rewritten :
  (let content := str "<input className=" ++ [dq] ++ str "border p-2 />" ++ [nl]
                  ++ str "<p id=" ++ [dq] ++ str "x" ++ [dq] ++ str ">" in
   map (fun m => (m_start m, m_end m))
     (finditer (FixMultilineInputs.pattern "input") content) = [(0, 39)] /\
   FixMultilineInputs.fix_file_content content =
     Ok (str "<input className=" ++ [dq]
         ++ str "bg-white dark:bg-surface-primary border p-2 />" ++ [nl]
         ++ str "<p id=" ++ [dq] ++ str "x" ++ [dq] ++ str ">")) /\
  (let content := str "httpApi.addRoutes({ path: '/a', integration: a" ++ [nl]
                  ++ str "httpApi.addRoutes({ path: '/b', integration: b });" in
   map (fun m => (m_start m, m_end m))
     (finditer FixAuthorizers.route_pattern content) = [(0, 95)] /\
   FixAuthorizers.apply_fix content =
     Ok (str "httpApi.addRoutes({ path: '/a', integration: a" ++ [nl]
         ++ str "httpApi.addRoutes({ path: '/b', integration: b, authorizer: httpAuthorizer });")) /\
  FixThemeLineByLine.fix_line (str "<div className=" ++ [dq] ++ str "bg-white p-2>") =
    (str "<div className=" ++ [dq] ++ str "bg-white dark:bg-surface-primary p-2>", true).
Proof.
  split; [ | split]; cbv zeta; repeat split; vm_compute; reflexivity.
Qed.

(** ** Patterns made of three groups in a row *)

Lemma three_groups A B C s m :
  groupless A = true -> groupless B = true -> groupless C = true ->
  is_match (Seq (Group 1 A) (Seq (Group 2 B) (Group 3 C))) s m ->
  exists w1 w2 w3,
    group0 m = w1 ++ w2 ++ w3 /\
    group m 1 = Some w1 /\ group m 2 = Some w2 /\ group m 3 = Some w3 /\
    accepts A w1 /\ accepts B w2 /\ accepts C w3.
Proof.
  intros GA GB GC (Hs & c & c' & Hsub & Hp & Hp' & Hst).
  inversion Hst as [ | | | r1 r2 c0 s0 c1 s1 c2 s2 H1 H23 | | | | | | | ]; subst.
  inversion H1 as [ | | | | | | | | n r c0 s0 c1' s1' HA | | ]; subst.
  inversion H23 as [ | | | r1 r2 c0 s0 c2 s2 c3 s3 H2 H3 | | | | | | | ]; subst.
  inversion H2 as [ | | | | | | | | n r c0 s0 c2' s2' HB | | ]; subst.
  inversion H3 as [ | | | | | | | | n r c0 s0 c3' s3' HC | | ]; subst.
  pose proof (steps_groupless _ _ _ _ _ HA GA) as ->.
  pose proof (steps_groupless _ _ _ _ _ HB GB) as ->.
  pose proof (steps_groupless _ _ _ _ _ HC GC) as ->.
  destruct (steps_accepts _ _ _ _ _ HA) as (w1 & M1 & A1).
  destruct (steps_accepts _ _ _ _ _ HB) as (w2 & M2 & A2).
  destruct (steps_accepts _ _ _ _ _ HC) as (w3 & M3 & A3).
  exists w1, w2, w3.
  pose proof (moved_subject _ _ _ M1) as S1.
  pose proof (moved_subject _ _ _ M2) as S2.
  pose proof (moved_trans _ _ _ _ _ M2 M3) as M23.
  pose proof (moved_trans _ _ _ _ _ M1 M23) as M123.
  match goal with H : _ = m_caps m |- _ => rename H into Hcaps end.
  unfold group0, group. rewrite <- Hcaps, <- Hsub, <- Hp, <- Hp'. simpl.
  rewrite (moved_slice _ _ _ M123), (moved_slice _ _ _ M1).
  rewrite <- S1 at 1. rewrite (moved_slice _ _ _ M2).
  rewrite <- S1, <- S2. rewrite (moved_slice _ _ _ M3).
  auto 10.
Qed.

Lemma accepts_seq_inv r1 r2 w :
  accepts (Seq r1 r2) w ->
  exists w1 w2, w = w1 ++ w2 /\ accepts r1 w1 /\ accepts r2 w2.
Proof. intros H. inversion H; subst. eauto. Qed.

Lemma accepts_star_cls g ng items w :
  accepts (Star g (Cls ng items)) w ->
  Forall (fun c => cls_has ng items c = true) w.
Proof.
  intros H. remember (Star g (Cls ng items)) as r eqn:E.
  induction H; try discriminate.
  - constructor.
  - injection E as -> ->.
    match goal with H : accepts (Cls _ _) _ |- _ => inversion H; subst end.
    simpl. constructor; [assumption | auto].
Qed.

Lemma accepts_plus_cls ng items w :
  accepts (Plus (Cls ng items)) w ->
  exists c w', w = c :: w' /\ Forall (fun c => cls_has ng items c = true) (c :: w').
Proof.
  intros H. apply accepts_seq_inv in H. destruct H as (w1 & w2 & -> & H1 & H2).
  inversion H1; subst. apply accepts_star_cls in H2.
  eexists _, _. split; [reflexivity | ]. constructor; assumption.
Qed.

Lemma Forall_last (P : ascii -> Prop) c w :
  Forall P (c :: w) -> exists init d, c :: w = init ++ [d] /\ P d.
Proof.
  intros H. destruct (exists_last (l := c :: w)) as (init & d & E); [discriminate | ].
  exists init, d. split; [exact E | ].
  rewrite E in H. apply Forall_app in H. destruct H as [_ H]. inversion H; assumption.
Qed.

Lemma word_char_facts c :
  Char.is_word c = true ->
  Char.is_space c = false /\ Ascii.eqb ","%char c = false.
Proof.
  destruct c as [[] [] [] [] [] [] [] []]; vm_compute; intros H;
    first [discriminate H | split; reflexivity].
Qed.

Lemma spacing_char_facts c :
  cls_has false [ISpace; IChr ","%char] c = true -> Ascii.eqb "a"%char c = false.
Proof.
  destruct c as [[] [] [] [] [] [] [] []]; vm_compute; intros H;
    first [discriminate H | reflexivity].
Qed.

Lemma rstrip_last init c :
  Char.is_space c = false -> rstrip (init ++ [c]) = init ++ [c].
Proof.
  intros H. unfold rstrip. rewrite rev_app_distr. simpl. rewrite H.
  change (c :: rev init) with (rev [c] ++ rev init).
  rewrite <- rev_app_distr, rev_involutive. reflexivity.
Qed.

Lemma ends_with_last p init c :
  Ascii.eqb p c = false -> ends_with [p] (init ++ [c]) = false.
Proof.
  intros H. unfold ends_with. rewrite rev_app_distr. simpl. rewrite H. reflexivity.
Qed.

Lemma str_in_app_l sub u v : str_in sub u = true -> str_in sub (u ++ v) = true.
Proof.
  intros H. apply str_in_inv in H. destruct H as (a & b & ->).
  replace ((a ++ sub ++ b) ++ v) with (a ++ sub ++ (b ++ v))
    by (repeat rewrite <- app_assoc; reflexivity).
  apply str_in_intro.
Qed.

Lemma starts_with_app_cases p u c v :
  starts_with p (u ++ c :: v) = true -> starts_with p u = true \/ In c p.
Proof.
  revert u. induction p as [ | a p IH]; intros u H; [left; reflexivity | ].
  destruct u as [ | b u]; simpl in H.
  - apply andb_true_iff in H. destruct H as [E _].
    apply Ascii.eqb_eq in E. right. left. exact E.
  - apply andb_true_iff in H. destruct H as [E H].
    destruct (IH _ H) as [H' | H'].
    + left. simpl. rewrite E, H'. reflexivity.
    + right. right. exact H'.
Qed.

Lemma str_in_head sub s : starts_with sub s = true -> str_in sub s = true.
Proof. intros H. destruct s; simpl in *; rewrite H; reflexivity. Qed.

Lemma str_in_tail sub c s : str_in sub (c :: s) = false -> str_in sub s = false.
Proof. simpl. intros H. apply orb_false_iff in H. tauto. Qed.

(** Occurrences of [p] cannot begin in a stretch that does not contain
    [p] and is followed by a character foreign to [p]. *)
Lemma count_sub_skip p u c v :
  str_in p u = false -> ~ In c p ->
  count_sub p (u ++ c :: v) = count_sub p (c :: v).
Proof.
  intros Hu Hc. induction u as [ | b u IH]; [reflexivity | ].
  change ((b :: u) ++ c :: v) with (b :: (u ++ c :: v)).
  cbn [count_sub]. rewrite (IH (str_in_tail _ _ _ Hu)).
  destruct (starts_with p (b :: u ++ c :: v)) eqn:E; [ | reflexivity].
  exfalso. apply (starts_with_app_cases p (b :: u) c v) in E.
  destruct E as [E | E]; [ | tauto].
  apply str_in_head in E. congruence.
Qed.

Lemma count_sub_spacing w tail :
  Forall (fun c => cls_has false [ISpace; IChr ","%char] c = true) w ->
  count_sub (str "authorizer:") (w ++ tail) = count_sub (str "authorizer:") tail.
Proof.
  induction 1 as [ | c w Hc _ IH]; [reflexivity | ].
  change ((c :: w) ++ tail) with (c :: (w ++ tail)).
  cbn [count_sub]. rewrite IH.
  change (str "authorizer:") with ("a"%char :: str "uthorizer:").
  cbn [starts_with]. rewrite (spacing_char_facts _ Hc). reflexivity.
Qed.

Lemma count_sub_entry tail :
  count_sub (str "authorizer:") (str ", authorizer: httpAuthorizer" ++ tail) =
  1 + count_sub (str "authorizer:") tail.
Proof. reflexivity. Qed.

Lemma count_sub_absent p s : str_in p s = false -> count_sub p s = 0.
Proof.
  induction s as [ | x s IH]; cbn [str_in count_sub]; intros H.
  - rewrite orb_false_r in H. rewrite H. reflexivity.
  - apply orb_false_iff in H. destruct H as [-> H]. rewrite (IH H). reflexivity.
Qed.

Lemma route_match_shape s m :
  is_match FixAuthorizers.route_pattern s m ->
  exists prefix spacing,
    group0 m = prefix ++ spacing ++ str "}" /\
    group m 1 = Some prefix /\ group m 2 = Some spacing /\
    group m 3 = Some (str "}") /\
    (exists init c, prefix = init ++ [c] /\ Char.is_word c = true) /\
    Forall (fun c => cls_has false [ISpace; IChr ","%char] c = true) spacing.
Proof.
  intros H. apply three_groups in H; try reflexivity.
  destruct H as (w1 & w2 & w3 & E0 & E1 & E2 & E3 & A1 & A2 & A3).
  inversion A3; subst. exists w1, w2. repeat split; try assumption.
  - cbn [cat] in A1.
    apply accepts_seq_inv in A1. destruct A1 as (u1 & v1 & -> & _ & A1).
    apply accepts_seq_inv in A1. destruct A1 as (u2 & v2 & -> & _ & A1).
    apply accepts_seq_inv in A1. destruct A1 as (u3 & v3 & -> & _ & A1).
    apply accepts_seq_inv in A1. destruct A1 as (u4 & v4 & -> & _ & A1).
    apply accepts_plus_cls in A1. destruct A1 as (c & w' & -> & Hw).
    apply Forall_last in Hw. destruct Hw as (init & d & -> & Hd).
    exists (u1 ++ u2 ++ u3 ++ u4 ++ init), d.
    split; [repeat rewrite <- app_assoc; reflexivity | ].
    unfold cls_has in Hd. simpl in Hd. rewrite orb_false_r in Hd. exact Hd.
  - apply accepts_star_cls in A2. exact A2.
Qed.

(** C10. For every route text that [re.sub] finds with [route_pattern]:
    when the text contains [authorizer:], or [OPTIONS], or one of the
    public auth paths, or begins with [//] once stripped, [add_authorizer]
    returns it unchanged. In every other case the text is a prefix (group
    1) that ends in a word character, a spacing of blanks and commas
    (group 2) and the closing brace, and the function returns the prefix,
    a comma, [ authorizer: httpAuthorizer], the spacing and the brace: the
    entry stands once, before the closing brace, and [authorizer:] occurs
    exactly once in what is returned. So the function never turns a route
    into one with two authorizer entries. *)
Theorem add_authorizer_inserts_once (content : text) (m : rematch) :
  In m (finditer FixAuthorizers.route_pattern content) ->
  let route := group0 m in
  (str_in (str "authorizer:") route = true \/
   str_in (str "OPTIONS") route = true \/
   existsb (fun path => str_in (str path) route) FixAuthorizers.public_paths = true \/
   starts_with (str "//") (strip route) = true ->
   FixAuthorizers.add_authorizer m = Ok route) /\
  (str_in (str "authorizer:") route = false ->
   str_in (str "OPTIONS") route = false ->
   existsb (fun path => str_in (str path) route) FixAuthorizers.public_paths = false ->
   starts_with (str "//") (strip route) = false ->
   exists prefix spacing,
     route = prefix ++ spacing ++ str "}" /\
     FixAuthorizers.add_authorizer m =
       Ok (prefix ++ str "," ++ str " authorizer: httpAuthorizer"
             ++ spacing ++ str "}") /\
     count_sub (str "authorizer:")
       (prefix ++ str "," ++ str " authorizer: httpAuthorizer"
          ++ spacing ++ str "}") = 1) /\
  (forall out, FixAuthorizers.add_authorizer m = Ok out ->
     out = route \/
     (count_sub (str "authorizer:") route = 0 /\
      count_sub (str "authorizer:") out = 1)).
Proof.
  intros Hm. apply finditer_is_match in Hm. cbv zeta.
  destruct (route_match_shape _ _ Hm)
    as (prefix & spacing & E0 & E1 & E2 & E3 & (init & c & Ep & Hc) & Hsp).
  destruct (word_char_facts _ Hc) as [Hns Hnc].
  assert (Hcount : str_in (str "authorizer:") (group0 m) = false ->
    count_sub (str "authorizer:")
      (prefix ++ str "," ++ str " authorizer: httpAuthorizer" ++ spacing ++ str "}") = 1).
  { intros Hno.
    change (str "," ++ str " authorizer: httpAuthorizer" ++ spacing ++ str "}")
      with (","%char :: (str " authorizer: httpAuthorizer" ++ spacing ++ str "}")).
    rewrite count_sub_skip.
    - change (","%char :: str " authorizer: httpAuthorizer" ++ spacing ++ str "}")
        with (str ", authorizer: httpAuthorizer" ++ spacing ++ str "}").
      rewrite count_sub_entry, (count_sub_spacing spacing _ Hsp). reflexivity.
    - destruct (str_in (str "authorizer:") prefix) eqn:E; [ | reflexivity].
      rewrite E0, (str_in_app_l _ _ _ E) in Hno. discriminate.
    - vm_compute. intuition discriminate. }
  assert (Hadd : str_in (str "authorizer:") (group0 m) = false ->
    FixAuthorizers.should_have_authorizer (group0 m) = true ->
    FixAuthorizers.add_authorizer m =
      Ok (prefix ++ str "," ++ str " authorizer: httpAuthorizer" ++ spacing ++ str "}")).
  { intros Hno Hshould. unfold FixAuthorizers.add_authorizer.
    rewrite Hno, Hshould, E1, E2, E3. simpl negb. cbv iota.
    rewrite Ep, (rstrip_last _ _ Hns), (ends_with_last _ _ _ Hnc). simpl.
    repeat rewrite <- app_assoc. reflexivity. }
  split; [ | split].
  - intros H. unfold FixAuthorizers.add_authorizer.
    destruct (str_in (str "authorizer:") (group0 m)) eqn:Ea; [reflexivity | ].
    assert (Hs : FixAuthorizers.should_have_authorizer (group0 m) = false).
    { unfold FixAuthorizers.should_have_authorizer.
      destruct H as [H | [H | [H | H]]]; [discriminate | | | ].
      - rewrite H, orb_true_r. reflexivity.
      - destruct (_ || _); [reflexivity | ]. rewrite H. reflexivity.
      - destruct (_ || _); [reflexivity | ].
        destruct (existsb _ _); [reflexivity | ]. rewrite H. reflexivity. }
    rewrite Hs. reflexivity.
  - intros Ha Ho Hp Hs. exists prefix, spacing.
    split; [exact E0 | ]. split; [ | exact (Hcount Ha)].
    apply Hadd; [exact Ha | ].
    unfold FixAuthorizers.should_have_authorizer. rewrite Ho, Hp, Hs.
    destruct (str_in (str "HttpMethod.OPTIONS") (group0 m)) eqn:E; [ | reflexivity].
    apply str_in_inv in E. destruct E as (a & b & E).
    assert (str_in (str "OPTIONS") (group0 m) = true); [ | congruence].
    rewrite E.
    replace (a ++ str "HttpMethod.OPTIONS" ++ b)
      with ((a ++ str "HttpMethod.") ++ str "OPTIONS" ++ b)
      by (repeat rewrite <- app_assoc; reflexivity).
    apply str_in_intro.
  - intros out Hout.
    destruct (str_in (str "authorizer:") (group0 m)) eqn:Ea.
    { left. unfold FixAuthorizers.add_authorizer in Hout. rewrite Ea in Hout.
      injection Hout as <-. reflexivity. }
    destruct (FixAuthorizers.should_have_authorizer (group0 m)) eqn:Es.
    + right. rewrite (Hadd eq_refl eq_refl) in Hout. injection Hout as <-.
      split; [ | exact (Hcount eq_refl)].
      apply count_sub_absent. exact Ea.
    + left. unfold FixAuthorizers.add_authorizer in Hout. rewrite Ea, Es in Hout.
      injection Hout as <-. reflexivity.
Qed.

Lemma add_authorizer_inserts_once_witness :
  let content :=
    str "httpApi.addRoutes({ path: '/pets', integration: petsIntegration });" in
  exists m, In m (finditer FixAuthorizers.route_pattern content) /\
    forall out, FixAuthorizers.add_authorizer m = Ok out ->
      out = group0 m \/
      (count_sub (str "authorizer:") (group0 m) = 0 /\
       count_sub (str "authorizer:") out = 1).
Proof.
  cbv zeta. eexists. split; [vm_compute; left; reflexivity | ].
  apply (add_authorizer_inserts_once
    (str "httpApi.addRoutes({ path: '/pets', integration: petsIntegration });")).
  vm_compute. left. reflexivity.
Defined.

(** ** The per-file functions and the loops over the files *)

Lemma rewrite_file_read_fails transform fs p e :
  read_text fs p = Raise e -> rewrite_file transform fs p = (0, fs).
Proof. intros H. unfold rewrite_file. rewrite H. reflexivity. Qed.

(** Opening for writing is refused: the files stay as they are. *)
Lemma write_text_refused fs p f t :
  fs !! p = Some f -> f_reachable f && f_writable f = false ->
  write_text fs p t = (fs, Some PermissionError).
Proof. intros Hf Hw. unfold write_text. rewrite Hf, Hw. reflexivity. Qed.

Lemma rewrite_file_open_fails transform fs p f :
  fs !! p = Some f -> f_reachable f && f_writable f = false ->
  rewrite_file transform fs p = (0, fs).
Proof.
  intros Hf Hw. unfold rewrite_file.
  destruct (read_text fs p) as [content | e]; [ | reflexivity].
  destruct (transform content) as [[new n] | e]; [ | reflexivity].
  destruct (negb (text_eqb new content)); [ | reflexivity].
  rewrite (write_text_refused _ _ _ _ Hf Hw). reflexivity.
Qed.

Lemma rewrite_file_transform_fails transform fs p content e :
  read_text fs p = Ok content -> transform content = Raise e ->
  rewrite_file transform fs p = (0, fs).
Proof. intros Hr Ht. unfold rewrite_file. rewrite Hr, Ht. reflexivity. Qed.

Lemma fix_file_read_fails fs p e :
  read_text fs p = Raise e -> FixThemeLineByLine.fix_file fs p = ((0, []), fs).
Proof. intros H. unfold FixThemeLineByLine.fix_file. rewrite H. reflexivity. Qed.

Lemma fix_file_open_fails fs p f :
  fs !! p = Some f -> f_reachable f && f_writable f = false ->
  FixThemeLineByLine.fix_file fs p = ((0, []), fs).
Proof.
  intros Hf Hw. unfold FixThemeLineByLine.fix_file.
  destruct (read_text fs p) as [content | e]; [ | reflexivity]. cbv zeta.
  destruct (FixThemeLineByLine.fix_lines 1 (readlines content)) as [new_lines [ | i changes]];
    [reflexivity | ].
  rewrite (write_text_refused _ _ _ _ Hf Hw). reflexivity.
Qed.

(** A file that may be opened for writing, on a device without limit,
    takes the whole text. *)
Lemma write_text_succeeds fs p f t :
  fs !! p = Some f -> f_reachable f && f_writable f = true -> f_room f = None ->
  write_text fs p t = (<[p := File (Some t) (f_readable f) true true None]> fs, None).
Proof.
  intros Hf Hw Hroom. unfold write_text, kept. rewrite Hf, Hw, Hroom.
  rewrite Nat.ltb_irrefl. reflexivity.
Qed.

(** Whatever way a write ends, the other files are as they were. *)
Lemma write_text_other fs p t q :
  q <> p -> fst (write_text fs p t) !! q = fs !! q.
Proof.
  intros Hq. unfold write_text.
  destruct (fs !! p) as [f | ].
  - destruct (f_reachable f && f_writable f); [ | reflexivity].
    apply lookup_insert_ne. congruence.
  - apply lookup_insert_ne. congruence.
Qed.

Lemma read_text_local fs1 fs2 p :
  fs1 !! p = fs2 !! p -> read_text fs1 p = read_text fs2 p.
Proof. unfold read_text. intros ->. reflexivity. Qed.

(** Writing depends on the file at [p] only, and decides the file at [p]. *)
Lemma write_text_local fs1 fs2 p t :
  fs1 !! p = fs2 !! p ->
  snd (write_text fs1 p t) = snd (write_text fs2 p t) /\
  fst (write_text fs1 p t) !! p = fst (write_text fs2 p t) !! p.
Proof.
  unfold write_text. intros H. rewrite H.
  destruct (fs2 !! p) as [f | ] eqn:Ef.
  - destruct (f_reachable f && f_writable f); cbn [fst snd].
    + rewrite !lookup_insert_eq. auto.
    + split; [reflexivity | ]. rewrite Ef. exact H.
  - cbn [fst snd]. rewrite !lookup_insert_eq. auto.
Qed.

Lemma fix_file_other fs p q :
  q <> p -> snd (FixThemeLineByLine.fix_file fs p) !! q = fs !! q.
Proof.
  intros Hq. unfold FixThemeLineByLine.fix_file.
  destruct (read_text fs p) as [content | e]; [ | reflexivity]. cbv zeta.
  destruct (FixThemeLineByLine.fix_lines 1 (readlines content)) as [new_lines [ | i changes]];
    [reflexivity | ].
  pose proof (write_text_other fs p (concat new_lines) q Hq) as H.
  destruct (write_text fs p (concat new_lines)) as [fs' [e | ]]; exact H.
Qed.

Lemma fix_file_local fs1 fs2 p :
  fs1 !! p = fs2 !! p ->
  fst (FixThemeLineByLine.fix_file fs1 p) = fst (FixThemeLineByLine.fix_file fs2 p) /\
  snd (FixThemeLineByLine.fix_file fs1 p) !! p =
  snd (FixThemeLineByLine.fix_file fs2 p) !! p.
Proof.
  intros H. unfold FixThemeLineByLine.fix_file.
  rewrite (read_text_local _ _ _ H).
  destruct (read_text fs2 p) as [content | e]; [ | auto]. cbv zeta.
  destruct (FixThemeLineByLine.fix_lines 1 (readlines content)) as [new_lines [ | i changes]];
    [auto | ].
  destruct (write_text_local fs1 fs2 p (concat new_lines) H) as [Hw1 Hw2].
  destruct (write_text fs1 p (concat new_lines)) as [a [e1 | ]],
           (write_text fs2 p (concat new_lines)) as [b [e2 | ]];
    cbn [fst snd] in *; try discriminate; auto.
Qed.

Lemma theme_main_loop_other files :
  forall fs q, ~ In q files ->
    snd (FixThemeLineByLine.main_loop files fs) !! q = fs !! q.
Proof.
  induction files as [ | f files IH]; intros fs q Hq; [reflexivity | ].
  simpl. destruct (is_test_path f).
  - apply IH. intros Hin. apply Hq. right. exact Hin.
  - destruct (FixThemeLineByLine.fix_file fs f) as [[n l] fs1] eqn:E1.
    destruct (FixThemeLineByLine.main_loop files fs1) as [[a b] fs2] eqn:E2.
    assert (fs2 !! q = fs !! q).
    { replace fs2 with (snd (FixThemeLineByLine.main_loop files fs1)) by (rewrite E2; reflexivity).
      rewrite IH by (intros Hin; apply Hq; right; exact Hin).
      replace fs1 with (snd (FixThemeLineByLine.fix_file fs f)) by (rewrite E1; reflexivity).
      apply fix_file_other. intros ->. apply Hq. left. reflexivity. }
    destruct (0 <? n); exact H.
Qed.

Lemma theme_main_loop_independent files :
  List.NoDup files ->
  forall fs,
    (forall p, In p files -> is_test_path p = false ->
       snd (FixThemeLineByLine.main_loop files fs) !! p =
       snd (FixThemeLineByLine.fix_file fs p) !! p) /\
    fst (FixThemeLineByLine.main_loop files fs) =
      (length (List.filter (fun p => negb (is_test_path p) && (0 <? lines_changed_of fs p)) files),
       list_sum (map (fun p => if is_test_path p then 0 else lines_changed_of fs p) files)).
Proof.
  induction 1 as [ | f files Hf Hnd IH]; intros fs.
  - split; [intros p [] | reflexivity].
  - assert (Hsame : forall fs1, (forall q, q <> f -> fs1 !! q = fs !! q) ->
      forall p, In p files ->
        lines_changed_of fs1 p = lines_changed_of fs p /\
        snd (FixThemeLineByLine.fix_file fs1 p) !! p =
        snd (FixThemeLineByLine.fix_file fs p) !! p).
    { intros fs1 H1 p Hp. unfold lines_changed_of.
      assert (E : fs1 !! p = fs !! p) by (apply H1; intros ->; contradiction).
      destruct (fix_file_local _ _ _ E) as [-> ->]. auto. }
    simpl. destruct (is_test_path f) eqn:Et.
    + destruct (IH fs) as [IHa IHb]. split.
      * intros p [<- | Hp] Hnt; [congruence | auto].
      * rewrite IHb. reflexivity.
    + destruct (FixThemeLineByLine.fix_file fs f) as [[n l] fs1] eqn:E1.
      assert (H1 : forall q, q <> f -> fs1 !! q = fs !! q).
      { intros q Hq.
        replace fs1 with (snd (FixThemeLineByLine.fix_file fs f)) by (rewrite E1; reflexivity).
        apply fix_file_other. exact Hq. }
      destruct (IH fs1) as [IHa IHb].
      destruct (FixThemeLineByLine.main_loop files fs1) as [[a b] fs2] eqn:E2.
      simpl in IHa, IHb.
      assert (Hn : lines_changed_of fs f = n) by (unfold lines_changed_of; rewrite E1; reflexivity).
      assert (Ea : a = length (List.filter (fun p => negb (is_test_path p) && (0 <? lines_changed_of fs p)) files)).
      { injection IHb as -> _. f_equal. apply filter_ext_in. intros p Hp.
        destruct (Hsame fs1 H1 p Hp) as [-> _]. reflexivity. }
      assert (Eb : b = list_sum (map (fun p => if is_test_path p then 0 else lines_changed_of fs p) files)).
      { injection IHb as _ ->. f_equal. apply map_ext_in. intros p Hp.
        destruct (Hsame fs1 H1 p Hp) as [-> _]. reflexivity. }
      split.
      * intros p Hp Hnt.
        assert (Hfs2 : fs2 !! p = snd (FixThemeLineByLine.fix_file fs p) !! p).
        { destruct Hp as [<- | Hp].
          - replace fs2 with (snd (FixThemeLineByLine.main_loop files fs1)) by (rewrite E2; reflexivity).
            rewrite theme_main_loop_other by exact Hf. rewrite E1. reflexivity.
          - rewrite (IHa p Hp Hnt). apply (Hsame fs1 H1 p Hp). }
        destruct (0 <? n); exact Hfs2.
      * rewrite Hn. rewrite <- Eb. simpl negb. cbv beta iota. simpl andb.
        destruct (0 <? n) eqn:En; simpl; rewrite <- Ea; [reflexivity | ].
        apply Nat.ltb_ge in En. assert (n = 0) as -> by lia. reflexivity.
Qed.

Lemma text_eqb_refl t : text_eqb t t = true.
Proof. unfold text_eqb. apply bool_decide_eq_true. reflexivity. Qed.

Lemma text_eqb_eq a b : text_eqb a b = true <-> a = b.
Proof. unfold text_eqb. apply bool_decide_eq_true. Qed.

Lemma re_subn_no_match r template s :
  finditer r s = [] -> re_subn r template s = (s, 0).
Proof. unfold re_subn. intros ->. reflexivity. Qed.

Lemma apply_all_no_match table content n :
  (forall p r, In (p, r) table -> finditer p content = []) ->
  UpdateDarkMode.apply_all table content n = (content, n).
Proof.
  induction table as [ | [p r] table IH]; intros H; simpl; [reflexivity | ].
  unfold re_sub. rewrite (re_subn_no_match _ _ _ (H p r (or_introl eq_refl))). simpl.
  rewrite text_eqb_refl. simpl. apply IH.
  intros p' r' Hin. apply (H p' r'). right. exact Hin.
Qed.

Lemma rewrite_file_unchanged transform fs p content n :
  read_text fs p = Ok content -> transform content = Ok (content, n) ->
  rewrite_file transform fs p = (0, fs).
Proof.
  intros Hr Ht. unfold rewrite_file. rewrite Hr. simpl. rewrite Ht. simpl.
  rewrite text_eqb_refl. reflexivity.
Qed.

Lemma fix_lines_no_match lines :
  (forall line p d, In line lines -> In (p, d) FixThemeLineByLine.THEME_PAIRS ->
     re_search p line = None) ->
  forall i, FixThemeLineByLine.fix_lines i lines = (lines, []).
Proof.
  induction lines as [ | line lines IH]; intros H i; simpl; [reflexivity | ].
  unfold FixThemeLineByLine.fix_line.
  rewrite fix_loop_unchanged by (intros p d; apply H; left; reflexivity).
  rewrite IH by (intros l p d Hl; apply H; right; exact Hl). reflexivity.
Qed.

(** ** Counting the replacements *)

Lemma re_sub_no_match r template s : finditer r s = [] -> re_sub r template s = s.
Proof. intros H. unfold re_sub. rewrite (re_subn_no_match _ _ _ H). reflexivity. Qed.

Lemma subn_all_counts table :
  forall content n,
    subn_all table content n =
    (rewritten table content, n + matches_replaced table content).
Proof.
  induction table as [ | [p r] table IH]; intros content n; simpl.
  - f_equal. lia.
  - destruct (finditer p content) as [ | m ms] eqn:E.
    + simpl. rewrite IH, (re_sub_no_match _ _ _ E). reflexivity.
    + cbn [length Nat.ltb Nat.leb]. rewrite IH. unfold re_sub, re_subn. rewrite E.
      cbn [fst length]. f_equal. lia.
Qed.

Lemma slice_length s i j : i <= j -> j <= length s -> length (slice s i j) = j - i.
Proof. intros Hij Hj. unfold slice. rewrite length_take, length_drop. lia. Qed.

Lemma assemble_length template s k ms :
  (forall m, In m ms -> m_end m <= m_start m + k) ->
  forall i, spans_ok i ms (length s) ->
    (length s - i) + length ms * length template
    <= length (assemble (fun _ => template) s i ms) + length ms * k.
Proof.
  induction ms as [ | m ms IH]; intros Hk i Hs; simpl in *.
  - rewrite length_drop. lia.
  - destruct Hs as (H1 & H2 & H3 & H4).
    rewrite !length_app, slice_length by lia.
    specialize (IH (fun m' Hm' => Hk m' (or_intror Hm')) _ H4).
    specialize (Hk m (or_introl eq_refl)). lia.
Qed.

Lemma is_match_max_len r s m n :
  is_match r s m -> max_len r = Some n -> m_end m <= m_start m + n.
Proof.
  intros H Hn. destruct (is_match_group0 _ _ _ H) as (a & w & b & _ & _ & A & _ & ->).
  pose proof (accepts_max_len _ _ _ A Hn). lia.
Qed.

(** A rule that grows changes every text in which it finds a match. *)
Lemma grows_changes p template s :
  grows (p, template) = true -> finditer p s <> [] -> re_sub p template s <> s.
Proof.
  unfold grows. simpl. destruct (max_len p) as [k | ] eqn:Ek; [ | discriminate].
  intros Hg Hne Heq. apply Nat.ltb_lt in Hg.
  pose proof (assemble_length template s k (finditer p s)
    (fun m Hm => is_match_max_len _ _ _ _ (finditer_is_match _ _ _ Hm) Ek)
    0 (finditer_spans p s)) as Hlen.
  unfold re_sub, re_subn in Heq. simpl in Heq. rewrite Heq in Hlen.
  destruct (finditer p s) as [ | m ms]; [congruence | ]. simpl in Hlen. nia.
Qed.

Lemma apply_all_counts table :
  forallb grows table = true ->
  forall content n,
    UpdateDarkMode.apply_all table content n =
    (rewritten table content, n + matches_replaced table content).
Proof.
  induction table as [ | [p r] table IH]; intros Hg content n; simpl.
  - f_equal. lia.
  - simpl in Hg. apply andb_true_iff in Hg. destruct Hg as [Hp Hg].
    destruct (finditer p content) as [ | m ms] eqn:E.
    + rewrite (re_sub_no_match _ _ _ E), text_eqb_refl. simpl. apply IH. exact Hg.
    + destruct (text_eqb (re_sub p r content) content) eqn:Eq.
      * apply text_eqb_eq in Eq. exfalso.
        apply (grows_changes p r content Hp); [rewrite E; discriminate | exact Eq].
      * simpl. rewrite (IH Hg). unfold re_findall. rewrite length_map, E.
        f_equal. simpl. lia.
Qed.

(** A table of rules that grow changes the text as soon as one match is
    replaced. *)
Lemma rewritten_changes table :
  forallb grows table = true ->
  forall content, 0 < matches_replaced table content ->
    length content < length (rewritten table content).
Proof.
  induction table as [ | [p r] table IH]; intros Hg content Hpos; simpl in *; [lia | ].
  apply andb_true_iff in Hg. destruct Hg as [Hp Hg].
  assert (Hmono : forall c, length c <= length (rewritten table c)).
  { intros c. destruct (matches_replaced table c) eqn:E.
    - clear - E. revert c E. induction table as [ | [p' r'] table IH']; intros c E; simpl in *; [lia | ].
      assert (finditer p' c = []) as E0 by (destruct (finditer p' c); [reflexivity | simpl in E; lia]).
      rewrite (re_sub_no_match _ _ _ E0) in *. rewrite E0 in E. apply IH'. exact E.
    - specialize (IH Hg c). lia. }
  destruct (finditer p content) as [ | m ms] eqn:E.
  - rewrite (re_sub_no_match _ _ _ E) in *. apply IH; [exact Hg | simpl in Hpos; lia].
  - assert (length content < length (re_sub p r content)).
    { unfold grows in Hp. simpl in Hp. destruct (max_len p) as [k | ] eqn:Ek; [ | discriminate].
      apply Nat.ltb_lt in Hp.
      pose proof (assemble_length r content k (finditer p content)
        (fun m Hm => is_match_max_len _ _ _ _ (finditer_is_match _ _ _ Hm) Ek)
        0 (finditer_spans p content)) as Hlen.
      rewrite E in Hlen. unfold re_sub, re_subn. simpl. rewrite E.
      simpl in Hlen. simpl. nia. }
    specialize (Hmono (re_sub p r content)). lia.
Qed.

Lemma fix_loop_flag pairs :
  forall line ch,
    snd (FixThemeLineByLine.fix_loop pairs line ch) =
    ch || (0 <? FixThemeLineByLine.replaced pairs line).
Proof.
  induction pairs as [ | e pairs IH]; intros line ch; simpl.
  - rewrite orb_false_r. reflexivity.
  - destruct (FixThemeLineByLine.fix_step e line) as [line' | ]; rewrite IH.
    + simpl. rewrite orb_true_r. reflexivity.
    + reflexivity.
Qed.

Lemma fix_line_flag line :
  snd (FixThemeLineByLine.fix_line line) =
  (0 <? FixThemeLineByLine.replaced FixThemeLineByLine.THEME_PAIRS line).
Proof. unfold FixThemeLineByLine.fix_line. rewrite fix_loop_flag. reflexivity. Qed.

Lemma fix_lines_flags lines :
  forall i,
    length (snd (FixThemeLineByLine.fix_lines i lines)) =
    length (List.filter (fun l => snd (FixThemeLineByLine.fix_line l)) lines).
Proof.
  induction lines as [ | line lines IH]; intros i; [reflexivity | ].
  cbn [FixThemeLineByLine.fix_lines List.filter].
  destruct (FixThemeLineByLine.fix_line line) as [new_line changed].
  specialize (IH (S i)).
  destruct (FixThemeLineByLine.fix_lines (S i) lines) as [new_lines line_changes].
  cbn [snd] in *. destruct changed; cbn [length]; rewrite IH; reflexivity.
Qed.

Lemma fix_lines_count lines i :
  length (snd (FixThemeLineByLine.fix_lines i lines)) =
  length (List.filter
            (fun l => 0 <? FixThemeLineByLine.replaced FixThemeLineByLine.THEME_PAIRS l)
            lines).
Proof.
  rewrite fix_lines_flags. f_equal. apply filter_ext. intros l. apply fix_line_flag.
Qed.

Lemma filter_count_le_sum (f : text -> nat) lines :
  length (List.filter (fun l => 0 <? f l) lines) <= list_sum (map f lines).
Proof.
  induction lines as [ | l lines IH]; simpl; [lia | ].
  destruct (0 <? f l) eqn:E; simpl; [apply Nat.ltb_lt in E | ]; lia.
Qed.

Lemma rewrite_file_count transform table fs p content :
  forallb grows table = true ->
  (forall c, transform c = Ok (rewritten table c, matches_replaced table c)) ->
  read_text fs p = Ok content ->
  (forall t, exists fs', write_text fs p t = (fs', None)) ->
  fst (rewrite_file transform fs p) = matches_replaced table content.
Proof.
  intros Hg Ht Hr Hw. unfold rewrite_file. rewrite Hr. simpl. rewrite Ht. simpl.
  destruct (text_eqb (rewritten table content) content) eqn:E; simpl.
  - apply text_eqb_eq in E.
    destruct (matches_replaced table content) eqn:En; [reflexivity | exfalso].
    pose proof (rewritten_changes table Hg content ltac:(lia)) as Hlt.
    rewrite E in Hlt. lia.
  - destruct (Hw (rewritten table content)) as [fs' ->]. reflexivity.
Qed.

Lemma subn_all_counts_0 table content :
  subn_all table content 0 =
  (rewritten table content, matches_replaced table content).
Proof. apply subn_all_counts. Qed.

Lemma three_loops t1 t2 t3 content :
  (let '(c, n) := subn_all t1 content 0 in
   let '(c, n) := subn_all t2 c n in subn_all t3 c n) =
  subn_all (t1 ++ t2 ++ t3) content 0.
Proof.
  rewrite subn_all_app. destruct (subn_all t1 content 0) as [c1 n1].
  rewrite subn_all_app. reflexivity.
Qed.

Lemma colored_update_content content :
  FixColoredBackgrounds.update_content content =
  (rewritten colored_rules content, matches_replaced colored_rules content).
Proof.
  unfold FixColoredBackgrounds.update_content, colored_rules.
  rewrite three_loops. apply subn_all_counts_0.
Qed.

(** C7, where the sentence of the specification fails: [fix_file] on a one-line file with two
    light classes. Two [replace] statements run, and the count returned
    is 1, the number of changed lines. *)
Lemma fix_file_counts_lines :
  let content := str "bg-white text-gray-900" in
  let fs : fsys := {[ "a.jsx" := File (Some content) true true true None ]} in
  fst (fst (FixThemeLineByLine.fix_file fs "a.jsx")) = 1 /\
  list_sum (map (FixThemeLineByLine.replaced FixThemeLineByLine.THEME_PAIRS)
              (readlines content)) = 2 /\
  snd (FixThemeLineByLine.fix_file fs "a.jsx") !! "a.jsx" =
    Some (File (Some (str "bg-white dark:bg-surface-primary text-gray-900 dark:text-text-primary"))
            true true true None) /\
  fst (fst (FixThemeLineByLine.fix_file fs "a.jsx")) <>
  list_sum (map (FixThemeLineByLine.replaced FixThemeLineByLine.THEME_PAIRS)
              (readlines content)).
Proof.
  cbv zeta. split; [vm_compute; reflexivity | ].
  split; [vm_compute; reflexivity | ].
  split; [vm_compute; reflexivity | ].
  vm_compute. discriminate.
Qed.

(** C7 as amended. In the scripts built on [re.sub] and [re.subn]
    ([fix_all_dark_mode.py], [fix_colored_backgrounds.py],
    [update_dark_mode.py]) the count for a text is exactly the number of
    matches replaced, rule after rule, each rule counting its matches in
    the text as the earlier rules left it; an occurrence that the
    lookahead excludes is no match and adds nothing; and [update_file]
    returns that count for a file it can read and write. [fix_file] of
    [fix_theme_line_by_line.py] counts lines instead: the lines on which
    at least one replacement ran, at most the number of replacements. With
    no replacement every count is 0. *)
Theorem change_count_semantics :
  (forall content,
     FixAllDarkMode.update_content content =
       (rewritten FixAllDarkMode.replacements content,
        matches_replaced FixAllDarkMode.replacements content)) /\
  (forall content,
     FixColoredBackgrounds.update_content content =
       (rewritten colored_rules content, matches_replaced colored_rules content)) /\
  (forall content,
     UpdateDarkMode.update_content content =
       (rewritten UpdateDarkMode.REPLACEMENTS content,
        matches_replaced UpdateDarkMode.REPLACEMENTS content)) /\
  (forall fs p content,
     read_text fs p = Ok content ->
     (forall t, exists fs', write_text fs p t = (fs', None)) ->
     fst (FixAllDarkMode.update_file fs p) =
       matches_replaced FixAllDarkMode.replacements content /\
     fst (FixColoredBackgrounds.update_file fs p) =
       matches_replaced colored_rules content /\
     fst (UpdateDarkMode.update_file fs p) =
       matches_replaced UpdateDarkMode.REPLACEMENTS content) /\
  matches_replaced FixAllDarkMode.replacements
    (str "bg-white dark:bg-surface-primary bg-white") = 1 /\
  (forall fs p content,
     read_text fs p = Ok content ->
     (forall t, exists fs', write_text fs p t = (fs', None)) ->
     let lines := readlines content in
     let replaced_in l :=
       FixThemeLineByLine.replaced FixThemeLineByLine.THEME_PAIRS l in
     fst (fst (FixThemeLineByLine.fix_file fs p)) =
       length (List.filter (fun l => 0 <? replaced_in l) lines) /\
     fst (fst (FixThemeLineByLine.fix_file fs p)) <= list_sum (map replaced_in lines)).
Proof.
  assert (H1 : forall content,
     FixAllDarkMode.update_content content =
       (rewritten FixAllDarkMode.replacements content,
        matches_replaced FixAllDarkMode.replacements content))
    by (intros; apply subn_all_counts).
  assert (H3 : forall content,
     UpdateDarkMode.update_content content =
       (rewritten UpdateDarkMode.REPLACEMENTS content,
        matches_replaced UpdateDarkMode.REPLACEMENTS content))
    by (intros; apply apply_all_counts; vm_compute; reflexivity).
  split; [exact H1 | ]. split; [exact colored_update_content | ].
  split; [exact H3 | ]. split; [ | split; [vm_compute; reflexivity | ]].
  - intros fs p content Hr Hw. split; [ | split].
    + eapply rewrite_file_count; try eassumption;
        [vm_compute; reflexivity | intros c; rewrite H1; reflexivity].
    + eapply rewrite_file_count; try eassumption;
        [vm_compute; reflexivity | intros c; rewrite colored_update_content; reflexivity].
    + eapply rewrite_file_count; try eassumption;
        [vm_compute; reflexivity | intros c; rewrite H3; reflexivity].
  - intros fs p content Hr Hw. cbv zeta.
    assert (E : fst (fst (FixThemeLineByLine.fix_file fs p)) =
                length (snd (FixThemeLineByLine.fix_lines 1 (readlines content)))).
    { unfold FixThemeLineByLine.fix_file. rewrite Hr. simpl.
      destruct (FixThemeLineByLine.fix_lines 1 (readlines content))
        as [new_lines [ | i changes]]; [reflexivity | ].
      destruct (Hw (concat new_lines)) as [fs' ->]. reflexivity. }
    rewrite E, fix_lines_count. split; [reflexivity | apply filter_count_le_sum].
Qed.

Lemma change_count_witness :
  let fs : fsys :=
    {[ "a.jsx" := File (Some (str "bg-white text-gray-900")) true true true None ]} in
  fst (FixAllDarkMode.update_file fs "a.jsx") = 2.
Proof.
  cbv zeta.
  destruct change_count_semantics as (_ & _ & _ & H & _).
  match goal with |- fst (FixAllDarkMode.update_file ?fs _) = _ =>
    destruct (H fs "a.jsx" (str "bg-white text-gray-900")) as (-> & _)
  end.
  - vm_compute. reflexivity.
  - intros t. eexists.
    apply (write_text_succeeds _ _
             (File (Some (str "bg-white text-gray-900")) true true true None));
      reflexivity.
  - vm_compute. reflexivity.
Defined.

(** ** Dark classes stay on the line *)

Lemma ends_with_intro t p : ends_with p (t ++ p) = true.
Proof. unfold ends_with. rewrite rev_app_distr. apply starts_with_app. Qed.

Lemma accepts_words r w : finite r = true -> accepts r w -> In w (words r).
Proof.
  intros Hf H. induction H; simpl in *; try discriminate; auto.
  - apply andb_true_iff in Hf. destruct Hf as [F1 F2].
    apply in_flat_map. exists w1. split; [auto | ]. apply in_map. auto.
  - apply andb_true_iff in Hf. destruct Hf as [F1 F2]. apply in_or_app. auto.
  - apply andb_true_iff in Hf. destruct Hf as [F1 F2]. apply in_or_app. auto.
Qed.

Lemma clash_intro light dark l l2 :
  dark = l ++ l2 -> l <> [] -> l2 <> [] ->
  ends_with l light = true \/ ends_with light l = true ->
  clash light dark = true.
Proof.
  intros -> Hl Hl2 H. unfold clash. apply existsb_exists. exists (length l).
  split.
  - apply in_seq. rewrite length_app.
    destruct l; [congruence | ]. destruct l2; [congruence | ]. simpl. lia.
  - cbv zeta. rewrite take_app_length. apply orb_true_iff. exact H.
Qed.

(** Putting text right after an occurrence of [light] keeps every [dark]
    that [light] does not clash with. *)
Lemma insert_keeps a light ins b dark :
  clash light dark = false ->
  str_in dark (a ++ light ++ b) = true ->
  str_in dark (a ++ (light ++ ins) ++ b) = true.
Proof.
  intros Hc H. apply str_in_inv in H. destruct H as (x & y & E).
  rewrite app_assoc in E.
  apply app_eq_app in E. destruct E as [l [[E1 E2] | [E1 E2]]].
  - apply app_eq_app in E2. destruct E2 as [l2 [[E3 E4] | [E3 E4]]].
    + (* dark = l ++ l2, the cut falls inside dark unless one part is empty *)
      destruct l as [ | c l].
      { simpl in E3. subst l2 b.
        replace (a ++ (light ++ ins) ++ dark ++ y)
          with ((a ++ light ++ ins) ++ dark ++ y)
          by (repeat rewrite <- app_assoc; reflexivity).
        apply str_in_intro. }
      destruct l2 as [ | c2 l2].
      { rewrite app_nil_r in E3. subst dark.
        replace (a ++ (light ++ ins) ++ b) with ((a ++ light) ++ ins ++ b)
          by (repeat rewrite <- app_assoc; reflexivity).
        rewrite E1, <- app_assoc. apply str_in_intro. }
      exfalso.
      assert (clash light dark = true); [ | congruence].
      apply (clash_intro light dark (c :: l) (c2 :: l2) E3); try discriminate.
      apply app_eq_app in E1. destruct E1 as [k [[E5 E6] | [E5 E6]]].
      * right. rewrite E6. apply ends_with_intro.
      * left. rewrite E6. apply ends_with_intro.
    + subst l.
      replace (a ++ (light ++ ins) ++ b) with ((a ++ light) ++ ins ++ b)
        by (repeat rewrite <- app_assoc; reflexivity).
      rewrite E1. repeat rewrite <- app_assoc. apply str_in_intro.
  - subst b x.
    replace (a ++ (light ++ ins) ++ l ++ dark ++ y)
      with ((a ++ light ++ ins ++ l) ++ dark ++ y)
      by (repeat rewrite <- app_assoc; reflexivity).
    apply str_in_intro.
Qed.

Lemma clash_free_spec table p d' d light :
  clash_free table = true -> In (p, d') table -> In d (map snd table) ->
  accepts p light -> clash light d = false.
Proof.
  unfold clash_free. rewrite forallb_forall. intros H Hp Hd Ha.
  specialize (H _ Hp). simpl in H. apply andb_true_iff in H. destruct H as [Hf H].
  rewrite forallb_forall in H. specialize (H _ (accepts_words _ _ Hf Ha)).
  rewrite forallb_forall in H. apply in_map_iff in Hd. destruct Hd as ([p' d0] & <- & Hin).
  specialize (H _ Hin). simpl in H. apply negb_true_iff in H. exact H.
Qed.

Lemma fix_step_keeps table p d' d line line' :
  clash_free table = true -> In (p, d') table -> In d (map snd table) ->
  FixThemeLineByLine.fix_step (p, d') line = Some line' ->
  str_in d line = true -> str_in d line' = true.
Proof.
  intros Hcf Hp Hd Hs Hin. apply fix_step_inserts in Hs.
  destruct Hs as (_ & m & a & b & Hm & -> & ->).
  apply insert_keeps; [ | exact Hin].
  apply re_search_is_match in Hm.
  destruct (is_match_group0 _ _ _ Hm) as (a' & w & b' & _ & -> & Ha & _).
  eapply clash_free_spec; eassumption.
Qed.

Lemma fix_loop_keeps table d pairs :
  clash_free table = true -> In d (map snd table) -> incl pairs table ->
  forall line ch, str_in d line = true ->
    str_in d (fst (FixThemeLineByLine.fix_loop pairs line ch)) = true.
Proof.
  intros Hcf Hd. induction pairs as [ | [p d'] pairs IH]; intros Hincl line ch Hin; [exact Hin | ].
  assert (Hrest : incl pairs table) by (intros e He; apply Hincl; right; exact He).
  cbn [FixThemeLineByLine.fix_loop].
  destruct (FixThemeLineByLine.fix_step (p, d') line) as [line' | ] eqn:E.
  - apply IH; [exact Hrest | ].
    eapply fix_step_keeps; try eassumption. apply Hincl. left. reflexivity.
  - apply IH; assumption.
Qed.



(** The dark classes of [THEME_PAIRS] hold no light class of the table
    astride their ends. *)
Lemma theme_pairs_clash_free : clash_free FixThemeLineByLine.THEME_PAIRS = true.
Proof. vm_compute. reflexivity. Qed.

(** ** The lookahead guard *)








Lemma fix_lines_fst lines :
  forall i,
    fst (FixThemeLineByLine.fix_lines i lines) =
    map (fun l => fst (FixThemeLineByLine.fix_line l)) lines.
Proof.
  induction lines as [ | line lines IH]; intros i; [reflexivity | ].
  cbn [FixThemeLineByLine.fix_lines map].
  destruct (FixThemeLineByLine.fix_line line) as [new_line changed].
  specialize (IH (S i)).
  destruct (FixThemeLineByLine.fix_lines (S i) lines) as [new_lines line_changes].
  cbn [fst] in *. rewrite IH. reflexivity.
Qed.





(** ** Line by line against the whole file *)

Lemma readlines_shape T :
  forall line, In line (readlines T) ->
    forall u v, line = u ++ nl :: v -> v = [].
Proof.
  induction T as [ | c T IH]; intros line Hin u v E; [destruct Hin | ].
  cbn [readlines] in Hin. destruct (Ascii.eqb c nl) eqn:Ec.
  - destruct Hin as [<- | Hin]; [ | eapply IH; eassumption].
    destruct u as [ | x [ | y u]]; simpl in E; try discriminate.
    injection E as _ <-. reflexivity.
  - apply Ascii.eqb_neq in Ec. destruct (readlines T) as [ | l ls] eqn:El.
    + destruct Hin as [<- | []].
      destruct u as [ | x [ | y u]]; simpl in E; try discriminate.
      injection E as E _. congruence.
    + destruct Hin as [<- | Hin].
      * destruct u as [ | x u]; simpl in E.
        -- injection E as E _. congruence.
        -- injection E as _ E. apply (IH l (or_introl eq_refl) u v E).
      * apply (IH line (or_intror Hin) u v E).
Qed.

Lemma across_lines_no_match_in_line r T line :
  only_across_lines r -> In line (readlines T) -> finditer r line = [].
Proof.
  intros Hr Hin. destruct (finditer r line) as [ | m ms] eqn:E; [reflexivity | exfalso].
  assert (Hm : is_match r line m)
    by (apply finditer_is_match; rewrite E; left; reflexivity).
  destruct (Hr _ _ Hm) as (u & v & Eg & Hv).
  destruct (is_match_group0 _ _ _ Hm) as (a & w & b & El & Ew & _).
  rewrite Ew in Eg. subst w.
  apply Hv. apply (app_eq_nil v b).
  apply (readlines_shape T line Hin (a ++ u)).
  rewrite El. repeat rewrite <- app_assoc. reflexivity.
Qed.

(** C5. A matcher that can only match text split over two lines finds
    nothing in any line of any text, when the text is taken line by line
    as [fix_file] of [fix_theme_line_by_line.py] takes it. The pattern of
    [fix_multiline_inputs.py] needs a [<] and two
    double quotes in its match, so a line that lacks either has no match,
    whatever the other lines hold. On an element split over two lines, for
    each of the three tags: the text is two lines, neither line has a
    match (and the substitution run on a line alone returns it as it is),
    while the whole text has exactly one match, which starts at the tag,
    runs over the line feed, and is the one that [fix_file_content]
    rewrites. *)
Theorem scope_correctness :
  (forall r T line,
     only_across_lines r -> In line (readlines T) -> finditer r line = []) /\
  (forall tag line,
     In tag ["input"; "select"; "textarea"] ->
     ~ In "<"%char line \/ count_occ ascii_dec line dq <= 1 ->
     finditer (FixMultilineInputs.pattern tag) line = [] /\
     re_sub_with (FixMultilineInputs.pattern tag) FixMultilineInputs.add_bg line = Ok line) /\
  (forall tag,
     In tag ["input"; "select"; "textarea"] ->
     let whole := split_element tag "border p-2" in
     length (readlines whole) = 2 /\
     (forall line, In line (readlines whole) ->
        finditer (FixMultilineInputs.pattern tag) line = [] /\
        FixMultilineInputs.fix_file_content line = Ok line) /\
     (exists m, finditer (FixMultilineInputs.pattern tag) whole = [m] /\
                m_start m = 0 /\ In nl (group0 m)) /\
     FixMultilineInputs.fix_file_content whole =
       Ok (split_element tag "bg-white dark:bg-surface-primary border p-2")).
Proof.
  split; [exact across_lines_no_match_in_line | ].
  split.
  - intros tag line Htag Hline.
    assert (E : finditer (FixMultilineInputs.pattern tag) line = []).
    { simpl in Htag.
      destruct Hline as [Hlt | Hq].
      - apply (too_few_no_match "<"%char).
        rewrite (count_occ_not_In ascii_dec) in Hlt. rewrite Hlt.
        destruct Htag as [<- | [<- | [<- | []]]]; vm_compute; lia.
      - apply (too_few_no_match dq).
        assert (min_count dq (FixMultilineInputs.pattern tag) = 2) as ->; [ | lia].
        destruct Htag as [<- | [<- | [<- | []]]]; reflexivity. }
    split; [exact E | apply no_match_no_change; exact E].
  - intros tag Htag. simpl in Htag.
    destruct Htag as [<- | [<- | [<- | []]]]; cbv zeta;
      (split; [vm_compute; reflexivity | ]);
      (split; [intros line Hin; vm_compute in Hin;
               destruct Hin as [<- | [<- | []]]; split; vm_compute; reflexivity | ]);
      (split; [ | vm_compute; reflexivity]);
      (eexists; split; [vm_compute; reflexivity | ];
       split; [reflexivity | vm_compute; tauto]).
Qed.

Lemma line_feed_literal_across_lines :
  only_across_lines (lit (str "<input" ++ [nl] ++ str "className")).
Proof.
  intros s m Hm. destruct (is_match_group0 _ _ _ Hm) as (a & w & b & _ & -> & A & _).
  assert (In w (words (lit (str "<input" ++ [nl] ++ str "className"))))
    by (apply accepts_words; [reflexivity | exact A]).
  simpl in H. destruct H as [<- | []].
  exists (str "<input"), (str "className"). split; [reflexivity | discriminate].
Qed.

Lemma scope_correctness_witness :
  finditer (lit (str "<input" ++ [nl] ++ str "className"))
    (str "<input" ++ [nl]) = [] /\
  finditer (FixMultilineInputs.pattern "input") (str "<input") = [] /\
  length (finditer (FixMultilineInputs.pattern "input")
            (split_element "input" "border p-2")) = 1.
Proof.
  split; [ | split].
  - apply (proj1 scope_correctness _ (split_element "input" "border p-2")).
    + exact line_feed_literal_across_lines.
    + vm_compute. left. reflexivity.
  - apply (proj1 (proj2 scope_correctness) "input" (str "<input")).
    + left. reflexivity.
    + right. vm_compute. lia.
  - destruct (proj2 (proj2 scope_correctness) "input" (or_introl eq_refl))
      as (_ & _ & (m & -> & _) & _). reflexivity.
Defined.

(** ** The route patcher: what the tests on the route text amount to *)

Lemma accepts_lit s w : accepts (lit s) w -> w = s.
Proof.
  revert w. induction s as [ | c s IH]; intros w H; simpl in H.
  - inversion H. reflexivity.
  - apply accepts_seq_inv in H. destruct H as (w1 & w2 & -> & H1 & H2).
    inversion H1; subst. rewrite (IH _ H2). reflexivity.
Qed.

Lemma route_match_head s m :
  is_match FixAuthorizers.route_pattern s m ->
  exists rest, group0 m = str "httpApi.addRoutes({" ++ rest ++ str "}".
Proof.
  intros H. apply three_groups in H; try reflexivity.
  destruct H as (w1 & w2 & w3 & -> & _ & _ & _ & A1 & _ & A3).
  inversion A3; subst. cbn [cat] in A1.
  apply accepts_seq_inv in A1. destruct A1 as (u1 & v1 & -> & L1 & _).
  apply accepts_lit in L1. subst u1.
  exists (v1 ++ w2). repeat rewrite <- app_assoc. reflexivity.
Qed.

Lemma str_in_sub_trans a b s :
  str_in a b = true -> str_in b s = true -> str_in a s = true.
Proof.
  intros Ha Hb. apply str_in_inv in Ha. destruct Ha as (x & y & ->).
  apply str_in_inv in Hb. destruct Hb as (u & v & ->).
  replace (u ++ (x ++ a ++ y) ++ v) with ((u ++ x) ++ a ++ (y ++ v))
    by (repeat rewrite <- app_assoc; reflexivity).
  apply str_in_intro.
Qed.

(** X1. The text that [re.sub] hands to [add_authorizer] never begins with
    [//] once stripped: every match of [route_pattern] begins with
    [httpApi.addRoutes({] and ends with the closing brace. So the test of
    [should_have_authorizer] for a commented-out route never fires, the
    test for [HttpMethod.OPTIONS] adds nothing to the one for [OPTIONS],
    and the function decides by [OPTIONS] and the public paths alone.
    What [add_authorizer] returns holds [authorizer:] unless the route is
    one of those: a route inside a line comment is patched like any
    other. *)
Theorem commented_out_test_never_fires (content : text) (m : rematch) :
  In m (finditer FixAuthorizers.route_pattern content) ->
  starts_with (str "//") (strip (group0 m)) = false /\
  FixAuthorizers.should_have_authorizer (group0 m) =
    negb (str_in (str "OPTIONS") (group0 m)) &&
    negb (existsb (fun path => str_in (str path) (group0 m))
            FixAuthorizers.public_paths) /\
  exists out,
    FixAuthorizers.add_authorizer m = Ok out /\
    (str_in (str "authorizer:") out = true \/
     str_in (str "OPTIONS") (group0 m) = true \/
     existsb (fun path => str_in (str path) (group0 m))
       FixAuthorizers.public_paths = true).
Proof.
  intros Hm. apply finditer_is_match in Hm.
  destruct (route_match_head _ _ Hm) as (rest & E).
  assert (Hs : starts_with (str "//") (strip (group0 m)) = false).
  { rewrite E. unfold strip.
    change (lstrip (str "httpApi.addRoutes({" ++ rest ++ str "}"))
      with (str "httpApi.addRoutes({" ++ rest ++ str "}").
    replace (str "httpApi.addRoutes({" ++ rest ++ str "}")
      with ((str "httpApi.addRoutes({" ++ rest) ++ ["}"%char])
      by (rewrite <- app_assoc; reflexivity).
    rewrite rstrip_last by reflexivity. reflexivity. }
  assert (Hshould : FixAuthorizers.should_have_authorizer (group0 m) =
    negb (str_in (str "OPTIONS") (group0 m)) &&
    negb (existsb (fun path => str_in (str path) (group0 m))
            FixAuthorizers.public_paths)).
  { unfold FixAuthorizers.should_have_authorizer. rewrite Hs.
    destruct (str_in (str "OPTIONS") (group0 m)) eqn:Eo.
    - rewrite orb_true_r. reflexivity.
    - destruct (str_in (str "HttpMethod.OPTIONS") (group0 m)) eqn:Eh.
      + assert (str_in (str "OPTIONS") (group0 m) = true); [ | congruence].
        eapply str_in_sub_trans; [ | exact Eh]. reflexivity.
      + cbn [orb negb andb].
        match goal with
        | |- context [existsb ?f ?l] => destruct (existsb f l)
        end; reflexivity. }
  split; [exact Hs | ]. split; [exact Hshould | ].
  destruct (route_match_shape _ _ Hm)
    as (prefix & spacing & E0 & E1 & E2 & E3 & _).
  unfold FixAuthorizers.add_authorizer. rewrite Hshould, E1.
  destruct (str_in (str "authorizer:") (group0 m)) eqn:Ea.
  { eexists. split; [reflexivity | ]. left. exact Ea. }
  destruct (str_in (str "OPTIONS") (group0 m)) eqn:Eo.
  { eexists. split; [reflexivity | ]. right. left. reflexivity. }
  match goal with
  | |- context [existsb ?f ?l] => destruct (existsb f l) eqn:Ep
  end.
  { eexists. split; [reflexivity | ]. right. right. reflexivity. }
  cbn [negb andb]. eexists. split; [reflexivity | ]. left.
  match goal with
  | |- str_in _ (?pre ++ ?entry ++ ?tail) = true =>
      change entry with (str " " ++ str "authorizer:" ++ str " httpAuthorizer");
      replace (pre ++ (str " " ++ str "authorizer:" ++ str " httpAuthorizer") ++ tail)
        with ((pre ++ str " ") ++ str "authorizer:" ++ (str " httpAuthorizer" ++ tail))
        by (repeat rewrite <- app_assoc; reflexivity)
  end.
  apply str_in_intro.
Qed.

Lemma commented_out_test_never_fires_witness :
  let content :=
    str "// httpApi.addRoutes({ path: '/pets', integration: petsIntegration });" in
  exists m, In m (finditer FixAuthorizers.route_pattern content) /\
    starts_with (str "//") (strip (group0 m)) = false.
Proof.
  intros content.
  assert (Hm : exists m, In m (finditer FixAuthorizers.route_pattern content))
    by (eexists; vm_compute; left; reflexivity).
  destruct Hm as [m Hm]. exists m. split; [exact Hm | ].
  exact (proj1 (commented_out_test_never_fires content m Hm)).
Defined.

(** ** Nothing is deleted *)

Lemma drop_slice (s : text) i j :
  i <= j -> drop i s = slice s i j ++ drop j s.
Proof.
  intros Hij. unfold slice.
  replace (drop j s) with (drop (j - i) (drop i s)).
  - symmetry. apply take_drop.
  - rewrite drop_drop. f_equal. lia.
Qed.

Lemma assemble_with_sublist (repl : rematch -> result text) (s : text) ms :
  (forall m item, In m ms -> repl m = Ok item ->
     slice s (m_start m) (m_end m) `sublist_of` item) ->
  forall i out, spans_ok i ms (length s) ->
    assemble_with repl s i ms = Ok out -> drop i s `sublist_of` out.
Proof.
  induction ms as [ | m ms IH]; intros Hrepl i out Hs H; simpl in H.
  - injection H as <-. reflexivity.
  - destruct Hs as (H1 & H2 & H3 & H4).
    destruct (repl m) as [item | e] eqn:Er; [ | discriminate]. simpl in H.
    destruct (assemble_with repl s (m_end m) ms) as [rest | e] eqn:Ea; [ | discriminate].
    simpl in H. injection H as <-.
    rewrite (drop_slice s i (m_start m)) by lia.
    rewrite (drop_slice s (m_start m) (m_end m)) by lia.
    apply sublist_app; [reflexivity | ].
    apply sublist_app.
    + apply (Hrepl m item); [left; reflexivity | exact Er].
    + apply (IH (fun m' item' Hm' => Hrepl m' item' (or_intror Hm')) _ _ H4 Ea).
Qed.

Lemma assemble_as_with (repl : rematch -> text) s ms :
  forall i, assemble_with (fun m => Ok (repl m)) s i ms = Ok (assemble repl s i ms).
Proof.
  induction ms as [ | m ms IH]; intros i; simpl; [reflexivity | ].
  rewrite IH. reflexivity.
Qed.

Lemma is_match_slice r s m :
  is_match r s m -> slice s (m_start m) (m_end m) = group0 m.
Proof. intros [<- _]. reflexivity. Qed.

Lemma re_sub_with_sublist r repl s out :
  (forall m item, is_match r s m -> repl m = Ok item ->
     group0 m `sublist_of` item) ->
  re_sub_with r repl s = Ok out -> s `sublist_of` out.
Proof.
  intros Hrepl H. unfold re_sub_with in H.
  change s with (drop 0 s) at 1.
  eapply assemble_with_sublist; [ | apply finditer_spans | exact H].
  intros m item Hm Hr. apply finditer_is_match in Hm.
  rewrite (is_match_slice _ _ _ Hm). apply Hrepl; assumption.
Qed.

Lemma keeps_match_sublist p template s m :
  keeps_match (p, template) = true -> is_match p s m ->
  group0 m `sublist_of` template.
Proof.
  unfold keeps_match. simpl. intros H Hm.
  apply andb_true_iff in H. destruct H as [Hf Hw].
  destruct (is_match_group0 _ _ _ Hm) as (a & w & b & _ & -> & A & _).
  apply (accepts_words _ _ Hf) in A.
  rewrite forallb_forall in Hw. specialize (Hw _ A).
  apply starts_with_inv in Hw. destruct Hw as [t ->].
  apply sublist_inserts_r. reflexivity.
Qed.

Lemma re_sub_sublist p template s :
  keeps_match (p, template) = true -> s `sublist_of` re_sub p template s.
Proof.
  intros Hk. unfold re_sub, re_subn. simpl.
  eapply (re_sub_with_sublist p (fun _ => Ok template)).
  - intros m item Hm Hr. injection Hr as <-.
    eapply keeps_match_sublist; eassumption.
  - unfold re_sub_with. apply assemble_as_with.
Qed.

Lemma rewritten_sublist table :
  forallb keeps_match table = true ->
  forall content, content `sublist_of` rewritten table content.
Proof.
  induction table as [ | [p r] table IH]; intros Hk content; simpl; [reflexivity | ].
  simpl in Hk. apply andb_true_iff in Hk. destruct Hk as [Hp Hk].
  etransitivity; [apply (re_sub_sublist p r content Hp) | apply IH; exact Hk].
Qed.

(** X2. The substitution loops of [fix_all_dark_mode.py] and
    [fix_colored_backgrounds.py] only insert: the text read is a
    subsequence of the text produced, whatever the text. Every replacement
    of their tables begins with the light class that its pattern
    matches. *)
Theorem substitution_loops_only_insert (content : text) :
  content `sublist_of` fst (FixAllDarkMode.update_content content) /\
  content `sublist_of` fst (FixColoredBackgrounds.update_content content).
Proof.
  split.
  - unfold FixAllDarkMode.update_content. rewrite subn_all_counts. cbn [fst].
    apply rewritten_sublist. vm_compute. reflexivity.
  - rewrite colored_update_content. cbn [fst].
    apply rewritten_sublist. vm_compute. reflexivity.
Qed.

Lemma fix_step_sublist p dark line line' :
  FixThemeLineByLine.fix_step (p, dark) line = Some line' ->
  line `sublist_of` line' /\ length line' = length line + S (length dark).
Proof.
  intros H. apply fix_step_inserts in H.
  destruct H as (_ & m & a & b & _ & -> & ->). split.
  - apply sublist_app; [reflexivity | ].
    apply sublist_app; [ | reflexivity].
    apply sublist_inserts_r. reflexivity.
  - rewrite !length_app. simpl. lia.
Qed.

Lemma fix_loop_sublist pairs :
  forall line ch,
    line `sublist_of` fst (FixThemeLineByLine.fix_loop pairs line ch) /\
    (FixThemeLineByLine.replaced pairs line = 0 ->
     fst (FixThemeLineByLine.fix_loop pairs line ch) = line) /\
    (0 < FixThemeLineByLine.replaced pairs line ->
     length line < length (fst (FixThemeLineByLine.fix_loop pairs line ch))).
Proof.
  induction pairs as [ | [p d] pairs IH]; intros line ch.
  - simpl. split; [reflexivity | ]. split; [reflexivity | lia].
  - cbn [FixThemeLineByLine.fix_loop FixThemeLineByLine.replaced].
    destruct (FixThemeLineByLine.fix_step (p, d) line) as [line' | ] eqn:E.
    + destruct (fix_step_sublist _ _ _ _ E) as [Hs Hl].
      destruct (IH line' true) as (IH1 & _ & _).
      split; [etransitivity; eassumption | ]. split; [discriminate | ].
      intros _. apply sublist_length in IH1. lia.
    + apply IH.
Qed.

Lemma fix_loop_only_inserts pairs line :
  let '(new_line, changed) := FixThemeLineByLine.fix_loop pairs line false in
  line `sublist_of` new_line /\
  (changed = false -> new_line = line) /\
  (changed = true -> length line < length new_line).
Proof.
  pose proof (fix_loop_flag pairs line false) as Hf.
  destruct (fix_loop_sublist pairs line false) as (H1 & H2 & H3).
  destruct (FixThemeLineByLine.fix_loop pairs line false) as [new_line changed].
  cbn [fst snd orb] in *. split; [exact H1 | ]. split.
  - intros ->. apply H2. symmetry in Hf. apply Nat.ltb_ge in Hf. lia.
  - intros ->. apply H3. symmetry in Hf. apply Nat.ltb_lt in Hf. exact Hf.
Qed.

Lemma fix_line_shape line :
  let '(new_line, changed) := FixThemeLineByLine.fix_line line in
  line `sublist_of` new_line /\
  (changed = false -> new_line = line) /\
  (changed = true -> length line < length new_line).
Proof. exact (fix_loop_only_inserts FixThemeLineByLine.THEME_PAIRS line). Qed.

Lemma fix_line_changed line :
  snd (FixThemeLineByLine.fix_line line) = true <->
  fst (FixThemeLineByLine.fix_line line) <> line.
Proof.
  pose proof (fix_line_shape line) as H.
  destruct (FixThemeLineByLine.fix_line line) as [new_line changed].
  cbn [fst snd]. destruct H as (_ & H0 & H1). destruct changed.
  - split; [ | reflexivity]. intros _ E. specialize (H1 eq_refl). rewrite E in H1. lia.
  - split; [discriminate | ]. intros Hne. exfalso. apply Hne, H0. reflexivity.
Qed.

(** X3. [fix_line] only inserts, and its flag is exact: the line given
    is a subsequence of the line returned, the flag is True exactly when
    the line returned differs from the line given, and then the line
    returned is longer. *)
Theorem fix_line_only_inserts (line : text) :
  line `sublist_of` fst (FixThemeLineByLine.fix_line line) /\
  (snd (FixThemeLineByLine.fix_line line) = true <->
   fst (FixThemeLineByLine.fix_line line) <> line) /\
  (snd (FixThemeLineByLine.fix_line line) = true ->
   length line < length (fst (FixThemeLineByLine.fix_line line))).
Proof.
  split; [ | split; [apply fix_line_changed | ]].
  - pose proof (fix_line_shape line) as H.
    destruct (FixThemeLineByLine.fix_line line) as [new_line changed]. apply H.
  - pose proof (fix_line_shape line) as H.
    destruct (FixThemeLineByLine.fix_line line) as [new_line changed].
    cbn [fst snd]. apply H.
Qed.

Lemma fix_line_only_inserts_witness :
  length (class_attr "bg-white")
  < length (fst (FixThemeLineByLine.fix_line (class_attr "bg-white"))).
Proof.
  apply (proj2 (proj2 (fix_line_only_inserts (class_attr "bg-white")))).
  vm_compute. reflexivity.
Defined.

Lemma groupless_lit s : groupless (lit s) = true.
Proof. induction s as [ | c s IH]; simpl; [reflexivity | exact IH]. Qed.

Lemma multiline_groups tag s m :
  is_match (FixMultilineInputs.pattern tag) s m ->
  exists opening classes closing,
    group0 m = opening ++ classes ++ closing /\
    group m 1 = Some opening /\ group m 2 = Some classes /\
    group m 3 = Some closing.
Proof.
  intros H. apply three_groups in H.
  - destruct H as (w1 & w2 & w3 & E0 & E1 & E2 & E3 & _). eauto 10.
  - cbn [cat groupless]. rewrite groupless_lit. reflexivity.
  - reflexivity.
  - reflexivity.
Qed.

Lemma add_bg_sublist tag s m item :
  is_match (FixMultilineInputs.pattern tag) s m ->
  FixMultilineInputs.add_bg m = Ok item -> group0 m `sublist_of` item.
Proof.
  intros Hm H. destruct (multiline_groups _ _ _ Hm) as (o & c & q & E0 & E1 & E2 & E3).
  unfold FixMultilineInputs.add_bg in H. rewrite E1, E2, E3 in H.
  destruct (str_in (str "bg-") c).
  - injection H as <-. reflexivity.
  - assert (E : item = o ++ str "bg-white dark:bg-surface-primary " ++ c ++ q)
      by (cbv [mret result_ret] in H; congruence).
    rewrite E, E0.
    apply sublist_app; [reflexivity | ]. apply sublist_inserts_l. reflexivity.
Qed.

Lemma fix_tags_sublist tags :
  forall content out,
    FixMultilineInputs.fix_tags tags content = Ok out -> content `sublist_of` out.
Proof.
  induction tags as [ | tag tags IH]; intros content out H; simpl in H.
  - injection H as <-. reflexivity.
  - destruct (re_sub_with (FixMultilineInputs.pattern tag)
                FixMultilineInputs.add_bg content) as [mid | e] eqn:E; [ | discriminate].
    simpl in H. etransitivity; [ | apply (IH _ _ H)].
    eapply re_sub_with_sublist; [ | exact E].
    intros m item Hm Hi. eapply add_bg_sublist; eassumption.
Qed.

(** X4. [fix_file_content] returns for every text and only inserts: the
    text given is a subsequence of the text returned. *)
Theorem fix_file_content_only_inserts (content : text) :
  exists out, FixMultilineInputs.fix_file_content content = Ok out /\
              content `sublist_of` out.
Proof.
  destruct (fix_tags_ok ["input"; "select"; "textarea"]) with (content := content)
    as [out E].
  - intros tag Htag. simpl in Htag.
    destruct Htag as [<- | [<- | [<- | []]]]; repeat split.
  - exists out. split; [exact E | ]. eapply fix_tags_sublist. exact E.
Qed.

Lemma add_authorizer_sublist s m item :
  is_match FixAuthorizers.route_pattern s m ->
  FixAuthorizers.add_authorizer m = Ok item -> group0 m `sublist_of` item.
Proof.
  intros Hm H.
  destruct (route_match_shape _ _ Hm)
    as (prefix & spacing & E0 & E1 & E2 & E3 & (init & c & Ep & Hc) & _).
  destruct (word_char_facts _ Hc) as [Hns Hnc].
  unfold FixAuthorizers.add_authorizer in H. rewrite E1, E2, E3 in H.
  destruct (str_in (str "authorizer:") (group0 m)); [injection H as <-; reflexivity | ].
  destruct (negb (FixAuthorizers.should_have_authorizer (group0 m)));
    [injection H as <-; reflexivity | ].
  rewrite Ep, (rstrip_last _ _ Hns), (ends_with_last _ _ _ Hnc) in H.
  cbv [negb mret result_ret] in H.
  assert (E : item = (init ++ [c]) ++ str "," ++ str " authorizer: httpAuthorizer"
                       ++ spacing ++ str "}").
  { cbv [FixAuthorizers.fmt] in H. rewrite <- app_assoc in H. congruence. }
  rewrite E, E0, Ep.
  apply sublist_app; [reflexivity | ].
  apply (sublist_inserts_l (str "," ++ str " authorizer: httpAuthorizer")).
  reflexivity.
Qed.

Lemma apply_fix_total content :
  exists out, FixAuthorizers.apply_fix content = Ok out.
Proof.
  unfold FixAuthorizers.apply_fix, re_sub_with.
  apply assemble_with_ok. intros m Hm.
  eapply add_authorizer_ok. apply finditer_is_match. exact Hm.
Qed.

(** X5. The substitution of [fix-authorizers.py] returns for every text
    and only inserts: the text given is a subsequence of the text
    returned. *)
Theorem apply_fix_only_inserts (content : text) :
  exists out, FixAuthorizers.apply_fix content = Ok out /\
              content `sublist_of` out.
Proof.
  destruct (apply_fix_total content) as [out E].
  exists out. split; [exact E | ].
  eapply re_sub_with_sublist; [ | exact E].
  intros m item Hm Hi. eapply add_authorizer_sublist; eassumption.
Qed.

(** ** What a per-file function may do to the files *)

Lemma touches_only_refl p fs : touches_only p fs fs.
Proof.
  split; [reflexivity | ]. destruct (fs !! p); auto.
Qed.

Lemma kept_all f t : (length (kept f t) <? length t) = false -> kept f t = t.
Proof.
  unfold kept. destruct (f_room f) as [n | ]; [ | reflexivity].
  rewrite length_take. intros H. apply Nat.ltb_ge in H.
  apply take_ge. lia.
Qed.

(** A write to a file that could be read: whatever way it ends, the file
    is still there with its permissions, and the others are as they
    were. *)
Lemma write_text_touches fs p content t :
  read_text fs p = Ok content -> touches_only p fs (fst (write_text fs p t)).
Proof.
  unfold read_text, write_text. intros Hr.
  destruct (fs !! p) as [f | ] eqn:Ef; [ | discriminate].
  destruct (f_reachable f) eqn:Ereach; [ | discriminate]. cbn [andb] in *.
  destruct (f_readable f) eqn:Er; [ | discriminate].
  destruct (f_writable f) eqn:Ew; cbn [fst].
  - split.
    + intros q Hq. apply lookup_insert_ne. congruence.
    + rewrite Ef, lookup_insert_eq. cbn. auto.
  - split; [reflexivity | ]. rewrite Ef. auto.
Qed.

(** A write that ends without exception leaves the text in the file. *)
Lemma write_text_done fs p content t fs' :
  read_text fs p = Ok content -> write_text fs p t = (fs', None) ->
  read_text fs' p = Ok t.
Proof.
  unfold read_text, write_text. intros Hr Hw.
  destruct (fs !! p) as [f | ] eqn:Ef; [ | discriminate].
  destruct (f_reachable f) eqn:Ereach; [ | discriminate]. cbn [andb] in *.
  destruct (f_readable f) eqn:Er; [ | discriminate].
  destruct (f_writable f) eqn:Ew; [ | discriminate].
  destruct (length (kept f t) <? length t) eqn:El; [discriminate | ].
  injection Hw as <-. rewrite lookup_insert_eq. cbn.
  rewrite (kept_all _ _ El). reflexivity.
Qed.

(** The two ways a write to a file that could be read can raise: opening
    is refused and nothing happens, or the device fails. *)
Lemma write_text_raises fs p content t fs' e :
  read_text fs p = Ok content -> write_text fs p t = (fs', Some e) ->
  (e = PermissionError /\ fs' = fs /\
   exists f, fs !! p = Some f /\ f_writable f = false) \/
  (e = OSError /\ exists f, fs !! p = Some f /\ f_writable f = true /\
                          length (kept f t) < length t /\
                          read_text fs' p = Ok (kept f t)).
Proof.
  unfold read_text, write_text. intros Hr Hw.
  destruct (fs !! p) as [f | ] eqn:Ef; [ | discriminate].
  destruct (f_reachable f) eqn:Ereach; [ | discriminate]. cbn [andb] in *.
  destruct (f_readable f) eqn:Er; [ | discriminate].
  destruct (f_writable f) eqn:Ew.
  - destruct (length (kept f t) <? length t) eqn:El; [ | discriminate].
    injection Hw as <- <-. right. split; [reflexivity | ].
    exists f. split; [reflexivity | ]. split; [exact Ew | ].
    split; [apply Nat.ltb_lt; exact El | ].
    rewrite lookup_insert_eq. cbn. reflexivity.
  - injection Hw as <- <-. left. split; [reflexivity | ]. split; [reflexivity | ].
    exists f. auto.
Qed.

Lemma write_text_changes fs p content t fs' :
  read_text fs p = Ok content -> write_text fs p t = (fs', None) ->
  t <> content -> fs' <> fs.
Proof.
  intros Hr Hw Ht E. pose proof (write_text_done _ _ _ _ _ Hr Hw) as Hr'.
  rewrite E in Hr'. congruence.
Qed.

(** The ways [rewrite_file] can end: without a write, or with one, whose
    end decides the count. *)
Lemma rewrite_file_cases transform fs p :
  rewrite_file transform fs p = (0, fs) \/
  exists content new n,
    read_text fs p = Ok content /\ transform content = Ok (new, n) /\
    new <> content /\
    rewrite_file transform fs p =
      (match snd (write_text fs p new) with
       | None => n
       | Some _ => 0
       end, fst (write_text fs p new)).
Proof.
  unfold rewrite_file.
  destruct (read_text fs p) as [content | e] eqn:Er; [ | left; reflexivity].
  destruct (transform content) as [[new n] | e] eqn:Et; [ | left; reflexivity].
  cbv zeta.
  destruct (text_eqb new content) eqn:Eq; [left; reflexivity | ]. cbn [negb].
  right. exists content, new, n. repeat split; try assumption.
  - intros E. apply text_eqb_eq in E. congruence.
  - destruct (write_text fs p new) as [fs' [e | ]]; reflexivity.
Qed.

Lemma rewrite_file_touches transform fs p :
  touches_only p fs (snd (rewrite_file transform fs p)).
Proof.
  destruct (rewrite_file_cases transform fs p)
    as [-> | (content & new & n & Hr & _ & _ & ->)].
  - apply touches_only_refl.
  - apply (write_text_touches _ _ _ _ Hr).
Qed.

(** The ways [fix_file] of [fix_theme_line_by_line.py] can end. *)
Lemma theme_fix_file_cases fs p :
  FixThemeLineByLine.fix_file fs p = ((0, []), fs) \/
  exists content i line_changes,
    read_text fs p = Ok content /\
    snd (FixThemeLineByLine.fix_lines 1 (readlines content)) = i :: line_changes /\
    let new_content :=
      concat (fst (FixThemeLineByLine.fix_lines 1 (readlines content))) in
    FixThemeLineByLine.fix_file fs p =
      (match snd (write_text fs p new_content) with
       | None => (S (length line_changes), i :: line_changes)
       | Some _ => (0, [])
       end, fst (write_text fs p new_content)).
Proof.
  unfold FixThemeLineByLine.fix_file.
  destruct (read_text fs p) as [content | e] eqn:Er; [ | left; reflexivity]. cbv zeta.
  destruct (FixThemeLineByLine.fix_lines 1 (readlines content))
    as [new_lines [ | i changes]] eqn:El; [left; reflexivity | ].
  right. exists content, i, changes. rewrite El. cbn [fst snd].
  repeat split.
  destruct (write_text fs p (concat new_lines)) as [fs' [e | ]]; reflexivity.
Qed.

(** The ways [fix_file] of [fix_multiline_inputs.py] can end. *)
Lemma multiline_fix_file_cases fs p :
  FixMultilineInputs.fix_file fs p = (false, fs) \/
  exists content new,
    read_text fs p = Ok content /\
    FixMultilineInputs.fix_file_content content = Ok new /\
    new <> content /\
    FixMultilineInputs.fix_file fs p =
      (match snd (write_text fs p new) with
       | None => true
       | Some _ => false
       end, fst (write_text fs p new)).
Proof.
  unfold FixMultilineInputs.fix_file.
  destruct (read_text fs p) as [content | e] eqn:Er; [ | left; reflexivity].
  destruct (FixMultilineInputs.fix_file_content content) as [new | e] eqn:Et;
    [ | left; reflexivity]. cbv zeta.
  destruct (text_eqb new content) eqn:Eq; [left; reflexivity | ]. cbn [negb].
  right. exists content, new. repeat split; try assumption.
  - intros E. apply text_eqb_eq in E. congruence.
  - destruct (write_text fs p new) as [fs' [e | ]]; reflexivity.
Qed.

Lemma theme_fix_file_touches fs p :
  touches_only p fs (snd (FixThemeLineByLine.fix_file fs p)).
Proof.
  destruct (theme_fix_file_cases fs p)
    as [-> | (content & i & l & Hr & _ & ->)].
  - apply touches_only_refl.
  - apply (write_text_touches _ _ _ _ Hr).
Qed.

Lemma multiline_fix_file_touches fs p :
  touches_only p fs (snd (FixMultilineInputs.fix_file fs p)).
Proof.
  destruct (multiline_fix_file_cases fs p)
    as [-> | (content & new & Hr & _ & _ & ->)].
  - apply touches_only_refl.
  - apply (write_text_touches _ _ _ _ Hr).
Qed.

(** X6. Whatever a per-file function does, it does to its own file:
    every other path is as before, and the file itself is neither created
    nor removed and keeps its permissions. This holds for [fix_file] of
    [fix_theme_line_by_line.py] and of [fix_multiline_inputs.py] and for
    the three [update_file] functions, for any files and any path. *)
Theorem per_file_functions_touch_their_file_only (fs : fsys) (p : string) :
  touches_only p fs (snd (FixThemeLineByLine.fix_file fs p)) /\
  touches_only p fs (snd (UpdateDarkMode.update_file fs p)) /\
  touches_only p fs (snd (FixAllDarkMode.update_file fs p)) /\
  touches_only p fs (snd (FixColoredBackgrounds.update_file fs p)) /\
  touches_only p fs (snd (FixMultilineInputs.fix_file fs p)).
Proof.
  split; [apply theme_fix_file_touches | ].
  split; [apply rewrite_file_touches | ].
  split; [apply rewrite_file_touches | ].
  split; [apply rewrite_file_touches | apply multiline_fix_file_touches].
Qed.

(** ** The value returned tells whether the file was rewritten *)

Lemma rewritten_no_match table :
  forall content, matches_replaced table content = 0 -> rewritten table content = content.
Proof.
  induction table as [ | [p r] table IH]; intros content H; simpl in *; [reflexivity | ].
  assert (E : finditer p content = [])
    by (destruct (finditer p content); [reflexivity | simpl in H; lia]).
  rewrite (re_sub_no_match _ _ _ E) in *. rewrite E in H. apply IH. exact H.
Qed.

Lemma report_ok_silent p fs : report_ok true p fs fs.
Proof. split; [discriminate | auto]. Qed.

(** The report after a write of a text that differs from the text read. *)
Lemma report_ok_write (silent : bool) fs p content new :
  read_text fs p = Ok content -> new <> content ->
  silent = match snd (write_text fs p new) with None => false | Some _ => true end ->
  report_ok silent p fs (fst (write_text fs p new)).
Proof.
  intros Hr Hne ->.
  destruct (write_text fs p new) as [fs' [e | ]] eqn:Ew; cbn [fst snd].
  - split; [discriminate | ]. intros _. right. exists new, e. exact Ew.
  - split; [ | discriminate]. intros _. split.
    + apply (write_text_changes _ _ _ _ _ Hr Ew Hne).
    + exists new. exact Ew.
Qed.

Lemma rewrite_file_report table transform fs p :
  (forall c, transform c = Ok (rewritten table c, matches_replaced table c)) ->
  report_ok (fst (rewrite_file transform fs p) =? 0) p fs
    (snd (rewrite_file transform fs p)).
Proof.
  intros Ht.
  destruct (rewrite_file_cases transform fs p)
    as [-> | (content & new & n & Hr & Hc & Hne & ->)];
    [apply report_ok_silent | ].
  cbn [fst snd]. apply (report_ok_write _ _ _ _ _ Hr Hne).
  rewrite Ht in Hc. injection Hc as <- <-.
  assert (Hpos : matches_replaced table content <> 0)
    by (intros H0; apply Hne; apply rewritten_no_match; exact H0).
  destruct (snd (write_text fs p (rewritten table content))); [reflexivity | ].
  apply Nat.eqb_neq. exact Hpos.
Qed.

Lemma concat_readlines s : concat (readlines s) = s.
Proof.
  induction s as [ | c s IH]; [reflexivity | ]. cbn [readlines].
  destruct (Ascii.eqb c nl).
  - simpl. rewrite IH. reflexivity.
  - destruct (readlines s) as [ | l ls]; simpl in *; rewrite <- IH; reflexivity.
Qed.

Lemma fix_lines_length lines :
  forall i,
    let '(new_lines, line_changes) := FixThemeLineByLine.fix_lines i lines in
    length (concat lines) <= length (concat new_lines) /\
    (line_changes <> [] -> length (concat lines) < length (concat new_lines)).
Proof.
  induction lines as [ | line lines IH]; intros i.
  - simpl. split; [lia | congruence].
  - cbn [FixThemeLineByLine.fix_lines].
    pose proof (fix_line_shape line) as Hl.
    destruct (FixThemeLineByLine.fix_line line) as [new_line changed].
    specialize (IH (S i)).
    destruct (FixThemeLineByLine.fix_lines (S i) lines) as [new_lines line_changes].
    destruct Hl as (Hs & H0 & H1). destruct IH as [IHa IHb].
    apply sublist_length in Hs. simpl. rewrite !length_app.
    split; [lia | ]. destruct changed.
    + intros _. specialize (H1 eq_refl). lia.
    + intros Hne. specialize (IHb Hne). lia.
Qed.

Lemma theme_fix_file_report fs p :
  report_ok (fst (fst (FixThemeLineByLine.fix_file fs p)) =? 0) p fs
    (snd (FixThemeLineByLine.fix_file fs p)).
Proof.
  destruct (theme_fix_file_cases fs p)
    as [-> | (content & i & l & Hr & Hc & E)]; [apply report_ok_silent | ].
  cbv zeta in E. rewrite E. cbn [fst snd].
  apply (report_ok_write _ _ _ content _ Hr).
  - pose proof (fix_lines_length (readlines content) 1) as Hlen.
    destruct (FixThemeLineByLine.fix_lines 1 (readlines content)) as [new_lines changes].
    cbn [fst snd] in *. subst changes. destruct Hlen as [_ Hlt].
    specialize (Hlt ltac:(discriminate)). rewrite concat_readlines in Hlt.
    intros Eq. rewrite Eq in Hlt. lia.
  - destruct (snd (write_text fs p _)); reflexivity.
Qed.

Lemma multiline_fix_file_report fs p :
  report_ok (negb (fst (FixMultilineInputs.fix_file fs p))) p fs
    (snd (FixMultilineInputs.fix_file fs p)).
Proof.
  destruct (multiline_fix_file_cases fs p)
    as [-> | (content & new & Hr & _ & Hne & ->)]; [apply report_ok_silent | ].
  cbn [fst snd]. apply (report_ok_write _ _ _ _ _ Hr Hne).
  destruct (snd (write_text fs p new)); reflexivity.
Qed.

(** On a device without limit a write that raises has changed nothing. *)
Lemma write_text_whole fs p t fs' e :
  (forall f, fs !! p = Some f -> f_room f = None) ->
  write_text fs p t = (fs', Some e) -> fs' = fs.
Proof.
  intros Hroom. unfold write_text, kept.
  destruct (fs !! p) as [f | ]; [ | discriminate].
  rewrite (Hroom f eq_refl), Nat.ltb_irrefl.
  destruct (f_reachable f && f_writable f); [discriminate | ].
  intros H. injection H as <- _. reflexivity.
Qed.

Lemma report_ok_exact silent p fs fs' :
  report_ok silent p fs fs' ->
  (forall f, fs !! p = Some f -> f_room f = None) ->
  silent = true <-> fs' = fs.
Proof.
  intros [Hloud Hsilent] Hroom. split.
  - intros Hs. destruct (Hsilent Hs) as [E | (new & e & Ew)]; [exact E | ].
    apply (write_text_whole _ _ _ _ _ Hroom Ew).
  - intros E. destruct silent; [reflexivity | ].
    destruct (Hloud eq_refl) as [Hne _]. contradiction.
Qed.

(** X7. The value returned tells whether the file was rewritten, up to a
    write that failed. A positive count (for [fix_file] of
    [fix_multiline_inputs.py]: True) is returned only after a write that
    ended well, and then the files differ from the files before: every
    write puts a different text in the file. When 0 or False is returned,
    either the files are as they were, or a write was begun and ended with
    an exception; the file was emptied when it was opened, so it need not
    be as before then, and [update_file] can return 0 for a file that it
    has changed. On a device without limit that does not happen: 0 or
    False is returned exactly when the files afterwards are the files
    before. *)
Theorem report_tells_whether_the_file_was_rewritten (fs : fsys) (p : string) :
  report_ok (fst (fst (FixThemeLineByLine.fix_file fs p)) =? 0) p fs
    (snd (FixThemeLineByLine.fix_file fs p)) /\
  report_ok (fst (UpdateDarkMode.update_file fs p) =? 0) p fs
    (snd (UpdateDarkMode.update_file fs p)) /\
  report_ok (fst (FixAllDarkMode.update_file fs p) =? 0) p fs
    (snd (FixAllDarkMode.update_file fs p)) /\
  report_ok (fst (FixColoredBackgrounds.update_file fs p) =? 0) p fs
    (snd (FixColoredBackgrounds.update_file fs p)) /\
  report_ok (negb (fst (FixMultilineInputs.fix_file fs p))) p fs
    (snd (FixMultilineInputs.fix_file fs p)) /\
  (exists fs0 p0,
     fst (FixAllDarkMode.update_file fs0 p0) = 0 /\
     snd (FixAllDarkMode.update_file fs0 p0) <> fs0) /\
  ((forall f, fs !! p = Some f -> f_room f = None) ->
   (fst (fst (FixThemeLineByLine.fix_file fs p)) = 0 <->
    snd (FixThemeLineByLine.fix_file fs p) = fs) /\
   (fst (UpdateDarkMode.update_file fs p) = 0 <->
    snd (UpdateDarkMode.update_file fs p) = fs) /\
   (fst (FixAllDarkMode.update_file fs p) = 0 <->
    snd (FixAllDarkMode.update_file fs p) = fs) /\
   (fst (FixColoredBackgrounds.update_file fs p) = 0 <->
    snd (FixColoredBackgrounds.update_file fs p) = fs) /\
   (fst (FixMultilineInputs.fix_file fs p) = false <->
    snd (FixMultilineInputs.fix_file fs p) = fs)).
Proof.
  pose proof (theme_fix_file_report fs p) as H1.
  assert (H2 : report_ok (fst (UpdateDarkMode.update_file fs p) =? 0) p fs
                 (snd (UpdateDarkMode.update_file fs p))).
  { apply (rewrite_file_report UpdateDarkMode.REPLACEMENTS). intros c.
    unfold UpdateDarkMode.update_content.
    rewrite apply_all_counts by (vm_compute; reflexivity). reflexivity. }
  assert (H3 : report_ok (fst (FixAllDarkMode.update_file fs p) =? 0) p fs
                 (snd (FixAllDarkMode.update_file fs p))).
  { apply (rewrite_file_report FixAllDarkMode.replacements). intros c.
    unfold FixAllDarkMode.update_content. rewrite subn_all_counts. reflexivity. }
  assert (H4 : report_ok (fst (FixColoredBackgrounds.update_file fs p) =? 0) p fs
                 (snd (FixColoredBackgrounds.update_file fs p))).
  { apply (rewrite_file_report colored_rules). intros c.
    rewrite colored_update_content. reflexivity. }
  pose proof (multiline_fix_file_report fs p) as H5.
  split; [exact H1 | ]. split; [exact H2 | ]. split; [exact H3 | ].
  split; [exact H4 | ]. split; [exact H5 | ]. split.
  - exists {[ "a.jsx" := File (Some (class_attr "bg-white")) true true true (Some 9) ]},
           "a.jsx".
    split; [vm_compute; reflexivity | ].
    intros E.
    assert (H : read_text (snd (FixAllDarkMode.update_file
                  {[ "a.jsx" := File (Some (class_attr "bg-white")) true true true (Some 9) ]}
                  "a.jsx")) "a.jsx" = Ok (class_attr "bg-white"))
      by (rewrite E; reflexivity).
    vm_compute in H. discriminate H.
  - intros Hroom.
    split; [rewrite <- (report_ok_exact _ _ _ _ H1 Hroom); symmetry; apply Nat.eqb_eq | ].
    split; [rewrite <- (report_ok_exact _ _ _ _ H2 Hroom); symmetry; apply Nat.eqb_eq | ].
    split; [rewrite <- (report_ok_exact _ _ _ _ H3 Hroom); symmetry; apply Nat.eqb_eq | ].
    split; [rewrite <- (report_ok_exact _ _ _ _ H4 Hroom); symmetry; apply Nat.eqb_eq | ].
    rewrite <- (report_ok_exact _ _ _ _ H5 Hroom).
    destruct (fst (FixMultilineInputs.fix_file fs p)); cbn; split; congruence.
Qed.

(** ** The loops over the files *)

Section FileLoopFacts.

Variable update : fsys -> string -> nat * fsys.

Hypothesis update_touches :
  forall fs p, touches_only p fs (snd (update fs p)).

Hypothesis update_local :
  forall fs1 fs2 p, fs1 !! p = fs2 !! p ->
    fst (update fs1 p) = fst (update fs2 p) /\
    snd (update fs1 p) !! p = snd (update fs2 p) !! p.

Lemma file_loop_step file rest fs :
  is_test_path file = false ->
  file_loop update (file :: rest) fs =
  (let r := file_loop update rest (snd (update fs file)) in
   if 0 <? fst (update fs file)
   then ((S (fst (fst r)), fst (update fs file) + snd (fst r)), snd r)
   else r).
Proof.
  intros Ht. cbn [file_loop]. rewrite Ht.
  destruct (update fs file) as [count fs1]. cbn [fst snd].
  destruct (file_loop update rest fs1) as [[n total] fs2]. reflexivity.
Qed.

Lemma file_loop_snd_step file rest fs :
  is_test_path file = false ->
  snd (file_loop update (file :: rest) fs) =
  snd (file_loop update rest (snd (update fs file))).
Proof.
  intros Ht. rewrite file_loop_step by exact Ht. cbv zeta.
  destruct (0 <? fst (update fs file)); reflexivity.
Qed.

Lemma file_loop_other files :
  forall fs q, is_test_path q = true \/ ~ In q files ->
    snd (file_loop update files fs) !! q = fs !! q.
Proof.
  induction files as [ | f files IH]; intros fs q Hq; [reflexivity | ].
  assert (Hq' : is_test_path q = true \/ ~ In q files)
    by (destruct Hq as [Hq | Hq]; [left; exact Hq | right; intros Hin; apply Hq; right; exact Hin]).
  destruct (is_test_path f) eqn:Et.
  - cbn [file_loop]. rewrite Et. apply IH. exact Hq'.
  - rewrite file_loop_snd_step by exact Et. rewrite IH by exact Hq'.
    apply update_touches. intros ->.
    destruct Hq as [Hq | Hq]; [congruence | apply Hq; left; reflexivity].
Qed.

Lemma file_loop_present files :
  forall fs q, is_Some (snd (file_loop update files fs) !! q) <-> is_Some (fs !! q).
Proof.
  induction files as [ | f files IH]; intros fs q; [reflexivity | ].
  destruct (is_test_path f) eqn:Et.
  - cbn [file_loop]. rewrite Et. apply IH.
  - rewrite file_loop_snd_step by exact Et. rewrite IH.
    destruct (update_touches fs f) as [Ho Hp].
    destruct (decide (q = f)) as [-> | Hne]; [ | rewrite (Ho q Hne); reflexivity].
    destruct (fs !! f), (snd (update fs f) !! f); try contradiction;
      split; intros H; try exact H; eauto; destruct H; discriminate.
Qed.

Lemma file_loop_independent files :
  List.NoDup files ->
  forall fs,
    (forall p, In p files -> is_test_path p = false ->
       snd (file_loop update files fs) !! p = snd (update fs p) !! p) /\
    fst (file_loop update files fs) =
      (length (List.filter
                 (fun p => negb (is_test_path p) && (0 <? fst (update fs p))) files),
       list_sum (map (fun p => if is_test_path p then 0 else fst (update fs p)) files)).
Proof.
  induction 1 as [ | f files Hf Hnd IH]; intros fs.
  - split; [intros p [] | reflexivity].
  - destruct (is_test_path f) eqn:Et.
    + destruct (IH fs) as [IHa IHb]. cbn [file_loop List.filter map list_sum].
      rewrite Et. split.
      * intros p [<- | Hp] Hnt; [congruence | auto].
      * rewrite IHb. reflexivity.
    + set (fs1 := snd (update fs f)).
      assert (H1 : forall q, q <> f -> fs1 !! q = fs !! q)
        by (intros q Hq; apply update_touches; exact Hq).
      assert (Hsame : forall p, In p files ->
                fst (update fs1 p) = fst (update fs p) /\
                snd (update fs1 p) !! p = snd (update fs p) !! p).
      { intros p Hp. apply update_local. apply H1. intros ->. contradiction. }
      destruct (IH fs1) as [IHa IHb]. split.
      * intros p Hp Hnt. rewrite file_loop_snd_step by exact Et. fold fs1.
        destruct Hp as [<- | Hp].
        -- apply file_loop_other. right. exact Hf.
        -- rewrite (IHa p Hp Hnt). apply Hsame. exact Hp.
      * rewrite file_loop_step by exact Et. cbv zeta. fold fs1.
        cbn [List.filter map]. rewrite Et. cbn [negb andb].
        change (list_sum (fst (update fs f) :: ?l)) with (fst (update fs f) + list_sum l).
        assert (Ea : fst (fst (file_loop update files fs1)) =
          length (List.filter
                    (fun p => negb (is_test_path p) && (0 <? fst (update fs p))) files)).
        { rewrite IHb. cbn [fst]. f_equal. apply filter_ext_in. intros p Hp.
          destruct (Hsame p Hp) as [-> _]. reflexivity. }
        assert (Eb : snd (fst (file_loop update files fs1)) =
          list_sum (map (fun p => if is_test_path p then 0 else fst (update fs p)) files)).
        { rewrite IHb. cbn [fst snd]. f_equal. apply map_ext_in. intros p Hp.
          destruct (Hsame p Hp) as [-> _]. reflexivity. }
        destruct (0 <? fst (update fs f)) eqn:En.
        -- cbn [fst length]. rewrite Ea, Eb. reflexivity.
        -- apply Nat.ltb_ge in En. assert (E0 : fst (update fs f) = 0) by lia.
           rewrite E0. cbn [Nat.add]. rewrite <- Ea, <- Eb.
           destruct (file_loop update files fs1) as [[a b] c]. reflexivity.
Qed.

End FileLoopFacts.

Lemma rewrite_file_local transform fs1 fs2 p :
  fs1 !! p = fs2 !! p ->
  fst (rewrite_file transform fs1 p) = fst (rewrite_file transform fs2 p) /\
  snd (rewrite_file transform fs1 p) !! p = snd (rewrite_file transform fs2 p) !! p.
Proof.
  intros H. unfold rewrite_file. rewrite (read_text_local _ _ _ H).
  destruct (read_text fs2 p) as [content | e]; [ | auto].
  destruct (transform content) as [[new n] | e]; [ | auto]. cbv zeta.
  destruct (negb (text_eqb new content)); [ | auto].
  destruct (write_text_local fs1 fs2 p new H) as [Hw1 Hw2].
  destruct (write_text fs1 p new) as [a [e1 | ]],
           (write_text fs2 p new) as [b [e2 | ]];
    cbn [fst snd] in *; try discriminate; auto.
Qed.

Lemma multiline_fix_file_local fs1 fs2 p :
  fs1 !! p = fs2 !! p ->
  fst (FixMultilineInputs.fix_file fs1 p) = fst (FixMultilineInputs.fix_file fs2 p) /\
  snd (FixMultilineInputs.fix_file fs1 p) !! p =
  snd (FixMultilineInputs.fix_file fs2 p) !! p.
Proof.
  intros H. unfold FixMultilineInputs.fix_file. rewrite (read_text_local _ _ _ H).
  destruct (read_text fs2 p) as [content | e]; [ | auto].
  destruct (FixMultilineInputs.fix_file_content content) as [new | e]; [ | auto].
  cbv zeta.
  destruct (negb (text_eqb new content)); [ | auto].
  destruct (write_text_local fs1 fs2 p new H) as [Hw1 Hw2].
  destruct (write_text fs1 p new) as [a [e1 | ]],
           (write_text fs2 p new) as [b [e2 | ]];
    cbn [fst snd] in *; try discriminate; auto.
Qed.

Lemma theme_main_loop_is_file_loop files :
  forall fs, FixThemeLineByLine.main_loop files fs = file_loop theme_update files fs.
Proof.
  induction files as [ | f files IH]; intros fs; [reflexivity | ].
  cbn [FixThemeLineByLine.main_loop file_loop].
  destruct (is_test_path f); [apply IH | ].
  destruct (FixThemeLineByLine.fix_file fs f) as [[n l] fs1] eqn:E.
  assert (Hu : theme_update fs f = (n, fs1))
    by (unfold theme_update; rewrite E; reflexivity).
  rewrite Hu, IH. reflexivity.
Qed.

Lemma all_main_loop_is_file_loop files :
  forall fs, FixAllDarkMode.main_loop files fs =
             file_loop FixAllDarkMode.update_file files fs.
Proof.
  induction files as [ | f files IH]; intros fs; [reflexivity | ].
  cbn [FixAllDarkMode.main_loop file_loop].
  destruct (is_test_path f); [apply IH | ].
  destruct (FixAllDarkMode.update_file fs f) as [n fs1].
  rewrite IH. reflexivity.
Qed.

Lemma colored_main_loop_is_file_loop files :
  forall fs, FixColoredBackgrounds.main_loop files fs =
             file_loop FixColoredBackgrounds.update_file files fs.
Proof.
  induction files as [ | f files IH]; intros fs; [reflexivity | ].
  cbn [FixColoredBackgrounds.main_loop file_loop].
  destruct (is_test_path f); [apply IH | ].
  destruct (FixColoredBackgrounds.update_file fs f) as [n fs1].
  rewrite IH. reflexivity.
Qed.

Lemma multiline_main_loop_is_file_loop files :
  forall fs,
    FixMultilineInputs.main_loop files fs =
    (fst (fst (file_loop multiline_update files fs)),
     snd (file_loop multiline_update files fs)).
Proof.
  induction files as [ | f files IH]; intros fs; [reflexivity | ].
  cbn [FixMultilineInputs.main_loop file_loop].
  destruct (is_test_path f); [apply IH | ].
  destruct (FixMultilineInputs.fix_file fs f) as [fixed fs1] eqn:E.
  assert (Hu : multiline_update fs f = ((if fixed then 1 else 0), fs1))
    by (unfold multiline_update; rewrite E; reflexivity).
  rewrite Hu, IH.
  destruct (file_loop multiline_update files fs1) as [[n total] fs2].
  destruct fixed; reflexivity.
Qed.

Lemma theme_update_touches fs p : touches_only p fs (snd (theme_update fs p)).
Proof. apply theme_fix_file_touches. Qed.

Lemma multiline_update_touches fs p : touches_only p fs (snd (multiline_update fs p)).
Proof. apply multiline_fix_file_touches. Qed.

Lemma multiline_update_local fs1 fs2 p :
  fs1 !! p = fs2 !! p ->
  fst (multiline_update fs1 p) = fst (multiline_update fs2 p) /\
  snd (multiline_update fs1 p) !! p = snd (multiline_update fs2 p) !! p.
Proof.
  intros H. destruct (multiline_fix_file_local _ _ _ H) as [E1 E2].
  unfold multiline_update. cbn [fst snd]. rewrite E1. auto.
Qed.

(** X8. The loops of the four [main] functions leave alone every test
    file (a path that holds [__tests__] or [.test.]), listed or not, and
    every file that is not in the list. *)
Theorem main_loops_leave_other_files_alone (files : list string) (fs : fsys)
    (q : string) :
  is_test_path q = true \/ ~ In q files ->
  snd (FixThemeLineByLine.main_loop files fs) !! q = fs !! q /\
  snd (FixAllDarkMode.main_loop files fs) !! q = fs !! q /\
  snd (FixColoredBackgrounds.main_loop files fs) !! q = fs !! q /\
  snd (FixMultilineInputs.main_loop files fs) !! q = fs !! q.
Proof.
  intros Hq.
  rewrite theme_main_loop_is_file_loop, all_main_loop_is_file_loop,
    colored_main_loop_is_file_loop, multiline_main_loop_is_file_loop.
  cbn [snd].
  split; [apply file_loop_other; [apply theme_update_touches | exact Hq] | ].
  split; [apply file_loop_other; [intros; apply rewrite_file_touches | exact Hq] | ].
  split; [apply file_loop_other; [intros; apply rewrite_file_touches | exact Hq] | ].
  apply file_loop_other; [apply multiline_update_touches | exact Hq].
Qed.

Lemma main_loops_leave_other_files_alone_witness :
  let fs : fsys :=
    {[ "Card.jsx" := File (Some (class_attr "bg-white")) true true true None;
       "Card.test.jsx" := File (Some (class_attr "bg-white")) true true true None ]} in
  snd (FixAllDarkMode.main_loop ["Card.jsx"; "Card.test.jsx"] fs) !! "Card.test.jsx"
  = fs !! "Card.test.jsx".
Proof.
  intros fs.
  refine (proj1 (proj2 (main_loops_leave_other_files_alone
                          ["Card.jsx"; "Card.test.jsx"] fs "Card.test.jsx" _))).
  left. reflexivity.
Defined.

(** X9. The loops of the four [main] functions create no file and remove
    none: a path holds a file afterwards exactly when it held one
    before. *)
Theorem main_loops_never_create_files (files : list string) (fs : fsys)
    (q : string) :
  (is_Some (snd (FixThemeLineByLine.main_loop files fs) !! q) <-> is_Some (fs !! q)) /\
  (is_Some (snd (FixAllDarkMode.main_loop files fs) !! q) <-> is_Some (fs !! q)) /\
  (is_Some (snd (FixColoredBackgrounds.main_loop files fs) !! q) <-> is_Some (fs !! q)) /\
  (is_Some (snd (FixMultilineInputs.main_loop files fs) !! q) <-> is_Some (fs !! q)).
Proof.
  rewrite theme_main_loop_is_file_loop, all_main_loop_is_file_loop,
    colored_main_loop_is_file_loop, multiline_main_loop_is_file_loop.
  cbn [snd].
  split; [apply file_loop_present; apply theme_update_touches | ].
  split; [apply file_loop_present; intros; apply rewrite_file_touches | ].
  split; [apply file_loop_present; intros; apply rewrite_file_touches | ].
  apply file_loop_present; apply multiline_update_touches.
Qed.

(** X10. Over distinct paths the loops of [main] of
    [fix_all_dark_mode.py], [fix_colored_backgrounds.py] and
    [fix_multiline_inputs.py] treat each file on its own: what each listed
    file holds afterwards, the number of files updated and the total of
    the changes are what the per-file function gives for each file alone,
    run on the files as they were at the start. *)
Theorem main_loops_treat_each_file_alone (files : list string) (fs : fsys) :
  List.NoDup files ->
  ((forall p, In p files -> is_test_path p = false ->
      snd (FixAllDarkMode.main_loop files fs) !! p =
      snd (FixAllDarkMode.update_file fs p) !! p) /\
   fst (FixAllDarkMode.main_loop files fs) =
     (length (List.filter
                (fun p => negb (is_test_path p)
                          && (0 <? fst (FixAllDarkMode.update_file fs p))) files),
      list_sum (map (fun p => if is_test_path p then 0
                              else fst (FixAllDarkMode.update_file fs p)) files))) /\
  ((forall p, In p files -> is_test_path p = false ->
      snd (FixColoredBackgrounds.main_loop files fs) !! p =
      snd (FixColoredBackgrounds.update_file fs p) !! p) /\
   fst (FixColoredBackgrounds.main_loop files fs) =
     (length (List.filter
                (fun p => negb (is_test_path p)
                          && (0 <? fst (FixColoredBackgrounds.update_file fs p))) files),
      list_sum (map (fun p => if is_test_path p then 0
                              else fst (FixColoredBackgrounds.update_file fs p)) files))) /\
  ((forall p, In p files -> is_test_path p = false ->
      snd (FixMultilineInputs.main_loop files fs) !! p =
      snd (FixMultilineInputs.fix_file fs p) !! p) /\
   fst (FixMultilineInputs.main_loop files fs) =
     length (List.filter
               (fun p => negb (is_test_path p)
                         && fst (FixMultilineInputs.fix_file fs p)) files)).
Proof.
  intros Hnd.
  rewrite all_main_loop_is_file_loop, colored_main_loop_is_file_loop,
    multiline_main_loop_is_file_loop.
  split; [ | split].
  - apply file_loop_independent;
      [intros; apply rewrite_file_touches | intros; apply rewrite_file_local; assumption
      | exact Hnd].
  - apply file_loop_independent;
      [intros; apply rewrite_file_touches | intros; apply rewrite_file_local; assumption
      | exact Hnd].
  - destruct (file_loop_independent multiline_update multiline_update_touches
                multiline_update_local files Hnd fs) as [Ha Hb].
    split; [exact Ha | ]. cbn [fst]. rewrite Hb. cbn [fst]. f_equal.
    apply filter_ext. intros p. unfold multiline_update. cbn [fst].
    destruct (fst (FixMultilineInputs.fix_file fs p)); reflexivity.
Qed.

Lemma main_loops_treat_each_file_alone_witness :
  let fs : fsys :=
    {[ "a.jsx" := File (Some (class_attr "bg-white")) true true true None;
       "b.jsx" := File (Some (class_attr "text-gray-900 bg-white")) true true true None ]} in
  let count p := fst (FixAllDarkMode.update_file fs p) in
  fst (FixAllDarkMode.main_loop ["a.jsx"; "b.jsx"] fs) =
    (length (List.filter (fun p => negb (is_test_path p) && (0 <? count p))
               ["a.jsx"; "b.jsx"]),
     list_sum (map (fun p => if is_test_path p then 0 else count p)
                 ["a.jsx"; "b.jsx"])).
Proof.
  intros fs count.
  refine (proj2 (proj1 (main_loops_treat_each_file_alone ["a.jsx"; "b.jsx"] fs _))).
  repeat constructor; simpl; intuition discriminate.
Defined.

(** ** The results of [main] of [update_dark_mode.py] *)

Lemma base_path_inj a b :
  UpdateDarkMode.base_path a = UpdateDarkMode.base_path b -> a = b.
Proof.
  unfold UpdateDarkMode.base_path. intros H.
  repeat (injection H as H). exact H.
Qed.

Lemma dict_sum_insert (results : gmap string nat) rel n :
  results !! rel = None -> dict_sum (<[rel := n]> results) = n + dict_sum results.
Proof.
  intros H. unfold dict_sum.
  apply (map_fold_insert_L (fun _ count acc => count + acc)); [ | exact H].
  intros. lia.
Qed.

Lemma examinable_local fs1 fs2 p :
  fs1 !! p = fs2 !! p -> examinable fs1 p = examinable fs2 p.
Proof. unfold examinable, path_exists. intros ->. reflexivity. Qed.

(** For a path that can be examined the existence test changes nothing
    that [update_file] would not do itself: on a missing file it returns 0
    and leaves the files alone. *)
Lemma priority_step rel rest results total fs :
  examinable fs (UpdateDarkMode.base_path rel) = true ->
  UpdateDarkMode.main_loop (rel :: rest) results total fs =
  let count := count_of fs rel in
  let fs' := snd (UpdateDarkMode.update_file fs (UpdateDarkMode.base_path rel)) in
  if 0 <? count
  then UpdateDarkMode.main_loop rest (<[rel := count]> results) (total + count) fs'
  else UpdateDarkMode.main_loop rest results total fs'.
Proof.
  intros Hex. cbn [UpdateDarkMode.main_loop]. unfold count_of.
  unfold examinable in Hex. unfold path_exists in *.
  destruct (fs !! UpdateDarkMode.base_path rel) as [f | ] eqn:Ef.
  - destruct (f_reachable f); [ | discriminate].
    destruct (UpdateDarkMode.update_file fs (UpdateDarkMode.base_path rel)) as [n fs1].
    reflexivity.
  - assert (E : UpdateDarkMode.update_file fs (UpdateDarkMode.base_path rel) = (0, fs)).
    { apply (rewrite_file_read_fails _ _ _ FileNotFoundError).
      unfold read_text. rewrite Ef. reflexivity. }
    rewrite E. reflexivity.
Qed.

(** A path that cannot be examined ends the loop. *)
Lemma priority_abort rel rest results total fs :
  examinable fs (UpdateDarkMode.base_path rel) = false ->
  UpdateDarkMode.main_loop (rel :: rest) results total fs =
  (Raise PermissionError, fs).
Proof.
  intros Hex. cbn [UpdateDarkMode.main_loop].
  unfold examinable in Hex. unfold path_exists in *.
  destruct (fs !! UpdateDarkMode.base_path rel) as [f | ]; [ | discriminate].
  destruct (f_reachable f); [discriminate | reflexivity].
Qed.

Lemma priority_loop_spec files :
  List.NoDup files ->
  forall results total fs,
    (forall rel, In rel files -> results !! rel = None) ->
    (forall rel, In rel files ->
       examinable fs (UpdateDarkMode.base_path rel) = true) ->
    exists results' total' fs',
      UpdateDarkMode.main_loop files results total fs = (Ok (results', total'), fs') /\
      (forall rel,
         results' !! rel =
         if bool_decide (rel ∈ files) && (0 <? count_of fs rel)
         then Some (count_of fs rel) else results !! rel) /\
      total' = total + list_sum (map (count_of fs) files) /\
      dict_sum results' = dict_sum results + list_sum (map (count_of fs) files) /\
      (forall rel, In rel files ->
         fs' !! UpdateDarkMode.base_path rel =
         snd (UpdateDarkMode.update_file fs (UpdateDarkMode.base_path rel))
           !! UpdateDarkMode.base_path rel) /\
      (forall q, (forall rel, In rel files -> q <> UpdateDarkMode.base_path rel) ->
         fs' !! q = fs !! q).
Proof.
  induction 1 as [ | f files Hf Hnd IH]; intros results total fs Hfresh Hexam.
  - exists results, total, fs. split; [reflexivity | ].
    split; [reflexivity | ]. split; [simpl; lia | ]. split; [simpl; lia | ].
    split; [intros rel [] | reflexivity].
  - rewrite priority_step by (apply Hexam; left; reflexivity). cbv zeta.
    set (fs1 := snd (UpdateDarkMode.update_file fs (UpdateDarkMode.base_path f))).
    assert (H1 : forall q, q <> UpdateDarkMode.base_path f -> fs1 !! q = fs !! q)
      by (intros q Hq; apply rewrite_file_touches; exact Hq).
    assert (Hother : forall rel, In rel files ->
              fs1 !! UpdateDarkMode.base_path rel = fs !! UpdateDarkMode.base_path rel).
    { intros rel Hrel. apply H1.
      intros E. apply base_path_inj in E. subst rel. contradiction. }
    assert (Hsame : forall rel, In rel files ->
              count_of fs1 rel = count_of fs rel /\
              snd (UpdateDarkMode.update_file fs1 (UpdateDarkMode.base_path rel))
                !! UpdateDarkMode.base_path rel =
              snd (UpdateDarkMode.update_file fs (UpdateDarkMode.base_path rel))
                !! UpdateDarkMode.base_path rel).
    { intros rel Hrel. apply rewrite_file_local. apply Hother. exact Hrel. }
    assert (Hexam1 : forall rel, In rel files ->
              examinable fs1 (UpdateDarkMode.base_path rel) = true).
    { intros rel Hrel. rewrite (examinable_local fs1 fs _ (Hother rel Hrel)).
      apply Hexam. right. exact Hrel. }
    assert (Hsum : list_sum (map (count_of fs1) files) = list_sum (map (count_of fs) files)).
    { f_equal. apply map_ext_in. intros rel Hrel. apply Hsame. exact Hrel. }
    change (list_sum (map (count_of fs) (f :: files)))
      with (count_of fs f + list_sum (map (count_of fs) files)).
    assert (Hin : forall rel, bool_decide (rel ∈ f :: files) =
                    bool_decide (rel = f) || bool_decide (rel ∈ files)).
    { intros rel. apply eq_true_iff_eq.
      rewrite orb_true_iff, !bool_decide_eq_true. apply elem_of_cons. }
    destruct (0 <? count_of fs f) eqn:En.
    + destruct (IH (<[f := count_of fs f]> results) (total + count_of fs f) fs1)
        as (results' & total' & fs' & E & I1 & I2 & I3 & I4 & I5).
      { intros rel Hrel. rewrite lookup_insert_ne by (intros ->; contradiction).
        apply Hfresh. right. exact Hrel. }
      { exact Hexam1. }
      exists results', total', fs'. split; [exact E | ].
      split; [ | split; [ | split; [ | split]]].
      * intros rel. rewrite I1, Hin.
        destruct (bool_decide (rel ∈ files)) eqn:Ei.
        -- apply bool_decide_eq_true in Ei. apply list_elem_of_In in Ei. destruct (Hsame rel Ei) as [-> _].
           rewrite orb_true_r. cbn [andb].
           destruct (0 <? count_of fs rel); [reflexivity | ].
           rewrite lookup_insert_ne by (intros ->; contradiction). reflexivity.
        -- rewrite orb_false_r. cbn [andb].
           destruct (bool_decide (rel = f)) eqn:Ef.
           ++ apply bool_decide_eq_true in Ef. subst rel.
              rewrite En, lookup_insert_eq. reflexivity.
           ++ apply bool_decide_eq_false in Ef.
              rewrite lookup_insert_ne by congruence. reflexivity.
      * rewrite I2, Hsum. lia.
      * rewrite I3, Hsum, dict_sum_insert by (apply Hfresh; left; reflexivity). lia.
      * intros rel [<- | Hrel].
        -- rewrite I5; [reflexivity | ].
           intros rel Hrel E'. apply base_path_inj in E'. subst rel. contradiction.
        -- rewrite (I4 rel Hrel). apply Hsame. exact Hrel.
      * intros q Hq. rewrite I5 by (intros rel Hrel; apply Hq; right; exact Hrel).
        apply H1. apply Hq. left. reflexivity.
    + destruct (IH results total fs1)
        as (results' & total' & fs' & E & I1 & I2 & I3 & I4 & I5).
      { intros rel Hrel. apply Hfresh. right. exact Hrel. }
      { exact Hexam1. }
      exists results', total', fs'. split; [exact E | ].
      apply Nat.ltb_ge in En. assert (E0 : count_of fs f = 0) by lia.
      split; [ | split; [ | split; [ | split]]].
      * intros rel. rewrite I1, Hin.
        destruct (bool_decide (rel ∈ files)) eqn:Ei.
        -- apply bool_decide_eq_true in Ei. apply list_elem_of_In in Ei. destruct (Hsame rel Ei) as [-> _].
           rewrite orb_true_r. reflexivity.
        -- rewrite orb_false_r. cbn [andb].
           destruct (bool_decide (rel = f)) eqn:Ef; [ | reflexivity].
           apply bool_decide_eq_true in Ef. subst rel. rewrite E0. reflexivity.
      * rewrite I2, Hsum. lia.
      * rewrite I3, Hsum. lia.
      * intros rel [<- | Hrel].
        -- rewrite I5; [reflexivity | ].
           intros rel Hrel E'. apply base_path_inj in E'. subst rel. contradiction.
        -- rewrite (I4 rel Hrel). apply Hsame. exact Hrel.
      * intros q Hq. rewrite I5 by (intros rel Hrel; apply Hq; right; exact Hrel).
        apply H1. apply Hq. left. reflexivity.
Qed.

(** The loop over a list in two parts: the second part starts from what
    the first part leaves. *)
Lemma priority_loop_app files more :
  forall results total fs results' total' fs',
    UpdateDarkMode.main_loop files results total fs = (Ok (results', total'), fs') ->
    UpdateDarkMode.main_loop (files ++ more) results total fs =
    UpdateDarkMode.main_loop more results' total' fs'.
Proof.
  induction files as [ | f files IH]; intros results total fs results' total' fs' H.
  - cbn in H. injection H as <- <- <-. reflexivity.
  - cbn [app UpdateDarkMode.main_loop] in *.
    destruct (path_exists fs (UpdateDarkMode.base_path f)) as [[ | ] | e];
      [ | apply IH; exact H | discriminate].
    destruct (UpdateDarkMode.update_file fs (UpdateDarkMode.base_path f)) as [n fs1].
    destruct (0 <? n); apply IH; exact H.
Qed.

Lemma forallb_In {A} (f : A -> bool) l x : forallb f l = true -> In x l -> f x = true.
Proof. intros H Hin. rewrite forallb_forall in H. apply H. exact Hin. Qed.

(** The loop ends at the first path that cannot be examined: the files
    before it are done, the others are not looked at. *)
Lemma priority_loop_ends done rel rest fs :
  List.NoDup (done ++ rel :: rest) ->
  forallb (fun r => examinable fs (UpdateDarkMode.base_path r)) done = true ->
  examinable fs (UpdateDarkMode.base_path rel) = false ->
  fst (UpdateDarkMode.main_loop (done ++ rel :: rest) ∅ 0 fs) = Raise PermissionError /\
  (forall r, In r done ->
     snd (UpdateDarkMode.main_loop (done ++ rel :: rest) ∅ 0 fs)
       !! UpdateDarkMode.base_path r =
     snd (UpdateDarkMode.update_file fs (UpdateDarkMode.base_path r))
       !! UpdateDarkMode.base_path r) /\
  (forall q, (forall r, In r done -> q <> UpdateDarkMode.base_path r) ->
     snd (UpdateDarkMode.main_loop (done ++ rel :: rest) ∅ 0 fs) !! q = fs !! q).
Proof.
  intros Hnd Hdone Hrel.
  assert (Hnd' : List.NoDup done) by (apply NoDup_app_remove_r in Hnd; exact Hnd).
  destruct (priority_loop_spec done Hnd' ∅ 0 fs (fun r _ => lookup_empty r)
              (fun r Hr => forallb_In _ _ _ Hdone Hr))
    as (results' & total' & fs' & E & _ & _ & _ & I4 & I5).
  rewrite (priority_loop_app _ _ _ _ _ _ _ _ E).
  assert (Hex : examinable fs' (UpdateDarkMode.base_path rel) = false).
  { rewrite <- Hrel. apply examinable_local. apply I5.
    intros r Hr Eq. apply base_path_inj in Eq. subst r.
    apply NoDup_remove_2 in Hnd. apply Hnd. apply in_or_app. left. exact Hr. }
  rewrite (priority_abort _ _ _ _ _ Hex). cbn [fst snd]. auto.
Qed.

Lemma priority_files_nodup : List.NoDup UpdateDarkMode.PRIORITY_FILES.
Proof.
  apply NoDup_ListNoDup. apply (bool_decide_unpack _). vm_compute. exact I.
Qed.

(** X11. [main] of [update_dark_mode.py]. When every priority path can be
    examined, [main] returns: the dictionary [results] holds exactly the
    priority files for which [update_file], run on the files as they were
    at the start, returns a positive count, each with that count;
    [total_replacements] is the sum of those counts over the list, which
    is the sum of the values of [results]; each priority file is left as
    [update_file] alone leaves it, and no other path is touched. When
    [file_path.exists()] raises for a priority path, [main] ends there
    with [PermissionError]: the priority files before it are left as
    [update_file] alone leaves them, and nothing else is touched, the
    later priority files included. *)
Theorem main_results_are_the_positive_counts (fs : fsys) :
  (forallb (fun rel => examinable fs (UpdateDarkMode.base_path rel))
     UpdateDarkMode.PRIORITY_FILES = true ->
   exists results total_replacements,
     fst (UpdateDarkMode.main fs) = Ok (results, total_replacements) /\
     (forall rel count,
        results !! rel = Some count <->
        In rel UpdateDarkMode.PRIORITY_FILES /\ count = count_of fs rel /\ 0 < count) /\
     total_replacements = list_sum (map (count_of fs) UpdateDarkMode.PRIORITY_FILES) /\
     total_replacements = dict_sum results /\
     (forall rel, In rel UpdateDarkMode.PRIORITY_FILES ->
        snd (UpdateDarkMode.main fs) !! UpdateDarkMode.base_path rel =
        snd (UpdateDarkMode.update_file fs (UpdateDarkMode.base_path rel))
          !! UpdateDarkMode.base_path rel) /\
     (forall q,
        (forall rel, In rel UpdateDarkMode.PRIORITY_FILES ->
           q <> UpdateDarkMode.base_path rel) ->
        snd (UpdateDarkMode.main fs) !! q = fs !! q)) /\
  (forall done rel rest,
     UpdateDarkMode.PRIORITY_FILES = done ++ rel :: rest ->
     forallb (fun r => examinable fs (UpdateDarkMode.base_path r)) done = true ->
     examinable fs (UpdateDarkMode.base_path rel) = false ->
     fst (UpdateDarkMode.main fs) = Raise PermissionError /\
     (forall r, In r done ->
        snd (UpdateDarkMode.main fs) !! UpdateDarkMode.base_path r =
        snd (UpdateDarkMode.update_file fs (UpdateDarkMode.base_path r))
          !! UpdateDarkMode.base_path r) /\
     (forall q, (forall r, In r done -> q <> UpdateDarkMode.base_path r) ->
        snd (UpdateDarkMode.main fs) !! q = fs !! q)).
Proof.
  unfold UpdateDarkMode.main. split.
  - intros Hexam.
    destruct (priority_loop_spec UpdateDarkMode.PRIORITY_FILES priority_files_nodup
                ∅ 0 fs (fun rel _ => lookup_empty rel)
                (fun r Hr => forallb_In _ _ _ Hexam Hr))
      as (results & total & fs' & E & H1 & H2 & H3 & H4 & H5).
    rewrite E. cbn [fst snd]. exists results, total.
    split; [reflexivity | ].
    split; [ | split; [exact H2 | split; [ | split; [exact H4 | exact H5]]]].
    + intros rel count. rewrite H1, lookup_empty.
      destruct (bool_decide (rel ∈ UpdateDarkMode.PRIORITY_FILES)) eqn:Ei.
      * apply bool_decide_eq_true in Ei. apply list_elem_of_In in Ei. cbn [andb].
        destruct (0 <? count_of fs rel) eqn:En.
        -- apply Nat.ltb_lt in En. split.
           ++ intros E'. injection E' as <-. auto.
           ++ intros (_ & -> & _). reflexivity.
        -- apply Nat.ltb_ge in En. split; [discriminate | ].
           intros (_ & -> & Hpos). lia.
      * apply bool_decide_eq_false in Ei. cbn [andb].
        split; [discriminate | ]. intros (Hin & _).
        apply list_elem_of_In in Hin. contradiction.
    + rewrite H2, H3. unfold dict_sum. rewrite map_fold_empty. reflexivity.
  - intros done rel rest Hlist Hdone Hrel.
    pose proof priority_files_nodup as Hnd. rewrite Hlist in *.
    apply priority_loop_ends; assumption.
Qed.

(** The second priority path cannot be examined: [main] ends there, after
    the first priority file. *)
Lemma main_results_are_the_positive_counts_witness :
  let first := UpdateDarkMode.base_path "features/schedule/routes/Schedule.jsx" in
  let second := UpdateDarkMode.base_path "features/bookings/routes/Bookings.jsx" in
  let fs : fsys :=
    {[ first := File (Some (class_attr "bg-white")) true true true None;
       second := File (Some (class_attr "bg-white")) true true false None ]} in
  fst (UpdateDarkMode.main fs) = Raise PermissionError.
Proof.
  intros first second fs.
  refine (proj1 (proj2 (main_results_are_the_positive_counts fs)
            ["features/schedule/routes/Schedule.jsx"]
            "features/bookings/routes/Bookings.jsx"
            (tail (tail UpdateDarkMode.PRIORITY_FILES)) _ _ _)); reflexivity.
Defined.

(** ** The lines of the file that [fix_file] writes *)

Lemma readlines_terminated body t :
  ~ In nl body -> readlines (body ++ nl :: t) = (body ++ [nl]) :: readlines t.
Proof.
  induction body as [ | c body IH]; intros H.
  - cbn [app readlines]. rewrite Ascii.eqb_refl. reflexivity.
  - cbn [app readlines].
    assert (Ec : Ascii.eqb c nl = false)
      by (apply Ascii.eqb_neq; intros ->; apply H; left; reflexivity).
    rewrite Ec, IH by (intros Hin; apply H; right; exact Hin). reflexivity.
Qed.

Lemma readlines_unterminated body :
  ~ In nl body -> body <> [] -> readlines body = [body].
Proof.
  induction body as [ | c body IH]; intros H Hne; [congruence | ].
  cbn [readlines].
  assert (Ec : Ascii.eqb c nl = false)
    by (apply Ascii.eqb_neq; intros ->; apply H; left; reflexivity).
  rewrite Ec. destruct body as [ | d body]; [reflexivity | ].
  rewrite IH; [reflexivity | intros Hin; apply H; right; exact Hin | discriminate].
Qed.

Lemma readlines_concat lines : lines_ok lines -> readlines (concat lines) = lines.
Proof.
  induction lines as [ | line rest IH]; intros H; [reflexivity | ].
  destruct H as [(body & Hb & [-> | (-> & Hne & ->)]) Hrest].
  - cbn [concat]. rewrite <- app_assoc. cbn [app].
    rewrite (readlines_terminated _ _ Hb), (IH Hrest). reflexivity.
  - cbn [concat]. rewrite app_nil_r. apply readlines_unterminated; assumption.
Qed.

Lemma readlines_ok s : lines_ok (readlines s).
Proof.
  induction s as [ | c s IH]; [exact I | ]. cbn [readlines].
  destruct (Ascii.eqb c nl) eqn:Ec.
  - apply Ascii.eqb_eq in Ec. subst c. split; [ | exact IH].
    exists []. split; [intros [] | left; reflexivity].
  - apply Ascii.eqb_neq in Ec.
    destruct (readlines s) as [ | l ls].
    + split; [ | exact I]. exists [c]. split.
      * intros [E | []]. congruence.
      * right. repeat split. discriminate.
    + destruct IH as [(body & Hb & Hl) Hrest]. split; [ | exact Hrest].
      exists (c :: body). split.
      * intros [E | Hin]; [congruence | contradiction].
      * destruct Hl as [-> | (-> & Hne & ->)]; [left; reflexivity | right].
        repeat split. discriminate.
Qed.

Lemma existsb_nl_false w : existsb (Ascii.eqb nl) w = false -> ~ In nl w.
Proof.
  intros H Hin. assert (existsb (Ascii.eqb nl) w = true); [ | congruence].
  apply existsb_exists. exists nl. split; [exact Hin | apply Ascii.eqb_refl].
Qed.

Lemma fix_step_line p d line line' :
  line_safe (p, d) = true ->
  FixThemeLineByLine.fix_step (p, d) line = Some line' ->
  (forall body, ~ In nl body -> line = body ++ [nl] ->
     exists body', ~ In nl body' /\ line' = body' ++ [nl]) /\
  (~ In nl line -> ~ In nl line').
Proof.
  unfold line_safe. cbn [fst snd]. intros Hsafe Hstep.
  apply andb_true_iff in Hsafe. destruct Hsafe as [Hsafe Hd].
  apply andb_true_iff in Hsafe. destruct Hsafe as [Hfin Hw].
  apply negb_true_iff, existsb_nl_false in Hd.
  apply fix_step_inserts in Hstep.
  destruct Hstep as (_ & m & a & b & Hm & -> & ->).
  apply re_search_is_match in Hm.
  destruct (is_match_group0 _ _ _ Hm) as (a' & g & b' & _ & -> & Hacc & _).
  apply (accepts_words _ _ Hfin) in Hacc.
  rewrite forallb_forall in Hw. specialize (Hw _ Hacc).
  destruct g as [ | g0 g']; [discriminate | ].
  apply negb_true_iff, existsb_nl_false in Hw.
  assert (Hsp : ~ In nl (str " ")) by (intros [E | []]; discriminate).
  split.
  - intros body Hb E.
    destruct (exists_last (l := b)) as (b0 & y & ->).
    + intros ->. rewrite app_nil_r in E.
      destruct (exists_last (l := g0 :: g')) as (g1 & x & Eg); [discriminate | ].
      rewrite Eg, app_assoc in E. apply app_inj_tail in E. destruct E as [_ ->].
      apply Hw. rewrite Eg. apply in_or_app. right. left. reflexivity.
    + rewrite !app_assoc in E. apply app_inj_tail in E. destruct E as [E ->].
      exists (a ++ ((g0 :: g') ++ str " " ++ d) ++ b0). split.
      * rewrite <- E in Hb. rewrite !in_app_iff in *. tauto.
      * rewrite <- !app_assoc. reflexivity.
  - intros H. rewrite !in_app_iff in *. tauto.
Qed.

Lemma fix_loop_line pairs :
  forallb line_safe pairs = true ->
  forall line ch,
    (forall body, ~ In nl body -> line = body ++ [nl] ->
       exists body', ~ In nl body' /\
         fst (FixThemeLineByLine.fix_loop pairs line ch) = body' ++ [nl]) /\
    (~ In nl line -> ~ In nl (fst (FixThemeLineByLine.fix_loop pairs line ch))).
Proof.
  induction pairs as [ | [p d] pairs IH]; intros Hsafe line ch.
  - cbn [FixThemeLineByLine.fix_loop fst]. split; [ | tauto].
    intros body Hb ->. exists body. auto.
  - cbn [forallb] in Hsafe. apply andb_true_iff in Hsafe. destruct Hsafe as [Hpd Hsafe].
    cbn [FixThemeLineByLine.fix_loop].
    destruct (FixThemeLineByLine.fix_step (p, d) line) as [line' | ] eqn:E;
      [ | apply IH; exact Hsafe].
    destruct (fix_step_line _ _ _ _ Hpd E) as [H1 H2].
    destruct (IH Hsafe line' true) as [I1 I2]. split.
    + intros body Hb El. destruct (H1 body Hb El) as (body1 & Hb1 & E1).
      apply (I1 body1 Hb1 E1).
    + intros Hn. apply I2, H2, Hn.
Qed.

Lemma theme_pairs_line_safe : forallb line_safe FixThemeLineByLine.THEME_PAIRS = true.
Proof. vm_compute. reflexivity. Qed.

Lemma fix_line_line line :
  (forall body, ~ In nl body -> line = body ++ [nl] ->
     exists body', ~ In nl body' /\
       fst (FixThemeLineByLine.fix_line line) = body' ++ [nl]) /\
  (~ In nl line -> ~ In nl (fst (FixThemeLineByLine.fix_line line))).
Proof.
  exact (fix_loop_line FixThemeLineByLine.THEME_PAIRS theme_pairs_line_safe line false).
Qed.

Lemma fix_line_nonempty line :
  line <> [] -> fst (FixThemeLineByLine.fix_line line) <> [].
Proof.
  intros Hne E. pose proof (fix_line_shape line) as H.
  destruct (FixThemeLineByLine.fix_line line) as [new_line changed].
  cbn [fst] in E. subst new_line. destruct H as (Hs & _).
  apply sublist_length in Hs. destruct line; [congruence | simpl in Hs; lia].
Qed.

Lemma fixed_lines_ok lines :
  lines_ok lines ->
  lines_ok (map (fun l => fst (FixThemeLineByLine.fix_line l)) lines).
Proof.
  induction lines as [ | line rest IH]; intros H; [exact I | ].
  destruct H as [(body & Hb & Hl) Hrest]. cbn [map lines_ok].
  split; [ | apply IH; exact Hrest].
  destruct (fix_line_line line) as [H1 H2].
  destruct Hl as [-> | (-> & Hne & ->)].
  - destruct (H1 body Hb eq_refl) as (body' & Hb' & E).
    exists body'. split; [exact Hb' | left; exact E].
  - exists (fst (FixThemeLineByLine.fix_line body)). split; [apply H2; exact Hb | ].
    right. repeat split. apply fix_line_nonempty. exact Hne.
Qed.

Lemma fix_lines_numbers lines :
  forall i k,
    In k (snd (FixThemeLineByLine.fix_lines i lines)) <->
    exists j line, k = i + j /\ lines !! j = Some line /\
                   snd (FixThemeLineByLine.fix_line line) = true.
Proof.
  induction lines as [ | line rest IH]; intros i k.
  - simpl. split; [intros [] | intros (j & l & _ & H & _); discriminate].
  - cbn [FixThemeLineByLine.fix_lines].
    destruct (FixThemeLineByLine.fix_line line) as [new_line changed] eqn:E.
    specialize (IH (S i) k).
    destruct (FixThemeLineByLine.fix_lines (S i) rest) as [new_lines line_changes].
    cbn [snd] in *.
    assert (Hrest : In k line_changes <->
              exists j l, k = i + S j /\ rest !! j = Some l /\
                          snd (FixThemeLineByLine.fix_line l) = true).
    { rewrite IH. split; intros (j & l & -> & H); exists j, l; (split; [lia | exact H]). }
    split.
    + intros H.
      assert (Hcases : (changed = true /\ k = i) \/ In k line_changes).
      { destruct changed; [destruct H as [<- | H]; auto | auto]. }
      destruct Hcases as [[-> ->] | H'].
      * exists 0, line. rewrite E. repeat split. lia.
      * apply Hrest in H'. destruct H' as (j & l & -> & Hl & Hf).
        exists (S j), l. auto.
    + intros (j & l & -> & Hl & Hf). destruct j as [ | j].
      * cbn in Hl. injection Hl as <-. rewrite E in Hf. cbn [snd] in Hf. subst changed.
        left. lia.
      * assert (In (i + S j) line_changes) by (apply Hrest; exists j, l; auto).
        destruct changed; [right | ]; assumption.
Qed.

Lemma fix_lines_sorted lines :
  forall i, StronglySorted lt (snd (FixThemeLineByLine.fix_lines i lines)).
Proof.
  induction lines as [ | line rest IH]; intros i; [constructor | ].
  pose proof (fix_lines_numbers rest (S i)) as Hn.
  cbn [FixThemeLineByLine.fix_lines].
  destruct (FixThemeLineByLine.fix_line line) as [new_line changed].
  specialize (IH (S i)).
  destruct (FixThemeLineByLine.fix_lines (S i) rest) as [new_lines line_changes].
  cbn [snd] in *. destruct changed; [ | exact IH].
  constructor; [exact IH | ]. apply Forall_forall. intros k Hk. apply list_elem_of_In in Hk.
  apply Hn in Hk. destruct Hk as (j & l & -> & _). lia.
Qed.

(** X12. When [fix_file] of [fix_theme_line_by_line.py] reports a
    positive count, the count is the length of the list of line numbers it
    returns, the list is strictly increasing, and it holds exactly the
    numbers, counted from 1, of the lines of the file that [fix_line]
    changes. *)
Theorem fix_file_reports_the_changed_lines (fs : fsys) (p : string) :
  0 < fst (fst (FixThemeLineByLine.fix_file fs p)) ->
  exists content,
    read_text fs p = Ok content /\
    let line_changes := snd (fst (FixThemeLineByLine.fix_file fs p)) in
    fst (fst (FixThemeLineByLine.fix_file fs p)) = length line_changes /\
    StronglySorted lt line_changes /\
    forall k,
      In k line_changes <->
      exists line, 1 <= k /\ readlines content !! (k - 1) = Some line /\
                   fst (FixThemeLineByLine.fix_line line) <> line.
Proof.
  intros Hpos.
  destruct (theme_fix_file_cases fs p) as [E | (content & i & l & Hr & Hc & E)];
    [rewrite E in Hpos; cbn [fst snd] in Hpos; lia | ].
  cbv zeta in E. rewrite E in *.
  destruct (write_text fs p
              (concat (fst (FixThemeLineByLine.fix_lines 1 (readlines content)))))
    as [fs' [e | ]] eqn:Ew; cbn [fst snd] in *; [lia | ].
  exists content. split; [exact Hr | ]. cbv zeta. split; [reflexivity | ].
  rewrite <- Hc. split; [apply fix_lines_sorted | ].
  intros k. rewrite fix_lines_numbers. split.
  - intros (j & line & -> & Hl & Hf). exists line.
    split; [lia | ]. split; [ | apply fix_line_changed; exact Hf].
    replace (1 + j - 1) with j by lia. exact Hl.
  - intros (line & Hk & Hl & Hf). exists (k - 1), line.
    split; [lia | ]. split; [exact Hl | apply fix_line_changed; exact Hf].
Qed.

Lemma fix_file_reports_the_changed_lines_witness :
  let fs : fsys :=
    {[ "a.jsx" := File (Some (str "<p>" ++ [nl] ++ class_attr "bg-white" ++ [nl]))
                    true true true None ]} in
  exists content,
    read_text fs "a.jsx" = Ok content /\
    let line_changes := snd (fst (FixThemeLineByLine.fix_file fs "a.jsx")) in
    fst (fst (FixThemeLineByLine.fix_file fs "a.jsx")) = length line_changes /\
    StronglySorted lt line_changes /\
    forall k,
      In k line_changes <->
      exists line, 1 <= k /\ readlines content !! (k - 1) = Some line /\
                   fst (FixThemeLineByLine.fix_line line) <> line.
Proof.
  intros fs. apply (fix_file_reports_the_changed_lines fs "a.jsx").
  vm_compute. lia.
Defined.

(** X13. [fix_file] of [fix_theme_line_by_line.py] keeps the lines of the
    file: when it reports a positive count, the file written, read again
    line by line, has as many lines as the file read, and its k-th line is
    what [fix_line] returns for the k-th line read. No dark class joins or
    splits a line. *)
Theorem fix_file_keeps_the_lines (fs : fsys) (p : string) :
  0 < fst (fst (FixThemeLineByLine.fix_file fs p)) ->
  exists content new_content,
    read_text fs p = Ok content /\
    read_text (snd (FixThemeLineByLine.fix_file fs p)) p = Ok new_content /\
    readlines new_content =
      map (fun line => fst (FixThemeLineByLine.fix_line line)) (readlines content).
Proof.
  intros Hpos.
  destruct (theme_fix_file_cases fs p) as [E | (content & i & l & Hr & Hc & E)];
    [rewrite E in Hpos; cbn [fst snd] in Hpos; lia | ].
  cbv zeta in E. rewrite E in *.
  destruct (write_text fs p
              (concat (fst (FixThemeLineByLine.fix_lines 1 (readlines content)))))
    as [fs' [e | ]] eqn:Ew; cbn [fst snd] in *; [lia | ].
  pose proof (write_text_done _ _ _ _ _ Hr Ew) as Hr'.
  exists content. eexists. split; [exact Hr | ]. split; [exact Hr' | ].
  rewrite fix_lines_fst. apply readlines_concat, fixed_lines_ok, readlines_ok.
Qed.

Lemma fix_file_keeps_the_lines_witness :
  let fs : fsys :=
    {[ "a.jsx" := File (Some (str "<p>" ++ [nl] ++ class_attr "bg-white")) true true true None ]} in
  exists content new_content,
    read_text fs "a.jsx" = Ok content /\
    read_text (snd (FixThemeLineByLine.fix_file fs "a.jsx")) "a.jsx" = Ok new_content /\
    readlines new_content =
      map (fun line => fst (FixThemeLineByLine.fix_line line)) (readlines content).
Proof.
  intros fs. apply (fix_file_keeps_the_lines fs "a.jsx").
  vm_compute. lia.
Defined.

(** ** One insertion for each dark class *)

Lemma inserted_blocked table d pairs :
  clash_free table = true -> In d (map snd table) -> incl pairs table ->
  forall line, str_in d line = true -> inserted d pairs line = 0.
Proof.
  intros Hcf Hd. induction pairs as [ | [p d'] pairs IH]; intros Hincl line Hin;
    [reflexivity | ].
  assert (Hrest : incl pairs table) by (intros e He; apply Hincl; right; exact He).
  cbn [inserted snd].
  destruct (FixThemeLineByLine.fix_step (p, d') line) as [line' | ] eqn:E;
    [ | apply IH; assumption].
  destruct (text_eqb d' d) eqn:Ed.
  - apply text_eqb_eq in Ed. subst d'.
    rewrite (fix_step_guarded p d line Hin) in E. discriminate.
  - cbn [Nat.add]. apply IH; [exact Hrest | ].
    eapply fix_step_keeps; try eassumption. apply Hincl. left. reflexivity.
Qed.

Lemma inserted_once table d pairs :
  clash_free table = true -> incl pairs table ->
  forall line, inserted d pairs line <= 1.
Proof.
  intros Hcf. induction pairs as [ | [p d'] pairs IH]; intros Hincl line;
    [simpl; lia | ].
  assert (Hrest : incl pairs table) by (intros e He; apply Hincl; right; exact He).
  cbn [inserted snd].
  destruct (FixThemeLineByLine.fix_step (p, d') line) as [line' | ] eqn:E;
    [ | apply IH; exact Hrest].
  destruct (text_eqb d' d) eqn:Ed.
  - apply text_eqb_eq in Ed. subst d'.
    rewrite (inserted_blocked table d pairs Hcf); [lia | | exact Hrest | ].
    + apply in_map_iff. exists (p, d). split; [reflexivity | apply Hincl; left; reflexivity].
    + eapply fix_step_adds_dark. exact E.
  - cbn [Nat.add]. apply IH. exact Hrest.
Qed.

Lemma inserted_stays table d pairs :
  clash_free table = true -> incl pairs table ->
  forall line ch,
    0 < inserted d pairs line ->
    str_in d (fst (FixThemeLineByLine.fix_loop pairs line ch)) = true.
Proof.
  intros Hcf. induction pairs as [ | [p d'] pairs IH]; intros Hincl line ch Hpos;
    [simpl in Hpos; lia | ].
  assert (Hrest : incl pairs table) by (intros e He; apply Hincl; right; exact He).
  cbn [inserted snd FixThemeLineByLine.fix_loop] in *.
  destruct (FixThemeLineByLine.fix_step (p, d') line) as [line' | ] eqn:E;
    [ | apply IH; assumption].
  destruct (text_eqb d' d) eqn:Ed.
  - apply text_eqb_eq in Ed. subst d'.
    apply (fix_loop_keeps table d pairs Hcf); [ | exact Hrest | ].
    + apply in_map_iff. exists (p, d). split; [reflexivity | apply Hincl; left; reflexivity].
    + eapply fix_step_adds_dark. exact E.
  - cbn [Nat.add] in Hpos. apply IH; assumption.
Qed.

Lemma inserted_facts table d line :
  clash_free table = true ->
  inserted d table line <= 1 /\
  (In d (map snd table) -> str_in d line = true ->
   inserted d table line = 0 /\
   str_in d (fst (FixThemeLineByLine.fix_loop table line false)) = true) /\
  (inserted d table line = 1 ->
   str_in d (fst (FixThemeLineByLine.fix_loop table line false)) = true).
Proof.
  intros Hcf. split; [apply (inserted_once table d table Hcf (incl_refl _)) | ]. split.
  - intros Hd Hin. split.
    + apply (inserted_blocked table d table Hcf Hd (incl_refl _) line Hin).
    + apply (fix_loop_keeps table d table Hcf Hd (incl_refl _) line false Hin).
  - intros H1. apply (inserted_stays table d table Hcf (incl_refl _)). lia.
Qed.

(** X14. [fix_line] inserts each dark class at most once into a line,
    whatever the line: the pairs of [THEME_PAIRS] that share a dark class
    share one insertion. A dark class of the table that is on the line
    already is not inserted and is still on the line returned, and a dark
    class that was inserted is on the line returned: the later pairs do
    not break it. *)
Theorem each_dark_class_is_inserted_once (dark line : text) :
  inserted dark FixThemeLineByLine.THEME_PAIRS line <= 1 /\
  (In dark (map snd FixThemeLineByLine.THEME_PAIRS) -> str_in dark line = true ->
   inserted dark FixThemeLineByLine.THEME_PAIRS line = 0 /\
   str_in dark (fst (FixThemeLineByLine.fix_line line)) = true) /\
  (inserted dark FixThemeLineByLine.THEME_PAIRS line = 1 ->
   str_in dark (fst (FixThemeLineByLine.fix_line line)) = true).
Proof.
  exact (inserted_facts FixThemeLineByLine.THEME_PAIRS dark line theme_pairs_clash_free).
Qed.

Lemma each_dark_class_is_inserted_once_witness :
  str_in (str "dark:bg-surface-secondary")
    (fst (FixThemeLineByLine.fix_line (class_attr "bg-gray-50 bg-gray-100"))) = true.
Proof.
  apply (proj2 (proj2 (each_dark_class_is_inserted_once
                         (str "dark:bg-surface-secondary")
                         (class_attr "bg-gray-50 bg-gray-100")))).
  vm_compute. reflexivity.
Defined.

(** ** The two lookahead guards *)

Lemma lookahead_sees_dark_any b tail cs :
  rmatch (cat [Plus ws; lit (str "dark:")]) (Cursor b (str " dark:" ++ tail)) cs
    (fun _ _ => Some tt) = Some tt.
Proof. vm_compute. reflexivity. Qed.

Lemma rmatch_lit_inv (A : Type) L cur cs (k : cursor -> caps -> option A) x :
  rmatch (lit L) cur cs k = Some x -> exists tail, after cur = L ++ tail.
Proof.
  intros H. apply rmatch_sound in H. destruct H as (c' & s' & Hst & _).
  apply steps_accepts in Hst. destruct Hst as (w & [Ha _] & Hacc).
  apply accepts_lit in Hacc. subst w. exists (after c'). exact Ha.
Qed.

Lemma steps_weaker_guard l c cs c' cs' :
  steps (guarded_ws l) c cs c' cs' -> steps (UpdateDarkMode.guarded l) c cs c' cs'.
Proof.
  unfold guarded_ws, UpdateDarkMode.guarded. cbn [cat]. intros H.
  inversion H as [ | | | r1 r2 c0 s0 c1 s1 c2 s2 Hb H1 | | | | | | | ]; subst.
  inversion H1 as [ | | | r1 r2 c0 s0 c2' s2' c3 s3 Hl H2 | | | | | | | ]; subst.
  inversion H2 as [ | | | r1 r2 c0 s0 c3' s3' c4 s4 Hb2 H3 | | | | | | | ]; subst.
  inversion H3 as [ | | | | | | | | | r cur cs0 Hn | ]; subst.
  eapply steps_seq; [exact Hb | ]. eapply steps_seq; [exact Hl | ].
  eapply steps_seq; [exact Hb2 | ]. apply steps_nlook.
  destruct (rmatch (lit (str " dark:")) c' cs' (fun _ _ => Some tt)) as [u | ] eqn:E;
    [ | reflexivity].
  exfalso. apply rmatch_lit_inv in E. destruct E as [tail E].
  destruct c' as [b a]. cbn [after] in E. subst a.
  rewrite lookahead_sees_dark_any in Hn. discriminate.
Qed.

Lemma is_match_weaker_guard l s m :
  is_match (guarded_ws l) s m -> is_match (UpdateDarkMode.guarded l) s m.
Proof.
  intros (Hs & c & c' & H1 & H2 & H3 & Hst).
  split; [exact Hs | ]. exists c, c'. repeat split; try assumption.
  apply steps_weaker_guard. exact Hst.
Qed.

(** X15. The table of [fix_all_dark_mode.py] is the first twelve rules
    of [update_dark_mode.py] under a stricter guard: rule by rule the
    replacements are equal, and whatever the pattern with
    [(?!\s+dark:)] matches, the pattern with [(?! dark:)] matches with the
    same span. Not the other way round: on [bg-white] followed by two
    blanks and [dark:] only the second one matches. *)
Theorem fix_all_dark_mode_has_the_stricter_guard :
  Forall2 (fun strict weak =>
             snd strict = snd weak /\
             forall s m, is_match (fst strict) s m -> is_match (fst weak) s m)
          FixAllDarkMode.replacements (take 12 UpdateDarkMode.REPLACEMENTS) /\
  (exists s, finditer (guarded_ws "bg-white") s = [] /\
             finditer (UpdateDarkMode.guarded "bg-white") s <> []).
Proof.
  split.
  - unfold FixAllDarkMode.replacements, UpdateDarkMode.REPLACEMENTS. cbn [take].
    repeat (constructor;
            [split; [reflexivity | intros s m; apply is_match_weaker_guard] | ]).
    constructor.
  - exists (str "bg-white  dark:bg-surface-primary"). split; vm_compute; congruence.
Qed.

(** ** What the callable of [fix_multiline_inputs.py] returns *)

Lemma multiline_match_shape tag s m :
  is_match (FixMultilineInputs.pattern tag) s m ->
  exists attrs before_border after_border,
    let opening := str ("<" ++ tag)%string ++ attrs ++ str "className=" ++ [dq] in
    let classes := before_border ++ str "border" ++ after_border in
    group0 m = opening ++ classes ++ [dq] /\
    group m 1 = Some opening /\ group m 2 = Some classes /\ group m 3 = Some [dq].
Proof.
  intros H. apply three_groups in H;
    [ | cbn [cat groupless]; rewrite groupless_lit; reflexivity | reflexivity | reflexivity].
  destruct H as (w1 & w2 & w3 & E0 & E1 & E2 & E3 & A1 & A2 & A3).
  inversion A3; subst. cbn [cat] in A1, A2.
  apply accepts_seq_inv in A1. destruct A1 as (u1 & v1 & -> & L1 & A1).
  apply accepts_lit in L1. subst u1.
  apply accepts_seq_inv in A1. destruct A1 as (u2 & v2 & -> & B1 & A1).
  inversion B1; subst.
  apply accepts_seq_inv in A1. destruct A1 as (attrs & v3 & -> & _ & A1).
  apply accepts_seq_inv in A1. destruct A1 as (u4 & v4 & -> & L4 & A1).
  apply accepts_lit in L4. subst u4. inversion A1; subst.
  apply accepts_seq_inv in A2. destruct A2 as (pre & v5 & -> & _ & A2).
  apply accepts_seq_inv in A2. destruct A2 as (u6 & post & -> & L6 & _).
  apply accepts_lit in L6. subst u6.
  exists attrs, pre, post. cbv zeta. cbn [app] in *. auto.
Qed.

(** X16. For every element that [re.sub] finds with the pattern of
    [fix_multiline_inputs.py]: the match is the opening (the tag, its
    attributes and [className=] with the opening quote), the classes,
    which hold [border], and the closing quote. [add_bg] returns the match
    as it is when the classes hold [bg-], and otherwise puts
    [bg-white dark:bg-surface-primary] and a blank right after the opening
    quote. Either way what it returns holds [bg-]. *)
Theorem add_bg_puts_the_classes_first (tag : string) (content : text) (m : rematch) :
  In m (finditer (FixMultilineInputs.pattern tag) content) ->
  exists attrs classes,
    let opening := str ("<" ++ tag)%string ++ attrs ++ str "className=" ++ [dq] in
    group0 m = opening ++ classes ++ [dq] /\
    str_in (str "border") classes = true /\
    FixMultilineInputs.add_bg m =
      Ok (if str_in (str "bg-") classes then group0 m
          else opening ++ str "bg-white dark:bg-surface-primary " ++ classes ++ [dq]) /\
    (forall item, FixMultilineInputs.add_bg m = Ok item ->
       str_in (str "bg-") item = true).
Proof.
  intros Hm. apply finditer_is_match in Hm.
  destruct (multiline_match_shape _ _ _ Hm) as (attrs & pre & post & E0 & E1 & E2 & E3).
  cbv zeta in *. exists attrs, (pre ++ str "border" ++ post). cbv zeta.
  set (opening := str ("<" ++ tag)%string ++ attrs ++ str "className=" ++ [dq]) in *.
  set (classes := pre ++ str "border" ++ post) in *.
  assert (Hadd : FixMultilineInputs.add_bg m =
      Ok (if str_in (str "bg-") classes then group0 m
          else opening ++ str "bg-white dark:bg-surface-primary " ++ classes ++ [dq])).
  { unfold FixMultilineInputs.add_bg. rewrite E1, E2, E3.
    destruct (str_in (str "bg-") classes); reflexivity. }
  split; [exact E0 | ]. split; [apply str_in_intro | ]. split; [exact Hadd | ].
  intros item Hitem. rewrite Hadd in Hitem.
  assert (Ei : item = if str_in (str "bg-") classes then group0 m
                      else opening ++ str "bg-white dark:bg-surface-primary "
                             ++ classes ++ [dq]) by congruence.
  rewrite Ei. clear Hadd Hitem Ei.
  destruct (str_in (str "bg-") classes) eqn:Eb.
  - rewrite E0. apply str_in_inv in Eb. destruct Eb as (a & b & Eb). rewrite Eb.
    replace (opening ++ (a ++ str "bg-" ++ b) ++ [dq])
      with ((opening ++ a) ++ str "bg-" ++ (b ++ [dq]))
      by (repeat rewrite <- app_assoc; reflexivity).
    apply str_in_intro.
  - change (str "bg-white dark:bg-surface-primary ")
      with (str "bg-" ++ str "white dark:bg-surface-primary ").
    rewrite <- (app_assoc (str "bg-")). apply str_in_intro.
Qed.

Lemma add_bg_puts_the_classes_first_witness :
  let content := str "<input className=" ++ [dq] ++ str "border p-2" ++ [dq] ++ str " />" in
  exists m, In m (finditer (FixMultilineInputs.pattern "input") content) /\
    forall item, FixMultilineInputs.add_bg m = Ok item ->
                 str_in (str "bg-") item = true.
Proof.
  intros content.
  assert (Hm : exists m, In m (finditer (FixMultilineInputs.pattern "input") content))
    by (eexists; vm_compute; left; reflexivity).
  destruct Hm as [m Hm]. exists m. split; [exact Hm | ].
  destruct (add_bg_puts_the_classes_first "input" content m Hm)
    as (attrs & classes & _ & _ & _ & H).
  exact H.
Defined.

(** ** The script of [fix-authorizers.py] *)


(** X17. The script of [fix-authorizers.py] stops with an exception only
    for its file: when the stack file cannot be read (absent, unreadable,
    not UTF-8), with the exception of the read and the files as they were,
    or when the write raises: [PermissionError] when the file may not be
    opened for writing, the files being as they were, or [OSError] when
    the device fails, the file being left with part of the text. Otherwise
    it writes the substituted text, also when nothing changed, and the
    number it prints is the number of matches of
    [authorizer:\s*httpAuthorizer] in the text written. Every other path
    is left alone in all cases. *)
Theorem script_fails_only_on_the_file (fs : fsys) :
  match FixAuthorizers.script fs with
  | (Ok n, fs') =>
      exists content new_content,
        read_text fs FixAuthorizers.stack_file = Ok content /\
        FixAuthorizers.apply_fix content = Ok new_content /\
        read_text fs' FixAuthorizers.stack_file = Ok new_content /\
        n = length (finditer FixAuthorizers.authorizer_pattern new_content) /\
        touches_only FixAuthorizers.stack_file fs fs'
  | (Raise e, fs') =>
      (read_text fs FixAuthorizers.stack_file = Raise e /\ fs' = fs) \/
      (exists content new_content,
         read_text fs FixAuthorizers.stack_file = Ok content /\
         FixAuthorizers.apply_fix content = Ok new_content /\
         write_text fs FixAuthorizers.stack_file new_content = (fs', Some e) /\
         touches_only FixAuthorizers.stack_file fs fs' /\
         ((e = PermissionError /\ fs' = fs /\
           exists f, fs !! FixAuthorizers.stack_file = Some f /\ f_writable f = false) \/
          (e = OSError /\
           exists part, read_text fs' FixAuthorizers.stack_file = Ok part /\
                        length part < length new_content)))
  end.
Proof.
  unfold FixAuthorizers.script.
  destruct (read_text fs FixAuthorizers.stack_file) as [content | e] eqn:Er;
    [ | left; auto].
  destruct (apply_fix_total content) as (new & Ea). rewrite Ea.
  pose proof (write_text_touches fs FixAuthorizers.stack_file content new Er) as Ht.
  destruct (write_text fs FixAuthorizers.stack_file new) as [fs' [e | ]] eqn:Ew;
    cbn [fst] in Ht.
  - right. exists content, new.
    split; [reflexivity | ]. split; [exact Ea | ]. split; [exact Ew | ].
    split; [exact Ht | ].
    destruct (write_text_raises _ _ _ _ _ _ Er Ew)
      as [(-> & -> & Hf) | (-> & f & _ & _ & Hlen & Hpart)].
    + left. auto.
    + right. split; [reflexivity | ]. exists (kept f new). auto.
  - cbv zeta. exists content, new. unfold re_findall. rewrite length_map.
    split; [reflexivity | ]. split; [exact Ea | ].
    split; [exact (write_text_done _ _ _ _ _ Er Ew) | ].
    split; [reflexivity | exact Ht].
Qed.

(** ** The text a per-file function leaves in the file *)

(** A write to a file that could be read and may be written: whatever
    way it ends, the file holds what the device kept. *)
Lemma write_text_leaves fs p f content t :
  read_text fs p = Ok content -> fs !! p = Some f -> f_writable f = true ->
  read_text (fst (write_text fs p t)) p = Ok (kept f t).
Proof.
  unfold read_text, write_text. intros Hr Hf Hw. rewrite Hf in *.
  destruct (f_reachable f); [ | discriminate]. rewrite Hw. cbn [andb fst] in *.
  destruct (f_readable f); [ | discriminate].
  rewrite lookup_insert_eq. reflexivity.
Qed.

Lemma left_in_file_all f content new :
  f_room f = None -> left_in_file f content new = new.
Proof.
  intros Hroom. unfold left_in_file, kept. rewrite Hroom.
  destruct (text_eqb new content) eqn:E; [ | reflexivity].
  apply text_eqb_eq in E. congruence.
Qed.

Lemma rewrite_file_stores transform fs p f content new n :
  read_text fs p = Ok content -> fs !! p = Some f -> f_writable f = true ->
  transform content = Ok (new, n) ->
  read_text (snd (rewrite_file transform fs p)) p = Ok (left_in_file f content new).
Proof.
  intros Hr Hf Hw Ht. unfold rewrite_file, left_in_file. rewrite Hr, Ht. cbv zeta.
  destruct (text_eqb new content) eqn:Eq; cbn [negb]; [exact Hr | ].
  pose proof (write_text_leaves fs p f content new Hr Hf Hw) as H.
  destruct (write_text fs p new) as [fs' [e | ]]; exact H.
Qed.

Lemma unflagged_unchanged (flag : text -> bool) (fixed : text -> text) lines :
  (forall l, flag l = false -> fixed l = l) ->
  length (List.filter flag lines) = 0 -> map fixed lines = lines.
Proof.
  intros Hflag. induction lines as [ | line rest IH]; intros H; [reflexivity | ].
  cbn [List.filter map] in *. destruct (flag line) eqn:Ef; [discriminate | ].
  rewrite (IH H), (Hflag line Ef). reflexivity.
Qed.

Lemma fix_lines_unchanged lines i :
  snd (FixThemeLineByLine.fix_lines i lines) = [] ->
  fst (FixThemeLineByLine.fix_lines i lines) = lines.
Proof.
  intros H. rewrite fix_lines_fst.
  apply (unflagged_unchanged (fun l => snd (FixThemeLineByLine.fix_line l))).
  - intros l Hl.
    destruct (decide (fst (FixThemeLineByLine.fix_line l) = l)) as [E | Hne];
      [exact E | ].
    apply fix_line_changed in Hne. rewrite Hne in Hl. discriminate Hl.
  - rewrite <- (fix_lines_flags lines i), H. reflexivity.
Qed.

Lemma theme_fix_file_stores fs p f content :
  read_text fs p = Ok content -> fs !! p = Some f -> f_writable f = true ->
  read_text (snd (FixThemeLineByLine.fix_file fs p)) p =
  Ok (left_in_file f content
        (concat (map (fun line => fst (FixThemeLineByLine.fix_line line))
                   (readlines content)))).
Proof.
  intros Hr Hf Hw. rewrite <- (fix_lines_fst (readlines content) 1).
  unfold FixThemeLineByLine.fix_file, left_in_file. rewrite Hr. cbv zeta.
  pose proof (fix_lines_unchanged (readlines content) 1) as Hu.
  pose proof (fix_lines_length (readlines content) 1) as Hlen.
  destruct (FixThemeLineByLine.fix_lines 1 (readlines content))
    as [new_lines [ | i changes]]; cbn [fst snd] in *.
  - rewrite (Hu eq_refl), concat_readlines, text_eqb_refl. exact Hr.
  - destruct Hlen as [_ Hlt]. specialize (Hlt ltac:(discriminate)).
    rewrite concat_readlines in Hlt.
    assert (Eq : text_eqb (concat new_lines) content = false).
    { destruct (text_eqb (concat new_lines) content) eqn:E; [ | reflexivity].
      apply text_eqb_eq in E. rewrite E in Hlt. lia. }
    rewrite Eq.
    pose proof (write_text_leaves fs p f content (concat new_lines) Hr Hf Hw) as H.
    destruct (write_text fs p (concat new_lines)) as [fs' [e | ]]; exact H.
Qed.

Lemma multiline_fix_file_stores fs p f content new :
  read_text fs p = Ok content -> fs !! p = Some f -> f_writable f = true ->
  FixMultilineInputs.fix_file_content content = Ok new ->
  read_text (snd (FixMultilineInputs.fix_file fs p)) p =
  Ok (left_in_file f content new).
Proof.
  intros Hr Hf Hw Ht. unfold FixMultilineInputs.fix_file, left_in_file.
  rewrite Hr, Ht. cbv zeta.
  destruct (text_eqb new content) eqn:Eq; cbn [negb]; [exact Hr | ].
  pose proof (write_text_leaves fs p f content new Hr Hf Hw) as H.
  destruct (write_text fs p new) as [fs' [e | ]]; exact H.
Qed.

(** X18. For a file that can be read and may be written, each per-file
    function leaves in the file what the device kept of the text that its
    transformation gives for the text read, or the text read when the two
    are equal and nothing is written. On a device that takes the whole
    text this is, whether the function wrote or not, the text that the
    transformation gives: the concatenation of the fixed lines for
    [fix_file] of [fix_theme_line_by_line.py], the result of the
    substitution loops for the three [update_file] functions, and the
    result of [fix_file_content] for [fix_file] of
    [fix_multiline_inputs.py]. *)
Theorem per_file_functions_store_the_rewritten_text
    (fs : fsys) (p : string) (f : file) (content : text) :
  read_text fs p = Ok content -> fs !! p = Some f -> f_writable f = true ->
  (read_text (snd (FixThemeLineByLine.fix_file fs p)) p =
     Ok (left_in_file f content
           (concat (map (fun line => fst (FixThemeLineByLine.fix_line line))
                      (readlines content)))) /\
   read_text (snd (UpdateDarkMode.update_file fs p)) p =
     Ok (left_in_file f content (fst (UpdateDarkMode.update_content content))) /\
   read_text (snd (FixAllDarkMode.update_file fs p)) p =
     Ok (left_in_file f content (fst (FixAllDarkMode.update_content content))) /\
   read_text (snd (FixColoredBackgrounds.update_file fs p)) p =
     Ok (left_in_file f content (fst (FixColoredBackgrounds.update_content content))) /\
   (exists new, FixMultilineInputs.fix_file_content content = Ok new /\
      read_text (snd (FixMultilineInputs.fix_file fs p)) p =
        Ok (left_in_file f content new))) /\
  (f_room f = None ->
   read_text (snd (FixThemeLineByLine.fix_file fs p)) p =
     Ok (concat (map (fun line => fst (FixThemeLineByLine.fix_line line))
                   (readlines content))) /\
   read_text (snd (UpdateDarkMode.update_file fs p)) p =
     Ok (fst (UpdateDarkMode.update_content content)) /\
   read_text (snd (FixAllDarkMode.update_file fs p)) p =
     Ok (fst (FixAllDarkMode.update_content content)) /\
   read_text (snd (FixColoredBackgrounds.update_file fs p)) p =
     Ok (fst (FixColoredBackgrounds.update_content content)) /\
   read_text (snd (FixMultilineInputs.fix_file fs p)) p =
     FixMultilineInputs.fix_file_content content).
Proof.
  intros Hr Hf Hw.
  pose proof (theme_fix_file_stores fs p f content Hr Hf Hw) as H1.
  assert (H2 : read_text (snd (UpdateDarkMode.update_file fs p)) p =
               Ok (left_in_file f content (fst (UpdateDarkMode.update_content content)))).
  { apply (rewrite_file_stores _ fs p f content _
             (snd (UpdateDarkMode.update_content content)) Hr Hf Hw).
    destruct (UpdateDarkMode.update_content content). reflexivity. }
  assert (H3 : read_text (snd (FixAllDarkMode.update_file fs p)) p =
               Ok (left_in_file f content (fst (FixAllDarkMode.update_content content)))).
  { apply (rewrite_file_stores _ fs p f content _
             (snd (FixAllDarkMode.update_content content)) Hr Hf Hw).
    destruct (FixAllDarkMode.update_content content). reflexivity. }
  assert (H4 : read_text (snd (FixColoredBackgrounds.update_file fs p)) p =
               Ok (left_in_file f content
                     (fst (FixColoredBackgrounds.update_content content)))).
  { apply (rewrite_file_stores _ fs p f content _
             (snd (FixColoredBackgrounds.update_content content)) Hr Hf Hw).
    destruct (FixColoredBackgrounds.update_content content). reflexivity. }
  destruct (fix_tags_ok ["input"; "select"; "textarea"]) with (content := content)
    as [out E].
  { intros tag Htag. simpl in Htag.
    destruct Htag as [<- | [<- | [<- | []]]]; repeat split. }
  change (FixMultilineInputs.fix_tags ["input"; "select"; "textarea"] content)
    with (FixMultilineInputs.fix_file_content content) in E.
  pose proof (multiline_fix_file_stores fs p f content out Hr Hf Hw E) as H5.
  split.
  - split; [exact H1 | ]. split; [exact H2 | ]. split; [exact H3 | ].
    split; [exact H4 | ]. exists out. split; [exact E | exact H5].
  - intros Hroom. rewrite H1, H2, H3, H4, H5, E.
    rewrite !(left_in_file_all f content _ Hroom). repeat split.
Qed.

Lemma per_file_functions_store_the_rewritten_text_witness :
  let fs : fsys := {[ "a.jsx" := File (Some (class_attr "bg-white")) true true true None ]} in
  read_text (snd (FixAllDarkMode.update_file fs "a.jsx")) "a.jsx" =
    Ok (fst (FixAllDarkMode.update_content (class_attr "bg-white"))).
Proof.
  intros fs.
  refine (proj1 (proj2 (proj2 (proj2 (per_file_functions_store_the_rewritten_text
            fs "a.jsx" (File (Some (class_attr "bg-white")) true true true None)
            (class_attr "bg-white") _ _ _) _)))); reflexivity.
Defined.

(** ** Failures while a file is processed *)

(** The loop of [update_dark_mode.py] over distinct paths that can all be
    examined, from an empty dictionary. *)
Lemma priority_loop_results files fs :
  List.NoDup files ->
  (forall rel, In rel files -> examinable fs (UpdateDarkMode.base_path rel) = true) ->
  exists results total fs',
    UpdateDarkMode.main_loop files ∅ 0 fs = (Ok (results, total), fs') /\
    (forall rel count,
       results !! rel = Some count <->
       In rel files /\ count = count_of fs rel /\ 0 < count) /\
    total = list_sum (map (count_of fs) files) /\
    (forall rel, In rel files ->
       fs' !! UpdateDarkMode.base_path rel =
       snd (UpdateDarkMode.update_file fs (UpdateDarkMode.base_path rel))
         !! UpdateDarkMode.base_path rel) /\
    (forall q, (forall rel, In rel files -> q <> UpdateDarkMode.base_path rel) ->
       fs' !! q = fs !! q).
Proof.
  intros Hnd Hexam.
  destruct (priority_loop_spec files Hnd ∅ 0 fs (fun rel _ => lookup_empty rel) Hexam)
    as (results & total & fs' & E & H1 & H2 & _ & H4 & H5).
  exists results, total, fs'. split; [exact E | ].
  split; [ | split; [exact H2 | split; [exact H4 | exact H5]]].
  intros rel count. rewrite H1, lookup_empty.
  destruct (bool_decide (rel ∈ files)) eqn:Ei.
  - apply bool_decide_eq_true in Ei. apply list_elem_of_In in Ei. cbn [andb].
    destruct (0 <? count_of fs rel) eqn:En.
    + apply Nat.ltb_lt in En. split.
      * intros E'. injection E' as <-. auto.
      * intros (_ & -> & _). reflexivity.
    + apply Nat.ltb_ge in En. split; [discriminate | ].
      intros (_ & -> & Hpos). lia.
  - apply bool_decide_eq_false in Ei. cbn [andb].
    split; [discriminate | ]. intros (Hin & _).
    apply list_elem_of_In in Hin. contradiction.
Qed.

Lemma theme_loop_step p rest fs :
  is_test_path p = false ->
  fst (FixThemeLineByLine.fix_file fs p) = (0, []) ->
  FixThemeLineByLine.main_loop (p :: rest) fs =
  FixThemeLineByLine.main_loop rest (snd (FixThemeLineByLine.fix_file fs p)).
Proof.
  intros Ht H0. cbn [FixThemeLineByLine.main_loop]. rewrite Ht.
  destruct (FixThemeLineByLine.fix_file fs p) as [[n l] fs1]. cbn [fst snd] in *.
  injection H0 as -> ->.
  destruct (FixThemeLineByLine.main_loop rest fs1) as [[a b] fs2]. reflexivity.
Qed.

(** A write that raises: the handler returns with the files that the
    write left. *)
Lemma rewrite_file_write_raises transform fs p content new n fs' e :
  read_text fs p = Ok content -> transform content = Ok (new, n) ->
  new <> content -> write_text fs p new = (fs', Some e) ->
  rewrite_file transform fs p = (0, fs').
Proof.
  intros Hr Ht Hne Ew. unfold rewrite_file. rewrite Hr, Ht. cbv zeta.
  destruct (text_eqb new content) eqn:Eq.
  - apply text_eqb_eq in Eq. contradiction.
  - cbn [negb]. rewrite Ew. reflexivity.
Qed.

Lemma fix_file_write_raises fs p content fs' e :
  read_text fs p = Ok content ->
  let new_content :=
    concat (map (fun line => fst (FixThemeLineByLine.fix_line line))
              (readlines content)) in
  new_content <> content -> write_text fs p new_content = (fs', Some e) ->
  FixThemeLineByLine.fix_file fs p = ((0, []), fs').
Proof.
  intros Hr new_content Hne Ew. subst new_content.
  rewrite <- (fix_lines_fst (readlines content) 1) in Hne, Ew.
  unfold FixThemeLineByLine.fix_file. rewrite Hr. cbv zeta.
  pose proof (fix_lines_unchanged (readlines content) 1) as Hu.
  destruct (FixThemeLineByLine.fix_lines 1 (readlines content))
    as [new_lines [ | i changes]]; cbn [fst snd] in *.
  - exfalso. apply Hne. rewrite (Hu eq_refl). apply concat_readlines.
  - rewrite Ew. reflexivity.
Qed.

(** C9 as amended. An exception raised while a file is read or
    transformed, or when the file may not be opened for writing, is caught
    inside the per-file function: [update_file] returns 0 and [fix_file]
    returns (0, []), and no file is changed, which is the result for a
    file in which nothing matches. An exception raised after the file was
    opened for writing is caught as well and gives the same value, with
    the files as the write left them: only that file can differ from
    before. The loop of [fix_theme_line_by_line.py] goes on with the next
    file from the files that [fix_file] left, and over distinct paths each
    file and the totals are what [fix_file] gives for each file alone on
    the initial files.
    The loop of [update_dark_mode.py] does, for a path that can be
    examined, what [update_file] returns and goes on with the next file;
    over distinct paths that can all be examined its results, its total
    and each file are what [update_file] gives for each file alone. For a
    path that cannot be examined [file_path.exists()] raises outside any
    [try]: the loop ends there with [PermissionError]. *)
Theorem per_file_failure_is_contained :
  (forall fs p e, read_text fs p = Raise e ->
     UpdateDarkMode.update_file fs p = (0, fs) /\
     FixThemeLineByLine.fix_file fs p = ((0, []), fs)) /\
  (forall fs p f, fs !! p = Some f -> f_reachable f && f_writable f = false ->
     UpdateDarkMode.update_file fs p = (0, fs) /\
     FixThemeLineByLine.fix_file fs p = ((0, []), fs)) /\
  (forall fs p content fs' e, read_text fs p = Ok content ->
     let new_content := fst (UpdateDarkMode.update_content content) in
     new_content <> content -> write_text fs p new_content = (fs', Some e) ->
     UpdateDarkMode.update_file fs p = (0, fs') /\ touches_only p fs fs') /\
  (forall fs p content fs' e, read_text fs p = Ok content ->
     let new_content :=
       concat (map (fun line => fst (FixThemeLineByLine.fix_line line))
                 (readlines content)) in
     new_content <> content -> write_text fs p new_content = (fs', Some e) ->
     FixThemeLineByLine.fix_file fs p = ((0, []), fs') /\ touches_only p fs fs') /\
  (forall transform fs p content e, read_text fs p = Ok content ->
     transform content = Raise e -> rewrite_file transform fs p = (0, fs)) /\
  (forall fs p content, read_text fs p = Ok content ->
     ((forall pat r, In (pat, r) UpdateDarkMode.REPLACEMENTS -> finditer pat content = []) ->
      UpdateDarkMode.update_file fs p = (0, fs)) /\
     ((forall line pat d, In line (readlines content) ->
         In (pat, d) FixThemeLineByLine.THEME_PAIRS -> re_search pat line = None) ->
      FixThemeLineByLine.fix_file fs p = ((0, []), fs))) /\
  (forall fs p rest, is_test_path p = false ->
     fst (FixThemeLineByLine.fix_file fs p) = (0, []) ->
     FixThemeLineByLine.main_loop (p :: rest) fs =
     FixThemeLineByLine.main_loop rest (snd (FixThemeLineByLine.fix_file fs p))) /\
  (forall files fs, List.NoDup files ->
     (forall p, In p files -> is_test_path p = false ->
        snd (FixThemeLineByLine.main_loop files fs) !! p =
        snd (FixThemeLineByLine.fix_file fs p) !! p) /\
     (forall q, ~ In q files ->
        snd (FixThemeLineByLine.main_loop files fs) !! q = fs !! q) /\
     fst (FixThemeLineByLine.main_loop files fs) =
       (length (List.filter
                  (fun p => negb (is_test_path p) && (0 <? lines_changed_of fs p)) files),
        list_sum (map (fun p => if is_test_path p then 0 else lines_changed_of fs p)
                    files))) /\
  (forall fs rel rest results total,
     examinable fs (UpdateDarkMode.base_path rel) = true ->
     UpdateDarkMode.main_loop (rel :: rest) results total fs =
     let count := fst (UpdateDarkMode.update_file fs (UpdateDarkMode.base_path rel)) in
     let fs' := snd (UpdateDarkMode.update_file fs (UpdateDarkMode.base_path rel)) in
     if 0 <? count
     then UpdateDarkMode.main_loop rest (<[rel := count]> results) (total + count) fs'
     else UpdateDarkMode.main_loop rest results total fs') /\
  (forall files fs, List.NoDup files ->
     (forall rel, In rel files -> examinable fs (UpdateDarkMode.base_path rel) = true) ->
     exists results total fs',
       UpdateDarkMode.main_loop files ∅ 0 fs = (Ok (results, total), fs') /\
       (forall rel count,
          results !! rel = Some count <->
          In rel files /\
          count = fst (UpdateDarkMode.update_file fs (UpdateDarkMode.base_path rel)) /\
          0 < count) /\
       total = list_sum (map (fun rel =>
                  fst (UpdateDarkMode.update_file fs (UpdateDarkMode.base_path rel)))
                  files) /\
       (forall rel, In rel files ->
          fs' !! UpdateDarkMode.base_path rel =
          snd (UpdateDarkMode.update_file fs (UpdateDarkMode.base_path rel))
            !! UpdateDarkMode.base_path rel) /\
       (forall q, (forall rel, In rel files -> q <> UpdateDarkMode.base_path rel) ->
          fs' !! q = fs !! q)) /\
  (forall fs rel rest results total,
     examinable fs (UpdateDarkMode.base_path rel) = false ->
     UpdateDarkMode.main_loop (rel :: rest) results total fs =
     (Raise PermissionError, fs)).
Proof.
  split; [ | split; [ | split; [ | split; [ | split; [ | split;
    [ | split; [ | split; [ | split; [ | split]]]]]]]]].
  - intros fs p e H. split.
    + eapply rewrite_file_read_fails. exact H.
    + eapply fix_file_read_fails. exact H.
  - intros fs p f Hf Hw. split.
    + eapply rewrite_file_open_fails; eassumption.
    + eapply fix_file_open_fails; eassumption.
  - intros fs p content fs' e Hr new_content Hne Ew. split.
    + apply (rewrite_file_write_raises _ fs p content new_content
               (snd (UpdateDarkMode.update_content content)) fs' e Hr);
        [ | exact Hne | exact Ew].
      subst new_content. destruct (UpdateDarkMode.update_content content). reflexivity.
    + pose proof (write_text_touches fs p content new_content Hr) as H.
      rewrite Ew in H. exact H.
  - intros fs p content fs' e Hr new_content Hne Ew. split.
    + apply (fix_file_write_raises fs p content fs' e Hr Hne Ew).
    + pose proof (write_text_touches fs p content new_content Hr) as H.
      rewrite Ew in H. exact H.
  - intros transform fs p content e Hr Ht.
    eapply rewrite_file_transform_fails; eassumption.
  - intros fs p content Hr. split; intros H.
    + eapply rewrite_file_unchanged; [exact Hr | ].
      unfold UpdateDarkMode.update_content.
      rewrite (apply_all_no_match _ content 0 H). reflexivity.
    + unfold FixThemeLineByLine.fix_file. rewrite Hr. cbv zeta.
      rewrite fix_lines_no_match by exact H. reflexivity.
  - intros fs p rest Ht H0. apply theme_loop_step; assumption.
  - intros files fs Hnd.
    destruct (theme_main_loop_independent files Hnd fs) as [Ha Hb].
    split; [exact Ha | ]. split; [ | exact Hb].
    intros q Hq. apply theme_main_loop_other. exact Hq.
  - intros fs rel rest results total Hex. apply priority_step. exact Hex.
  - intros files fs Hnd Hexam. apply priority_loop_results; assumption.
  - intros fs rel rest results total Hex. apply priority_abort. exact Hex.
Qed.

(** Two files, the first one unreadable: the first is reported as
    unchanged and left alone, the second is rewritten. *)
Lemma per_file_failure_witness :
  let fs : fsys :=
    {[ "a.jsx" := File (Some (class_attr "bg-white")) false true true None;
       "b.jsx" := File (Some (class_attr "bg-white")) true true true None ]} in
  FixThemeLineByLine.fix_file fs "a.jsx" = ((0, []), fs) /\
  snd (FixThemeLineByLine.main_loop ["a.jsx"; "b.jsx"] fs) !! "b.jsx" =
    Some (File (Some (class_attr "bg-white dark:bg-surface-primary")) true true true None) /\
  snd (FixThemeLineByLine.main_loop ["a.jsx"; "b.jsx"] fs) !! "a.jsx" = fs !! "a.jsx".
Proof.
  cbv zeta.
  set (fs := ({[ "a.jsx" := File (Some (class_attr "bg-white")) false true true None;
                 "b.jsx" := File (Some (class_attr "bg-white")) true true true None ]} : fsys)).
  assert (Hnd : List.NoDup ["a.jsx"; "b.jsx"])
    by (repeat constructor; simpl; intuition discriminate).
  destruct per_file_failure_is_contained as (H1 & _ & _ & _ & _ & _ & _ & H7 & _).
  assert (Hr : read_text fs "a.jsx" = Raise PermissionError) by (vm_compute; reflexivity).
  destruct (H1 fs "a.jsx" PermissionError Hr) as [_ Ha].
  destruct (H7 _ fs Hnd) as (Hin & _ & _).
  split; [exact Ha | ]. split.
  - rewrite (Hin "b.jsx"); [ | right; left; reflexivity | reflexivity].
    vm_compute. reflexivity.
  - rewrite (Hin "a.jsx"); [ | left; reflexivity | reflexivity].
    rewrite Ha. reflexivity.
Defined.

(** C9, where the claim fails. First, the loop of [update_dark_mode.py]
    can be ended by one file: the first priority file is rewritten, the
    second priority path lies in a directory that may not be searched, and
    [main] ends there with [PermissionError]; the third priority file is
    left as it was, though [update_file] alone finds one replacement to
    make in it. Second, a failure while writing does not leave the file as
    it was: on a device that takes nine characters, [update_file] and
    [fix_file] return 0 and (0, []), and the file holds the first nine
    characters of the new text. *)
Lemma failure_ends_the_loop_or_cuts_the_file :
  (let first := UpdateDarkMode.base_path "features/schedule/routes/Schedule.jsx" in
   let second := UpdateDarkMode.base_path "features/bookings/routes/Bookings.jsx" in
   let third := UpdateDarkMode.base_path "features/bookings/routes/BookingsOverview.jsx" in
   let fs : fsys :=
     {[ first := File (Some (class_attr "bg-white")) true true true None;
        second := File (Some (class_attr "bg-white")) true true false None;
        third := File (Some (class_attr "bg-white")) true true true None ]} in
   UpdateDarkMode.main fs =
     (Raise PermissionError,
      <[first := File (Some (class_attr "bg-white dark:bg-surface-primary"))
                   true true true None]> fs) /\
   snd (UpdateDarkMode.main fs) !! third = fs !! third /\
   fst (UpdateDarkMode.update_file fs third) = 1 /\
   read_text (snd (UpdateDarkMode.update_file fs third)) third =
     Ok (class_attr "bg-white dark:bg-surface-primary")) /\
  (let fs : fsys :=
     {[ "a.jsx" := File (Some (class_attr "bg-white")) true true true (Some 9) ]} in
   let cut : fsys :=
     {[ "a.jsx" := File (Some (str "class=" ++ [dq] ++ str "bg")) true true true (Some 9) ]} in
   read_text fs "a.jsx" = Ok (class_attr "bg-white") /\
   UpdateDarkMode.update_file fs "a.jsx" = (0, cut) /\
   FixThemeLineByLine.fix_file fs "a.jsx" = ((0, []), cut) /\
   read_text cut "a.jsx" = Ok (str "class=" ++ [dq] ++ str "bg")).
Proof.
  split; cbv zeta; repeat split; vm_compute; reflexivity.
Qed.

(** ** The totals of the loops *)

Lemma file_loop_bounds update files :
  forall fs,
    fst (fst (file_loop update files fs)) <= snd (fst (file_loop update files fs)) /\
    fst (fst (file_loop update files fs))
    <= length (List.filter (fun p => negb (is_test_path p)) files).
Proof.
  induction files as [ | f files IH]; intros fs; [simpl; lia | ].
  cbn [file_loop List.filter]. destruct (is_test_path f); cbn [negb]; [apply IH | ].
  destruct (update fs f) as [count fs1]. specialize (IH fs1).
  destruct (file_loop update files fs1) as [[n total] fs2]. cbn [fst snd length] in *.
  destruct (0 <? count) eqn:E; cbn [fst snd].
  - apply Nat.ltb_lt in E. lia.
  - lia.
Qed.

(** X19. The totals that the [main] loops print are consistent: the
    number of files updated is at most the total of the changes, since
    each updated file brings at least one, and at most the number of
    listed files that are not test files. *)
Theorem totals_of_main_are_consistent (files : list string) (fs : fsys) :
  let listed := length (List.filter (fun p => negb (is_test_path p)) files) in
  (fst (fst (FixThemeLineByLine.main_loop files fs))
   <= snd (fst (FixThemeLineByLine.main_loop files fs)) /\
   fst (fst (FixThemeLineByLine.main_loop files fs)) <= listed) /\
  (fst (fst (FixAllDarkMode.main_loop files fs))
   <= snd (fst (FixAllDarkMode.main_loop files fs)) /\
   fst (fst (FixAllDarkMode.main_loop files fs)) <= listed) /\
  (fst (fst (FixColoredBackgrounds.main_loop files fs))
   <= snd (fst (FixColoredBackgrounds.main_loop files fs)) /\
   fst (fst (FixColoredBackgrounds.main_loop files fs)) <= listed) /\
  fst (FixMultilineInputs.main_loop files fs) <= listed.
Proof.
  cbv zeta.
  rewrite theme_main_loop_is_file_loop, all_main_loop_is_file_loop,
    colored_main_loop_is_file_loop, multiline_main_loop_is_file_loop.
  cbn [fst].
  split; [apply file_loop_bounds | ]. split; [apply file_loop_bounds | ].
  split; [apply file_loop_bounds | apply file_loop_bounds].
Qed.

(** ** No line feed is added or removed *)

Lemma assemble_with_count c (repl : rematch -> result text) (s : text) ms :
  (forall m item, In m ms -> repl m = Ok item ->
     count_occ ascii_dec item c =
     count_occ ascii_dec (slice s (m_start m) (m_end m)) c) ->
  forall i out, spans_ok i ms (length s) ->
    assemble_with repl s i ms = Ok out ->
    count_occ ascii_dec out c = count_occ ascii_dec (drop i s) c.
Proof.
  induction ms as [ | m ms IH]; intros Hrepl i out Hs H; simpl in H.
  - injection H as <-. reflexivity.
  - destruct Hs as (H1 & H2 & H3 & H4).
    destruct (repl m) as [item | e] eqn:Er; [ | discriminate]. simpl in H.
    destruct (assemble_with repl s (m_end m) ms) as [rest | e] eqn:Ea; [ | discriminate].
    simpl in H. injection H as <-.
    rewrite (drop_slice s i (m_start m)) by lia.
    rewrite (drop_slice s (m_start m) (m_end m)) by lia.
    rewrite !count_occ_app.
    rewrite (Hrepl m item (or_introl eq_refl) Er).
    rewrite (IH (fun m' item' Hm' => Hrepl m' item' (or_intror Hm')) _ _ H4 Ea).
    reflexivity.
Qed.

Lemma re_sub_with_count c r repl s out :
  (forall m item, is_match r s m -> repl m = Ok item ->
     count_occ ascii_dec item c = count_occ ascii_dec (group0 m) c) ->
  re_sub_with r repl s = Ok out ->
  count_occ ascii_dec out c = count_occ ascii_dec s c.
Proof.
  intros Hrepl H. unfold re_sub_with in H.
  change (count_occ ascii_dec s c) with (count_occ ascii_dec (drop 0 s) c).
  eapply assemble_with_count; [ | apply finditer_spans | exact H].
  intros m item Hm Hr. apply finditer_is_match in Hm.
  rewrite (is_match_slice _ _ _ Hm). apply Hrepl; assumption.
Qed.

Lemma re_sub_count c p template s :
  keeps_count c (p, template) = true ->
  count_occ ascii_dec (re_sub p template s) c = count_occ ascii_dec s c.
Proof.
  intros Hk. unfold re_sub, re_subn. cbn [fst].
  eapply (re_sub_with_count c p (fun _ => Ok template)).
  - intros m item Hm Hr. injection Hr as <-.
    unfold keeps_count in Hk. cbn [fst snd] in Hk.
    apply andb_true_iff in Hk. destruct Hk as [Hf Hw].
    destruct (is_match_group0 _ _ _ Hm) as (a & w & b & _ & -> & A & _).
    apply (accepts_words _ _ Hf) in A.
    rewrite forallb_forall in Hw. specialize (Hw _ A).
    apply Nat.eqb_eq in Hw. symmetry. exact Hw.
  - unfold re_sub_with. apply assemble_as_with.
Qed.

Lemma rewritten_count c table :
  forallb (keeps_count c) table = true ->
  forall content,
    count_occ ascii_dec (rewritten table content) c = count_occ ascii_dec content c.
Proof.
  induction table as [ | [p r] table IH]; intros Hk content; [reflexivity | ].
  cbn [forallb] in Hk. apply andb_true_iff in Hk. destruct Hk as [Hp Hk].
  cbn [rewritten]. rewrite (IH Hk). apply re_sub_count. exact Hp.
Qed.

Lemma fix_loop_feeds pairs :
  forallb line_safe pairs = true ->
  forall line ch,
    feeds (fst (FixThemeLineByLine.fix_loop pairs line ch)) = feeds line.
Proof.
  induction pairs as [ | [p d] pairs IH]; intros Hsafe line ch; [reflexivity | ].
  cbn [forallb] in Hsafe. apply andb_true_iff in Hsafe. destruct Hsafe as [Hpd Hsafe].
  cbn [FixThemeLineByLine.fix_loop].
  destruct (FixThemeLineByLine.fix_step (p, d) line) as [line' | ] eqn:E;
    [ | apply IH; exact Hsafe].
  rewrite (IH Hsafe). apply fix_step_inserts in E.
  destruct E as (_ & m & a & b & _ & -> & ->).
  unfold line_safe in Hpd. cbn [fst snd] in Hpd.
  apply andb_true_iff in Hpd. destruct Hpd as [_ Hd].
  apply negb_true_iff, existsb_nl_false in Hd.
  unfold feeds. rewrite !count_occ_app.
  rewrite (proj1 (count_occ_not_In ascii_dec d nl) Hd). simpl. lia.
Qed.

Lemma fix_tags_feeds tags :
  forall content out,
    FixMultilineInputs.fix_tags tags content = Ok out -> feeds out = feeds content.
Proof.
  induction tags as [ | tag tags IH]; intros content out H; simpl in H.
  - injection H as <-. reflexivity.
  - destruct (re_sub_with (FixMultilineInputs.pattern tag)
                FixMultilineInputs.add_bg content) as [mid | e] eqn:E; [ | discriminate].
    simpl in H. rewrite (IH _ _ H). unfold feeds.
    eapply re_sub_with_count; [ | exact E].
    intros m item Hm Hi.
    destruct (multiline_groups _ _ _ Hm) as (o & c & q & E0 & E1 & E2 & E3).
    unfold FixMultilineInputs.add_bg in Hi. rewrite E1, E2, E3 in Hi.
    destruct (str_in (str "bg-") c).
    + injection Hi as <-. reflexivity.
    + assert (Ei : item = o ++ str "bg-white dark:bg-surface-primary " ++ c ++ q)
        by (cbv [mret result_ret] in Hi; congruence).
      rewrite Ei, E0, !count_occ_app. reflexivity.
Qed.

Lemma apply_fix_feeds content out :
  FixAuthorizers.apply_fix content = Ok out -> feeds out = feeds content.
Proof.
  intros H. unfold feeds. eapply re_sub_with_count; [ | exact H].
  intros m item Hm Hi.
  destruct (route_match_shape _ _ Hm)
    as (prefix & spacing & E0 & E1 & E2 & E3 & (init & c & Ep & Hc) & _).
  destruct (word_char_facts _ Hc) as [Hns Hnc].
  unfold FixAuthorizers.add_authorizer in Hi. rewrite E1, E2, E3 in Hi.
  destruct (str_in (str "authorizer:") (group0 m)); [injection Hi as <-; reflexivity | ].
  destruct (negb (FixAuthorizers.should_have_authorizer (group0 m)));
    [injection Hi as <-; reflexivity | ].
  rewrite Ep, (rstrip_last _ _ Hns), (ends_with_last _ _ _ Hnc) in Hi.
  cbv [negb mret result_ret] in Hi.
  assert (E : item = (init ++ [c]) ++ str "," ++ str " authorizer: httpAuthorizer"
                       ++ spacing ++ str "}").
  { cbv [FixAuthorizers.fmt] in Hi. rewrite <- app_assoc in Hi. congruence. }
  rewrite E, E0, Ep, !count_occ_app. reflexivity.
Qed.

(** X20. No transformation adds or removes a line feed: the text that
    [fix_line], the three substitution loops, [fix_file_content] and the
    substitution of [fix-authorizers.py] return holds as many line feeds
    as the text given. *)
Theorem line_feeds_are_kept (content : text) :
  feeds (fst (FixThemeLineByLine.fix_line content)) = feeds content /\
  feeds (fst (UpdateDarkMode.update_content content)) = feeds content /\
  feeds (fst (FixAllDarkMode.update_content content)) = feeds content /\
  feeds (fst (FixColoredBackgrounds.update_content content)) = feeds content /\
  (exists out, FixMultilineInputs.fix_file_content content = Ok out /\
               feeds out = feeds content) /\
  (exists out, FixAuthorizers.apply_fix content = Ok out /\
               feeds out = feeds content).
Proof.
  split; [exact (fix_loop_feeds FixThemeLineByLine.THEME_PAIRS theme_pairs_line_safe
                   content false) | ].
  split.
  { unfold UpdateDarkMode.update_content.
    rewrite apply_all_counts by (vm_compute; reflexivity). cbn [fst].
    apply rewritten_count. vm_compute. reflexivity. }
  split.
  { unfold FixAllDarkMode.update_content. rewrite subn_all_counts. cbn [fst].
    apply rewritten_count. vm_compute. reflexivity. }
  split.
  { rewrite colored_update_content. cbn [fst].
    apply rewritten_count. vm_compute. reflexivity. }
  split.
  - destruct (fix_tags_ok ["input"; "select"; "textarea"]) with (content := content)
      as [out E].
    + intros tag Htag. simpl in Htag.
      destruct Htag as [<- | [<- | [<- | []]]]; repeat split.
    + exists out. split; [exact E | ]. eapply fix_tags_feeds. exact E.
  - destruct (apply_fix_total content) as [out E].
    exists out. split; [exact E | ]. apply apply_fix_feeds. exact E.
Qed.
